(** * AgenC memory interface: status tracker, statistics ledger, pool and
      default strategies

    A shallow embedding of the C sources under [src/memory_interface] and
    the properties of their specification.

    Data model (LP64, as the sources assume through [sizeof (size_t)] and
    [SIZE_MAX]): [size_t], [uintptr_t] and [uint64_t] are 64-bit unsigned
    integers, [uint32_t] is 32 bits, [uint8_t] is 8 bits; every C integer
    is a [Z] and every wrap-around is written out.

    Concurrency: the calling thread is modelled step by step; what other
    threads (or the hardware, for a weak compare-exchange) do is given by
    a schedule, one entry per compare-exchange executed by the caller. *)

From Stdlib Require Import ZArith Lia List Bool.
From stdpp Require Import base numbers list strings.

Local Open Scope Z_scope.

(** ** Machine integers *)

Definition UINT8_MAX : Z := 2 ^ 8 - 1.
Definition UINT32_MAX : Z := 2 ^ 32 - 1.
Definition UINT64_MAX : Z := 2 ^ 64 - 1.
Definition SIZE_MAX : Z := 2 ^ 64 - 1.

Definition wrap8 (x : Z) : Z := x mod 2 ^ 8.
Definition wrap32 (x : Z) : Z := x mod 2 ^ 32.
Definition wrap64 (x : Z) : Z := x mod 2 ^ 64.

(** [uint_fast32_t] is 64 bits wide on the LP64 glibc targets. *)
Definition wrap_fast32 (x : Z) : Z := x mod 2 ^ 64.

Definition u64 (x : Z) : Prop := 0 <= x <= UINT64_MAX.

(** ** Atomic compare-exchange under a schedule *)

(** What happens between the caller's load and its compare-exchange:
    nothing, a spurious failure (weak compare-exchange only), or a store
    of [v] by another thread. *)
Inductive cas_event : Type :=
| CasQuiet
| CasSpurious
| CasRace (v : Z).

Definition schedule : Type := list cas_event.

(** Computations that consume the schedule. *)
Definition M (A : Type) : Type := schedule -> A * schedule.

Definition ret {A : Type} (a : A) : M A := fun sc => (a, sc).

Definition bind {A B : Type} (m : M A) (k : A -> M B) : M B :=
  fun sc => let (a, sc') := m sc in k a sc'.

Notation "'run' x <- m 'in' k" := (bind m (fun x => k))
  (at level 10, x name, m at level 100, k at level 200).
Notation "'run' ' pat <- m 'in' k" :=
  (bind m (fun x => match x with pat => k end))
  (at level 10, pat pattern, m at level 100, k at level 200).

(** An exhausted schedule means no further interference. *)
Definition next_event : M cas_event :=
  fun sc => match sc with
            | [] => (CasQuiet, [])
            | e :: rest => (e, rest)
            end.

(** The value of an atomic object once the event has taken place. *)
Definition interfere (wrap : Z -> Z) (e : cas_event) (actual : Z) : Z :=
  match e with
  | CasRace v => wrap v
  | _ => actual
  end.

(** The value left in an atomic object by the other threads alone. *)
Definition env_last (wrap : Z -> Z) (evs : list cas_event) (init : Z) : Z :=
  fold_left (fun acc e => interfere wrap e acc) evs init.

Definition is_race (e : cas_event) : bool :=
  match e with CasRace _ => true | _ => false end.

Definition race_free (sc : schedule) : Prop :=
  Forall (fun e => is_race e = false) sc.

Definition uncontended (sc : schedule) : Prop :=
  Forall (fun e => e = CasQuiet) sc.

(** [atomic_compare_exchange_strong_explicit (obj, &expected, desired)]:
    the result and the object's content afterwards. *)
Definition atomic_compare_exchange_strong (wrap : Z -> Z)
    (actual expected desired : Z) : M (bool * Z) :=
  run e <- next_event in
  let seen := interfere wrap e actual in
  if seen =? expected then ret (true, desired) else ret (false, seen).

(** [atomic_compare_exchange_weak_explicit]: may also fail spuriously. *)
Definition atomic_compare_exchange_weak (wrap : Z -> Z)
    (actual expected desired : Z) : M (bool * Z) :=
  run e <- next_event in
  let seen := interfere wrap e actual in
  match e with
  | CasSpurious => ret (false, seen)
  | _ => if seen =? expected then ret (true, desired) else ret (false, seen)
  end.

(** ** strategy_status.h / strategy_status.c *)

Module Status.

Definition STRATEGY_MAX_RETRIES : nat := 3.

Inductive StrategyResult : Type :=
| STRATEGY_SUCCESS
| STRATEGY_NULL_POINTER
| STRATEGY_INVALID_STATE
| STRATEGY_OVERFLOW
| STRATEGY_ATOMIC_FAILURE.

Definition is_success (r : StrategyResult) : bool :=
  match r with STRATEGY_SUCCESS => true | _ => false end.

(** [StrategyStatus] is an enum without negative enumerators: an unsigned
    32-bit value, which the code range-checks against
    [STRATEGY_MAX_STATE]. *)
Definition STRATEGY_STATE_INITIALIZED : Z := 0.
Definition STRATEGY_STATE_ACTIVE : Z := 1.
Definition STRATEGY_STATE_ERROR : Z := 2.
Definition STRATEGY_STATE_TRANSITIONING : Z := 3.
Definition STRATEGY_MAX_STATE : Z := STRATEGY_STATE_TRANSITIONING.

Record StatusTracker : Type := mkTracker {
  current_status : Z;
  transition_count : Z;
  error_count : Z
}.

Definition VALID_TRANSITIONS : list (list Z) :=
  (*                   INIT ACTIVE ERROR TRANS *)
  [ (* INITIALIZED *) [0; 1; 1; 1];
    (* ACTIVE      *) [0; 0; 1; 1];
    (* ERROR       *) [1; 1; 0; 1];
    (* TRANS       *) [1; 1; 1; 0] ].

(** [VALID_TRANSITIONS[current][next]] *)
Definition transition_entry (current next : Z) : Z :=
  nth (Z.to_nat next) (nth (Z.to_nat current) VALID_TRANSITIONS []) 0.

(** [StrategyStatus] is a 32-bit object whose compare-exchange is lock
    free on the targets modelled. *)
Definition atomic_is_lock_free_status : bool := true.

Definition check_counter_overflow (current_value : Z) : StrategyResult :=
  if current_value >=? UINT64_MAX then STRATEGY_OVERFLOW else STRATEGY_SUCCESS.

Definition perform_atomic_increment (counter old_value : Z)
  : M (StrategyResult * Z) :=
  run '(success, counter') <-
    atomic_compare_exchange_weak wrap64 counter old_value
      (wrap64 (old_value + 1)) in
  ret (if success : bool then STRATEGY_SUCCESS else STRATEGY_ATOMIC_FAILURE,
       counter').

(** The [for (retry ...)] loop of [atomic_increment_with_check], on the
    content of the counter; [retries] attempts are left. *)
Fixpoint increment_retry (retries : nat) (counter : Z)
  : M (StrategyResult * Z) :=
  match retries with
  | O => ret (STRATEGY_ATOMIC_FAILURE, counter)
  | S retries' =>
      let old_count := counter in
      match check_counter_overflow old_count with
      | STRATEGY_SUCCESS =>
          run '(increment_result, counter') <-
            perform_atomic_increment counter old_count in
          if is_success increment_result
          then ret (STRATEGY_SUCCESS, counter')
          else increment_retry retries' counter'
      | overflow_check => ret (overflow_check, counter)
      end
  end.

(** The callers pass the address of a counter inside a tracker that was
    already checked, so the counter is given by its content. *)
Definition atomic_increment_with_check (counter : Z) : M (StrategyResult * Z) :=
  increment_retry STRATEGY_MAX_RETRIES counter.

Definition validate_state_transition (current next : Z) : StrategyResult :=
  if (current >? STRATEGY_MAX_STATE) || (next >? STRATEGY_MAX_STATE)
  then STRATEGY_INVALID_STATE
  else if transition_entry current next =? 0
       then STRATEGY_INVALID_STATE
       else STRATEGY_SUCCESS.

Definition perform_atomic_operation (status current_status new_status : Z)
  : M (StrategyResult * Z) :=
  run '(success, status') <-
    atomic_compare_exchange_strong wrap32 status current_status new_status in
  if negb atomic_is_lock_free_status
  then ret (STRATEGY_ATOMIC_FAILURE, status')
  else ret (if success : bool then STRATEGY_SUCCESS
            else STRATEGY_ATOMIC_FAILURE, status').

(** The [for (retry ...)] loop of [atomic_transition_status]. *)
Fixpoint transition_retry (retries : nat) (status new_status : Z)
  : M (StrategyResult * Z) :=
  match retries with
  | O => ret (STRATEGY_ATOMIC_FAILURE, status)
  | S retries' =>
      let current_status := status in
      match validate_state_transition current_status new_status with
      | STRATEGY_SUCCESS =>
          run '(operation_result, status') <-
            perform_atomic_operation status current_status new_status in
          if is_success operation_result
          then ret (STRATEGY_SUCCESS, status')
          else transition_retry retries' status' new_status
      | validation_result => ret (validation_result, status)
      end
  end.

Definition atomic_transition_status (status new_status : Z)
  : M (StrategyResult * Z) :=
  transition_retry STRATEGY_MAX_RETRIES status new_status.

(** A [NULL] tracker is [None]. *)
Definition validate_transition_input (tracker : option StatusTracker)
    (new_status : Z) : StrategyResult :=
  match tracker with
  | None => STRATEGY_NULL_POINTER
  | Some _ =>
      if new_status >? STRATEGY_MAX_STATE then STRATEGY_INVALID_STATE
      else STRATEGY_SUCCESS
  end.

Definition handle_state_transition (tracker : StatusTracker) (new_status : Z)
  : M (StrategyResult * StatusTracker) :=
  run '(result, status') <-
    atomic_transition_status (current_status tracker) new_status in
  ret (result, mkTracker status' (transition_count tracker)
                 (error_count tracker)).

Definition update_transition_counters (tracker : StatusTracker)
    (new_status : Z) : M (StrategyResult * StatusTracker) :=
  run '(result, tc) <- atomic_increment_with_check (transition_count tracker) in
  let tracker1 := mkTracker (current_status tracker) tc (error_count tracker) in
  if negb (is_success result) then ret (result, tracker1)
  else if new_status =? STRATEGY_STATE_ERROR
       then
         run '(result, ec) <- atomic_increment_with_check (error_count tracker1) in
         ret (result, mkTracker (current_status tracker1)
                        (transition_count tracker1) ec)
       else ret (STRATEGY_SUCCESS, tracker1).

Definition transition_status (tracker : option StatusTracker) (new_status : Z)
  : M (StrategyResult * option StatusTracker) :=
  match validate_transition_input tracker new_status, tracker with
  | STRATEGY_SUCCESS, Some t =>
      run '(result, t1) <- handle_state_transition t new_status in
      if negb (is_success result) then ret (result, Some t1)
      else
        run '(result, t2) <- update_transition_counters t1 new_status in
        ret (result, Some t2)
  | result, _ => ret (result, tracker)
  end.

Definition initialize_status (tracker : option StatusTracker)
  : StrategyResult * option StatusTracker :=
  match tracker with
  | None => (STRATEGY_NULL_POINTER, None)
  | Some _ => (STRATEGY_SUCCESS, Some (mkTracker STRATEGY_STATE_INITIALIZED 0 0))
  end.

(** [get_current_status]: the result and the value stored through
    [status]. *)
Definition get_current_status (tracker : option StatusTracker)
  : StrategyResult * option Z :=
  match tracker with
  | None => (STRATEGY_NULL_POINTER, None)
  | Some t => (STRATEGY_SUCCESS, Some (current_status t))
  end.

(** [get_transition_count]; [count] tells whether the out pointer is
    non-null. The result and the value stored through the pointer. *)
Definition get_transition_count (tracker : option StatusTracker) (count : bool)
  : StrategyResult * option Z :=
  match tracker, count with
  | Some t, true => (STRATEGY_SUCCESS, Some (transition_count t))
  | _, _ => (STRATEGY_NULL_POINTER, None)
  end.

Definition get_error_count (tracker : option StatusTracker) (count : bool)
  : StrategyResult * option Z :=
  match tracker, count with
  | Some t, true => (STRATEGY_SUCCESS, Some (error_count t))
  | _, _ => (STRATEGY_NULL_POINTER, None)
  end.

Definition is_valid_state_transition (current next : Z) : bool :=
  is_success (validate_state_transition current next).

Definition is_error_state (status : Z) : bool :=
  (status <=? STRATEGY_MAX_STATE) && (status =? STRATEGY_STATE_ERROR).

Definition requires_state_recovery (status : Z) : bool :=
  if status >? STRATEGY_MAX_STATE then false
  else (status =? STRATEGY_STATE_ERROR)
       || (status =? STRATEGY_STATE_TRANSITIONING).

Definition STATUS_STRINGS : list string :=
  ["INITIALIZED"; "ACTIVE"; "ERROR"; "TRANSITIONING"; "UNKNOWN"]%string.

(** [STATUS_STRINGS[i]] *)
Definition status_string_at (i : Z) : string :=
  default EmptyString (STATUS_STRINGS !! Z.to_nat i).

Definition get_state_string (status : Z) : string :=
  if status <=? STRATEGY_MAX_STATE
  then status_string_at status
  else status_string_at (STRATEGY_MAX_STATE + 1).

End Status.

(** ** memory_stats.h / memory_stats.c *)

Module Stats.

Definition STATS_MAX_TRACKED_ALLOCATIONS : nat := 1000.
Definition STATS_PATTERN_HISTORY_SIZE : Z := 100.
Definition STATS_SIZE_BUCKET_COUNT : nat := 8.
Definition MAX_COUNTER_RETRIES : nat := 5.
Definition MAX_RETRY_ATTEMPTS : nat := 10.

Definition MEMORY_STATS_SUCCESS : Z := 0.
Definition MEMORY_STATS_ERROR : Z := 1.

Definition size_thresholds : list Z :=
  [32; 64; 128; 256; 512; 1024; 4096; SIZE_MAX].

(** One entry of [active_allocations]; [address = 0] is [NULL]. *)
Record allocation_slot : Type := mkSlot {
  address : Z;
  size : Z;
  file : string;
  line : Z;
  timestamp : Z;
  valid : Z;
  in_use : Z
}.

Record size_bucket : Type := mkBucket {
  size_threshold : Z;
  count : Z
}.

Record history_entry : Type := mkHistory {
  h_size : Z;
  h_timestamp : Z
}.

Record memory_stats_t : Type := mkStats {
  alloc_count : Z;
  free_count : Z;
  current_bytes : Z;
  peak_bytes : Z;
  size_distribution : list size_bucket;
  total_allocation_time : Z;
  active_allocations : list allocation_slot;
  active_allocation_count : Z;
  total_leaked_bytes : Z;
  recent_allocations : list history_entry;
  allocation_history_index : Z
}.

Definition set_alloc_count (s : memory_stats_t) (v : Z) : memory_stats_t :=
  mkStats v (free_count s) (current_bytes s) (peak_bytes s)
    (size_distribution s) (total_allocation_time s) (active_allocations s)
    (active_allocation_count s) (total_leaked_bytes s) (recent_allocations s)
    (allocation_history_index s).

Definition set_free_count (s : memory_stats_t) (v : Z) : memory_stats_t :=
  mkStats (alloc_count s) v (current_bytes s) (peak_bytes s)
    (size_distribution s) (total_allocation_time s) (active_allocations s)
    (active_allocation_count s) (total_leaked_bytes s) (recent_allocations s)
    (allocation_history_index s).

Definition set_bytes (s : memory_stats_t) (cur peak : Z) : memory_stats_t :=
  mkStats (alloc_count s) (free_count s) cur peak
    (size_distribution s) (total_allocation_time s) (active_allocations s)
    (active_allocation_count s) (total_leaked_bytes s) (recent_allocations s)
    (allocation_history_index s).

Definition set_size_distribution (s : memory_stats_t) (d : list size_bucket)
  : memory_stats_t :=
  mkStats (alloc_count s) (free_count s) (current_bytes s) (peak_bytes s)
    d (total_allocation_time s) (active_allocations s)
    (active_allocation_count s) (total_leaked_bytes s) (recent_allocations s)
    (allocation_history_index s).

(** The slot table together with the two counters that follow it. *)
Definition set_tracking (s : memory_stats_t) (slots : list allocation_slot)
    (active leaked : Z) : memory_stats_t :=
  mkStats (alloc_count s) (free_count s) (current_bytes s) (peak_bytes s)
    (size_distribution s) (total_allocation_time s) slots
    active leaked (recent_allocations s) (allocation_history_index s).

Definition set_history (s : memory_stats_t) (h : list history_entry)
    (index : Z) : memory_stats_t :=
  mkStats (alloc_count s) (free_count s) (current_bytes s) (peak_bytes s)
    (size_distribution s) (total_allocation_time s) (active_allocations s)
    (active_allocation_count s) (total_leaked_bytes s) h index.

(** The [for (attempt ...)] loop of [update_counter_with_retry] followed
    by its fallback; the flag is the function's result ([false]: the
    fallback was used). [backoff_delay] and [sched_yield] only pass time. *)
Fixpoint counter_retry (attempts : nat) (counter value : Z)
    (is_increment : bool) : M (bool * Z) :=
  match attempts with
  | O =>
      ret (false,
           if is_increment then wrap64 (counter + value)
           else wrap64 (counter - value))
  | S attempts' =>
      let current := counter in
      let new_value :=
        if is_increment then wrap64 (current + value)
        else wrap64 (current - value) in
      run '(swapped, counter') <-
        atomic_compare_exchange_strong wrap64 counter current new_value in
      if swapped : bool then ret (true, counter')
      else counter_retry attempts' counter' value is_increment
  end.

Definition update_counter_with_retry (counter value : Z)
    (is_increment : bool) : M (bool * Z) :=
  counter_retry MAX_COUNTER_RETRIES counter value is_increment.

Definition init_slot : allocation_slot := mkSlot 0 0 EmptyString 0 0 0 0.

(** Storage filled with zero bytes, as [calloc] returns it: the ledger
    before [memory_stats_init] in [initialize_memory_stats]. *)
Definition zeroed_stats : memory_stats_t :=
  mkStats 0 0 0 0
    (replicate STATS_SIZE_BUCKET_COUNT (mkBucket 0 0))
    0
    (replicate STATS_MAX_TRACKED_ALLOCATIONS init_slot)
    0 0
    (replicate (Z.to_nat STATS_PATTERN_HISTORY_SIZE) (mkHistory 0 0))
    0.

(** The loop of [init_active_alloc]: [address], [size], [timestamp],
    [valid] and [in_use] of every slot are initialised; [file] and [line]
    are not written and keep what the storage held. *)
Definition init_active_alloc (slots : list allocation_slot)
  : list allocation_slot :=
  map (fun s => mkSlot 0 0 (file s) (line s) 0 0 0) slots.

(** The loop of [init_pattern_history]: both fields of every entry. *)
Definition init_pattern_history (history : list history_entry)
  : list history_entry :=
  map (fun _ => mkHistory 0 0) history.

(** [memory_stats_init] of a non-null ledger whose storage held [storage]
    (its arrays have their declared lengths): [init_counters],
    [init_buckets], [init_active_alloc], [init_pattern_history]. *)
Definition memory_stats_init_over (storage : memory_stats_t)
  : memory_stats_t :=
  mkStats 0 0 0 0
    (map (fun t => mkBucket t 0) size_thresholds)
    0
    (init_active_alloc (active_allocations storage))
    0 0
    (init_pattern_history (recent_allocations storage))
    0.

(** [memory_stats_init] on zero-filled storage, where every [file] is
    null and every [line] is 0: [memory_stats_init_over zeroed_stats]. *)
Definition memory_stats_init : memory_stats_t :=
  mkStats 0 0 0 0
    (map (fun t => mkBucket t 0) size_thresholds)
    0
    (replicate STATS_MAX_TRACKED_ALLOCATIONS init_slot)
    0 0
    (replicate (Z.to_nat STATS_PATTERN_HISTORY_SIZE) (mkHistory 0 0))
    0.

(** The loop of [update_size_distribution]: the first bucket whose
    threshold admits [size] is counted, then [break]. *)
Fixpoint update_size_distribution (buckets : list size_bucket) (sz : Z)
  : list size_bucket :=
  match buckets with
  | [] => []
  | b :: rest =>
      if sz <=? size_threshold b
      then mkBucket (size_threshold b) (wrap64 (count b + 1)) :: rest
      else b :: update_size_distribution rest sz
  end.

(** [record_allocation]; [now] is the value of [time (NULL)]. *)
Definition record_allocation (stats : memory_stats_t) (sz now : Z)
  : memory_stats_t :=
  let index := allocation_history_index stats mod STATS_PATTERN_HISTORY_SIZE in
  set_history stats
    (<[Z.to_nat index := mkHistory sz (wrap64 now)]> (recent_allocations stats))
    (wrap32 (allocation_history_index stats + 1)).

(** The loop of [find_free_slot] from index [i] on, [fuel] iterations being
    left. The compare-exchange on [in_use] succeeds when the flag is [0];
    the slot found is returned claimed ([in_use = 1]). *)
Fixpoint find_free_slot_from (fuel i : nat) (slots : list allocation_slot)
  : option nat * list allocation_slot :=
  match fuel with
  | O => (None, slots)
  | S fuel' =>
      match slots !! i with
      | None => (None, slots)
      | Some s =>
          if negb (valid s =? 0) then find_free_slot_from fuel' (S i) slots
          else if in_use s =? 0
               then (Some i,
                     <[i := mkSlot (address s) (size s) (file s) (line s)
                              (timestamp s) (valid s) 1]> slots)
               else find_free_slot_from fuel' (S i) slots
      end
  end.

Definition find_free_slot (slots : list allocation_slot)
  : option nat * list allocation_slot :=
  find_free_slot_from STATS_MAX_TRACKED_ALLOCATIONS 0 slots.

(** The slot search of [memory_stats_update_allocation]: up to [attempts]
    calls of [find_free_slot]. *)
Fixpoint find_free_slot_retry (attempts : nat) (slots : list allocation_slot)
  : option nat * list allocation_slot :=
  match attempts with
  | O => (None, slots)
  | S attempts' =>
      match find_free_slot slots with
      | (Some i, slots') => (Some i, slots')
      | (None, slots') => find_free_slot_retry attempts' slots'
      end
  end.

(** The loop of [find_and_remove_allocation] from index [i] on: the size
    removed ([0] when nothing was) and the ledger afterwards. *)
Fixpoint find_and_remove_from (fuel i : nat) (stats : memory_stats_t)
    (ptr : Z) : Z * memory_stats_t :=
  match fuel with
  | O => (0, stats)
  | S fuel' =>
      match active_allocations stats !! i with
      | None => (0, stats)
      | Some s =>
          if (valid s =? 0) || negb (address s =? ptr)
          then find_and_remove_from fuel' (S i) stats ptr
          else if negb (in_use s =? 0)
               then find_and_remove_from fuel' (S i) stats ptr
               else
                 let sz := size s in
                 (sz,
                  set_tracking stats
                    (<[i := mkSlot 0 0 (file s) (line s) 0 0 0]>
                       (active_allocations stats))
                    (wrap32 (active_allocation_count stats - 1))
                    (wrap64 (total_leaked_bytes stats - sz)))
      end
  end.

Definition find_and_remove_allocation (stats : memory_stats_t) (ptr : Z)
  : Z * memory_stats_t :=
  if ptr =? 0 then (0, stats)
  else find_and_remove_from STATS_MAX_TRACKED_ALLOCATIONS 0 stats ptr.

(** The byte-total loop of [memory_stats_update_allocation], on
    [(current_bytes, peak_bytes)]: the peak is stored before the
    compare-exchange of every attempt. *)
Fixpoint allocation_bytes_retry (attempts : nat) (cur peak sz : Z)
  : M (Z * Z) :=
  match attempts with
  | O => ret (cur, peak)
  | S attempts' =>
      let current := cur in
      let new_current := wrap64 (current + sz) in
      let peak' := if new_current >? peak then new_current else peak in
      run '(swapped, cur') <-
        atomic_compare_exchange_strong wrap64 cur current new_current in
      if swapped : bool then ret (cur', peak')
      else allocation_bytes_retry attempts' cur' peak' sz
  end.

Definition memory_stats_update_allocation (stats : memory_stats_t)
    (ptr sz : Z) (file_name : string) (line_no now : Z) : M memory_stats_t :=
  if ptr =? 0 then ret stats
  else
    run '(_, ac) <- update_counter_with_retry (alloc_count stats) 1 true in
    let stats := set_alloc_count stats ac in
    run '(cur, peak) <-
      allocation_bytes_retry MAX_RETRY_ATTEMPTS (current_bytes stats)
        (peak_bytes stats) sz in
    let stats := set_bytes stats cur peak in
    let stats :=
      match find_free_slot_retry MAX_RETRY_ATTEMPTS (active_allocations stats)
      with
      | (Some slot, slots) =>
          set_tracking stats
            (<[slot := mkSlot ptr sz file_name line_no (wrap64 now) 1 0]> slots)
            (wrap32 (active_allocation_count stats + 1))
            (wrap64 (total_leaked_bytes stats + sz))
      | (None, _) => stats
      end in
    let stats :=
      set_size_distribution stats
        (update_size_distribution (size_distribution stats) sz) in
    ret (record_allocation stats sz now).

(** The byte-total loop of [memory_stats_update_deallocation]. *)
Fixpoint deallocation_bytes_retry (attempts : nat) (cur sz : Z) : M Z :=
  match attempts with
  | O => ret cur
  | S attempts' =>
      let current := cur in
      if current <? sz then ret cur
      else
        run '(swapped, cur') <-
          atomic_compare_exchange_strong wrap64 cur current
            (wrap64 (current - sz)) in
        if swapped : bool then ret cur'
        else deallocation_bytes_retry attempts' cur' sz
  end.

Definition memory_stats_update_deallocation (stats : memory_stats_t)
    (ptr : Z) : M memory_stats_t :=
  if ptr =? 0 then ret stats
  else
    let '(sz, stats) := find_and_remove_allocation stats ptr in
    if sz =? 0 then ret stats
    else
      run '(_, fc) <- update_counter_with_retry (free_count stats) 1 true in
      let stats := set_free_count stats fc in
      run cur <-
        deallocation_bytes_retry MAX_RETRY_ATTEMPTS (current_bytes stats) sz in
      ret (set_bytes stats cur (peak_bytes stats)).

(** Modelled from the spec: [memory_stats_get_allocation_size] is declared
    in [memstats/include/memory_stats.h] and called by
    [handle_deallocation], but its definition is not among the sources.
    The spec has the deallocation path "look up the recorded size via
    MemoryStats": the size of the valid slot whose address is [ptr], with
    [MEMORY_STATS_SUCCESS], or [MEMORY_STATS_ERROR] when there is none. *)
Fixpoint lookup_allocation_size (slots : list allocation_slot) (ptr : Z)
  : option Z :=
  match slots with
  | [] => None
  | s :: rest =>
      if negb (valid s =? 0) && (address s =? ptr) then Some (size s)
      else lookup_allocation_size rest ptr
  end.

Definition memory_stats_get_allocation_size (stats : memory_stats_t) (ptr : Z)
  : Z * Z :=
  if ptr =? 0 then (MEMORY_STATS_ERROR, 0)
  else match lookup_allocation_size (active_allocations stats) ptr with
       | Some sz => (MEMORY_STATS_SUCCESS, sz)
       | None => (MEMORY_STATS_ERROR, 0)
       end.

Definition BACKOFF_BASE_US : Z := 50.
Definition MAX_BACKOFF_US : Z := 1000.
Definition BACKOFF_JITTER : Z := 20.

(** [backoff_delay]: the argument of [usleep], or [None] when the function
    returns without sleeping; [rand_value] is what [rand ()] returns. The
    product is an [int] that the callers' attempts (below
    [MAX_RETRY_ATTEMPTS]) keep far from overflow; [delay] is [unsigned]. *)
Definition backoff_delay (attempt rand_value : Z) : option Z :=
  if attempt <=? 0 then None
  else
    let delay := wrap32 (BACKOFF_BASE_US * Z.shiftl 1 (attempt - 1)) in
    let delay := if delay >? MAX_BACKOFF_US then MAX_BACKOFF_US else delay in
    let delay :=
      wrap32 (delay
              + wrap32 (delay * wrap32 (rand_value mod BACKOFF_JITTER)) / 100) in
    Some delay.

(** [memory_stats_reset] of a non-null ledger: the counters are stored 0,
    the bucket counts are stored 0 (the thresholds stay), and both arrays
    are overwritten with zero bytes. *)
Definition memory_stats_reset (stats : memory_stats_t) : memory_stats_t :=
  mkStats 0 0 0 0
    (map (fun b => mkBucket (size_threshold b) 0) (size_distribution stats))
    0
    (replicate STATS_MAX_TRACKED_ALLOCATIONS init_slot)
    0 0
    (replicate (Z.to_nat STATS_PATTERN_HISTORY_SIZE) (mkHistory 0 0))
    0.

End Stats.

(** ** memory_strategy.h, strategy_validator.c, memory_strategy.c *)

Module Strategy.
Import Status.

(** The capability set: a function pointer is [true] when populated;
    [strategy_data] is the backend's own data ([None]: [NULL]). *)
Record MemoryStrategy (D : Type) : Type := mkStrategy {
  allocate : bool;
  deallocate : bool;
  get_status : bool;
  validate : bool;
  status_tracker : option StatusTracker;
  strategy_data : option D
}.

Arguments mkStrategy {D} _ _ _ _ _ _.
Arguments allocate {D} _.
Arguments deallocate {D} _.
Arguments get_status {D} _.
Arguments validate {D} _.
Arguments status_tracker {D} _.
Arguments strategy_data {D} _.

Definition set_status_tracker {D : Type} (s : MemoryStrategy D)
    (t : option StatusTracker) : MemoryStrategy D :=
  mkStrategy (allocate s) (deallocate s) (get_status s) (validate s) t
    (strategy_data s).

Definition set_strategy_data {D : Type} (s : MemoryStrategy D)
    (d : option D) : MemoryStrategy D :=
  mkStrategy (allocate s) (deallocate s) (get_status s) (validate s)
    (status_tracker s) d.

Definition validate_function_pointers {D : Type} (strategy : MemoryStrategy D)
  : bool :=
  allocate strategy && deallocate strategy && get_status strategy
  && validate strategy.

Definition validate_state {D : Type} (strategy : MemoryStrategy D) : bool :=
  match status_tracker strategy with
  | None => false
  | Some _ =>
      match get_current_status (status_tracker strategy) with
      | (STRATEGY_SUCCESS, Some current) => current =? STRATEGY_STATE_ACTIVE
      | _ => false
      end
  end.

Definition validate_size (size : Z) : bool :=
  (size >? 0) && (size <=? SIZE_MAX / 2).

Definition validate_pointer (ptr : Z) : bool :=
  negb (ptr =? 0) && (ptr mod 8 =? 0).

Definition validate_strategy {D : Type} (strategy : option (MemoryStrategy D))
  : bool :=
  match strategy with
  | None => false
  | Some s => validate_function_pointers s && validate_state s
  end.

Definition validate_allocation {D : Type}
    (strategy : option (MemoryStrategy D)) (size : Z) : bool :=
  match strategy with
  | None => false
  | Some s => validate_state s && validate_size size
  end.

Definition validate_deallocation {D : Type}
    (strategy : option (MemoryStrategy D)) (ptr : Z) : bool :=
  match strategy with
  | None => false
  | Some s => validate_state s && validate_pointer ptr
  end.

(** [transition_status (self->status_tracker, new_status)] with its result
    dropped, as every caller in the strategies does. *)
Definition set_error_status {D : Type} (self : MemoryStrategy D)
  : M (MemoryStrategy D) :=
  run '(_, tracker) <-
    transition_status (status_tracker self) STRATEGY_STATE_ERROR in
  ret (set_status_tracker self tracker).

(** [default_allocate] of memory_strategy.c; [malloc_result] is what
    [malloc (size)] returns. *)
Definition default_allocate {D : Type} (self : MemoryStrategy D) (size : Z)
    (malloc_result : Z) : M (Z * MemoryStrategy D) :=
  if negb (validate_allocation (Some self) size)
  then
    run self' <- set_error_status self in
    ret (0, self')
  else
    let ptr := malloc_result in
    if ptr =? 0
    then
      run self' <- set_error_status self in
      ret (ptr, self')
    else ret (ptr, self).

(** [initialize_strategy] when [malloc] of the tracker succeeds. *)
Definition initialize_strategy {D : Type} : M (option (MemoryStrategy D)) :=
  match initialize_status (Some (mkTracker 0 0 0)) with
  | (STRATEGY_SUCCESS, tracker) =>
      run '(result, tracker') <-
        transition_status tracker STRATEGY_STATE_ACTIVE in
      if is_success result
      then ret (Some (mkStrategy true true true true tracker' None))
      else ret None
  | _ => ret None
  end.

(** [default_deallocate] of memory_strategy.c; [free] has no effect on the
    strategy. *)
Definition default_deallocate {D : Type} (self : MemoryStrategy D) (ptr : Z)
  : M (MemoryStrategy D) :=
  if negb (validate_deallocation (Some self) ptr)
  then set_error_status self
  else ret self.

(** [default_get_status] of memory_strategy.c. *)
Definition default_get_status {D : Type} (self : option (MemoryStrategy D))
  : Z :=
  match self with
  | None => STRATEGY_STATE_ERROR
  | Some s =>
      match status_tracker s with
      | None => STRATEGY_STATE_ERROR
      | Some _ =>
          match get_current_status (status_tracker s) with
          | (STRATEGY_SUCCESS, Some status) => status
          | _ => STRATEGY_STATE_ERROR
          end
      end
  end.

Definition default_validate {D : Type} (self : option (MemoryStrategy D))
  : bool :=
  validate_strategy self.

(** [cleanup_strategy] of a non-null strategy: both objects are freed and
    the structure is overwritten with zero bytes. *)
Definition cleanup_strategy {D : Type} (strategy : MemoryStrategy D)
  : MemoryStrategy D :=
  mkStrategy false false false false None None.

End Strategy.

(** ** memory_pool_strategy.h / memory_pool_strategy.c *)

Module Pool.
Import Status Strategy.

Definition POOL_BLOCK_SIZE : Z := 256.
Definition POOL_BLOCK_COUNT : Z := 1024.
Definition BLOCKS_PER_BITMAP : Z := 64.
Definition MAX_ALLOCATION_RETRIES : Z := 3.

Definition POOL_MIN_ALLOCATION : Z := 8.
Definition POOL_METADATA_SIZE : Z := 8.
Definition POOL_MAX_ALLOCATION : Z :=
  POOL_BLOCK_SIZE * (POOL_BLOCK_COUNT / 2) - POOL_METADATA_SIZE.

Record PoolMetrics : Type := mkMetrics {
  blocks_used : Z;
  total_allocations : Z;
  failed_allocations : Z;
  concurrent_ops : Z
}.

(** Byte-addressed memory: the content of every address. *)
Definition memory : Type := Z -> Z.

(** [pool_memory] is the arena's address ([0]: [NULL]) and [heap] the
    memory it points into; [block_bitmap] is the bitmap array ([None]:
    [NULL]). *)
Record MemoryPool : Type := mkPool {
  pool_memory : Z;
  heap : memory;
  block_bitmap : option (list Z);
  bitmap_size : Z;
  thread_count : Z;
  initialization_flag : Z;
  metrics : PoolMetrics
}.

Definition set_metrics (p : MemoryPool) (m : PoolMetrics) : MemoryPool :=
  mkPool (pool_memory p) (heap p) (block_bitmap p) (bitmap_size p)
    (thread_count p) (initialization_flag p) m.

Definition set_bitmap (p : MemoryPool) (b : list Z) : MemoryPool :=
  mkPool (pool_memory p) (heap p) (Some b) (bitmap_size p)
    (thread_count p) (initialization_flag p) (metrics p).

Definition set_heap (p : MemoryPool) (h : memory) : MemoryPool :=
  mkPool (pool_memory p) h (block_bitmap p) (bitmap_size p)
    (thread_count p) (initialization_flag p) (metrics p).

Definition enter_op (m : PoolMetrics) : PoolMetrics :=
  mkMetrics (blocks_used m) (total_allocations m) (failed_allocations m)
    (wrap_fast32 (concurrent_ops m + 1)).

Definition leave_op (m : PoolMetrics) : PoolMetrics :=
  mkMetrics (blocks_used m) (total_allocations m) (failed_allocations m)
    (wrap_fast32 (concurrent_ops m - 1)).

Definition count_failure (m : PoolMetrics) : PoolMetrics :=
  mkMetrics (blocks_used m) (total_allocations m)
    (wrap_fast32 (failed_allocations m + 1)) (concurrent_ops m).

Definition store_byte (m : memory) (a v : Z) : memory :=
  fun x => if x =? a then v else m x.

Definition load_byte (m : memory) (a : Z) : Z := m a mod 256.

(** The store of the [size_t] value [v] at address [a], little endian. *)
Definition store_size_t (m : memory) (a v : Z) : memory :=
  fold_left
    (fun acc k => store_byte acc (a + Z.of_nat k) ((v / 256 ^ Z.of_nat k) mod 256))
    (seq 0 8) m.

(** The [size_t] value read at address [a]. *)
Definition load_size_t (m : memory) (a : Z) : Z :=
  fold_right
    (fun k acc => acc + load_byte m (a + Z.of_nat k) * 256 ^ Z.of_nat k)
    0 (seq 0 8).

(** [bitmap[word_idx]] *)
Definition word_at (bitmap : list Z) (word_idx : Z) : Z :=
  default 0 (bitmap !! Z.to_nat word_idx).

Definition bit_mask (bit_idx : Z) : Z := Z.shiftl 1 bit_idx.

Definition is_block_used (bitmap : option (list Z)) (block : Z) : bool :=
  match bitmap with
  | None => false
  | Some bm =>
      if block >=? POOL_BLOCK_COUNT then false
      else
        let word_idx := block / BLOCKS_PER_BITMAP in
        let bit_idx := block mod BLOCKS_PER_BITMAP in
        negb (Z.land (word_at bm word_idx) (bit_mask bit_idx) =? 0)
  end.

Definition blocks_needed (size : Z) : Z :=
  if size >? SIZE_MAX - POOL_METADATA_SIZE then 0
  else
    let total_size := size + POOL_METADATA_SIZE in
    if total_size >? SIZE_MAX - (POOL_BLOCK_SIZE - 1) then 0
    else
      let blocks := (total_size + POOL_BLOCK_SIZE - 1) / POOL_BLOCK_SIZE in
      if (blocks =? 0) || (blocks >? POOL_BLOCK_COUNT) then 0 else blocks.

Definition is_ptr_in_pool_range (ptr pool_start pool_size : Z) : bool :=
  let ptr_addr := ptr in
  let start_addr := pool_start in
  if pool_size >? SIZE_MAX - start_addr then false
  else
    let end_addr := start_addr + pool_size in
    negb ((end_addr <=? start_addr) || (ptr_addr <? start_addr)
          || (ptr_addr >=? end_addr)).

(** The byte loop of [secure_clear_memory]: [n] bytes from [p] on. *)
Fixpoint clear_bytes (n : nat) (p : Z) (m : memory) : memory :=
  match n with
  | O => m
  | S n' =>
      let m := store_byte m p 255 in
      let m := store_byte m p 0 in
      let m := store_byte m p 170 in
      let m := store_byte m p 0 in
      clear_bytes n' (p + 1) m
  end.

Definition secure_clear_memory (m : memory) (mem : Z) (size : Z) : memory :=
  if (mem =? 0) || (size =? 0) || (size >? POOL_BLOCK_SIZE * POOL_BLOCK_COUNT)
  then m
  else clear_bytes (Z.to_nat size) mem m.

(** The scan loop of [find_contiguous_blocks]: [n] iterations left at
    index [i], [consecutive] free blocks seen just before it. *)
Fixpoint scan_blocks (n : nat) (bitmap : list Z) (needed i consecutive : Z)
  : option Z :=
  match n with
  | O => None
  | S n' =>
      let word_idx := i / BLOCKS_PER_BITMAP in
      let bit_idx := i mod BLOCKS_PER_BITMAP in
      if Z.land (word_at bitmap word_idx) (bit_mask bit_idx) =? 0
      then
        let consecutive := consecutive + 1 in
        if consecutive >=? needed
        then
          if i <? wrap64 (needed - 1) then None
          else Some (i - wrap64 (needed - 1))
        else scan_blocks n' bitmap needed (i + 1) consecutive
      else scan_blocks n' bitmap needed (i + 1) 0
  end.

(** [Some start] stands for [true] with [*start_block = start]. *)
Definition find_contiguous_blocks (bitmap : list Z) (bitmap_size : Z)
    (needed : Z) : option Z :=
  if bitmap_size >? SIZE_MAX / BLOCKS_PER_BITMAP then None
  else
    let total_blocks := bitmap_size * BLOCKS_PER_BITMAP in
    if total_blocks >? POOL_BLOCK_COUNT then None
    else scan_blocks (Z.to_nat total_blocks) bitmap needed 0 0.

(** The loop of [mark_blocks]: [n] blocks from [block] on. *)
Fixpoint mark_loop (n : nat) (bitmap : list Z) (block : Z) (used : bool)
  : list Z :=
  match n with
  | O => bitmap
  | S n' =>
      let word_idx := block / BLOCKS_PER_BITMAP in
      let bit_idx := block mod BLOCKS_PER_BITMAP in
      let w := word_at bitmap word_idx in
      let w' :=
        if used then Z.lor w (bit_mask bit_idx)
        else Z.land w (wrap64 (Z.lnot (bit_mask bit_idx))) in
      mark_loop n' (<[Z.to_nat word_idx := w']> bitmap) (block + 1) used
  end.

Definition mark_blocks (bitmap : list Z) (start_block num_blocks : Z)
    (used : bool) : list Z :=
  if (start_block >=? POOL_BLOCK_COUNT) || (num_blocks =? 0)
     || (num_blocks >? POOL_BLOCK_COUNT)
     || (wrap64 (start_block + num_blocks) >? POOL_BLOCK_COUNT)
  then bitmap
  else mark_loop (Z.to_nat num_blocks) bitmap start_block used.

Abbreviation pool_strategy := (MemoryStrategy MemoryPool).

(** The returned pointer ([0]: [NULL]) and the strategy afterwards. *)
Definition pool_allocate (self : pool_strategy) (size : Z)
  : M (Z * pool_strategy) :=
  if negb (validate_allocation (Some self) size) then ret (0, self)
  else
    match strategy_data self with
    | None =>
        run self' <- set_error_status self in
        ret (0, self')
    | Some pool =>
        match block_bitmap pool with
        | None =>
            run self' <- set_error_status self in
            ret (0, self')
        | Some bitmap =>
            if pool_memory pool =? 0
            then
              run self' <- set_error_status self in
              ret (0, self')
            else
              let current_ops := wrap32 (concurrent_ops (metrics pool)) in
              let pool := set_metrics pool (enter_op (metrics pool)) in
              let fail (p : MemoryPool) :=
                ret (0,
                     set_strategy_data self
                       (Some (set_metrics p
                                (count_failure (leave_op (metrics p)))))) in
              if current_ops >=? MAX_ALLOCATION_RETRIES then fail pool
              else
                let needed := blocks_needed size in
                if needed =? 0 then fail pool
                else
                  match find_contiguous_blocks bitmap (bitmap_size pool) needed
                  with
                  | None => fail pool
                  | Some start_block =>
                      let bitmap := mark_blocks bitmap start_block needed true in
                      let pool := set_bitmap pool bitmap in
                      let current_blocks :=
                        wrap32 (blocks_used (metrics pool)) in
                      if current_blocks >? wrap64 (UINT32_MAX - needed)
                      then
                        fail (set_bitmap pool
                                (mark_blocks bitmap start_block needed false))
                      else
                        let m := metrics pool in
                        let m :=
                          mkMetrics (wrap_fast32 (blocks_used m + needed))
                            (wrap_fast32 (total_allocations m + 1))
                            (failed_allocations m) (concurrent_ops m) in
                        let block_start :=
                          wrap64 (pool_memory pool
                                  + wrap64 (start_block * POOL_BLOCK_SIZE)) in
                        let h := store_size_t (heap pool) block_start needed in
                        let user_ptr :=
                          wrap64 (block_start + POOL_METADATA_SIZE) in
                        let h :=
                          secure_clear_memory h user_ptr
                            (wrap64 (wrap64 (needed * POOL_BLOCK_SIZE)
                                     - POOL_METADATA_SIZE)) in
                        let pool := set_heap (set_metrics pool (leave_op m)) h in
                        ret (user_ptr, set_strategy_data self (Some pool))
                  end
        end
    end.

Definition pool_deallocate (self : pool_strategy) (ptr : Z)
  : M pool_strategy :=
  if negb (validate_deallocation (Some self) ptr) then ret self
  else
    match strategy_data self with
    | None => set_error_status self
    | Some pool =>
        match block_bitmap pool with
        | None => set_error_status self
        | Some bitmap =>
            if pool_memory pool =? 0 then set_error_status self
            else
              let current_ops := wrap32 (concurrent_ops (metrics pool)) in
              let pool := set_metrics pool (enter_op (metrics pool)) in
              let leave (p : MemoryPool) :=
                ret (set_strategy_data self
                       (Some (set_metrics p (leave_op (metrics p))))) in
              if current_ops >=? MAX_ALLOCATION_RETRIES then leave pool
              else
                let block_start := wrap64 (ptr - POOL_METADATA_SIZE) in
                let pool_size := POOL_BLOCK_SIZE * POOL_BLOCK_COUNT in
                if negb (is_ptr_in_pool_range block_start (pool_memory pool)
                           pool_size)
                then leave pool
                else
                  let block_index :=
                    (block_start - pool_memory pool) / POOL_BLOCK_SIZE in
                  if negb (is_block_used (Some bitmap) block_index)
                  then leave pool
                  else
                    let num_blocks := load_size_t (heap pool) block_start in
                    if (num_blocks =? 0)
                       || (wrap64 (block_index + num_blocks)
                           >? POOL_BLOCK_COUNT)
                    then leave pool
                    else
                      let h :=
                        secure_clear_memory (heap pool) block_start
                          (wrap64 (num_blocks * POOL_BLOCK_SIZE)) in
                      let pool := set_heap pool h in
                      let pool :=
                        set_bitmap pool
                          (mark_blocks bitmap block_index num_blocks false) in
                      let current_blocks :=
                        wrap32 (blocks_used (metrics pool)) in
                      let m := metrics pool in
                      let m :=
                        if current_blocks >=? num_blocks
                        then mkMetrics (wrap_fast32 (blocks_used m - num_blocks))
                               (total_allocations m) (failed_allocations m)
                               (concurrent_ops m)
                        else m in
                      leave (set_metrics pool m)
        end
    end.

(** [create_pool_strategy] when every allocation succeeds: [arena] is the
    address returned by [aligned_alloc] and [h] the memory before the
    call. *)
Definition create_pool_strategy (arena : Z) (h : memory)
  : M (option pool_strategy) :=
  run strategy <- initialize_strategy in
  match strategy with
  | None => ret None
  | Some strategy =>
      let bitmap_size :=
        (POOL_BLOCK_COUNT + BLOCKS_PER_BITMAP - 1) / BLOCKS_PER_BITMAP in
      let h := secure_clear_memory h arena (POOL_BLOCK_SIZE * POOL_BLOCK_COUNT) in
      let pool :=
        mkPool arena h (Some (replicate (Z.to_nat bitmap_size) 0)) bitmap_size
          0 0 (mkMetrics 0 0 0 0) in
      ret (Some (set_strategy_data strategy (Some pool)))
  end.

Definition pool_get_status (self : option pool_strategy) : Z :=
  match self with
  | Some s =>
      if validate_strategy self
      then match get_current_status (status_tracker s) with
           | (STRATEGY_SUCCESS, Some current_status) => current_status
           | _ => STRATEGY_STATE_ERROR
           end
      else STRATEGY_STATE_ERROR
  | None => STRATEGY_STATE_ERROR
  end.

Definition pool_validate (self : option pool_strategy) : bool :=
  validate_strategy self.

End Pool.

(** ** default_strategy.h / default_strategy.c *)

Module Default.
Import Status.

Record DefaultStrategy : Type := mkDefault {
  base : Strategy.MemoryStrategy unit;
  stats : option Stats.memory_stats_t;
  status_tracker : StatusTracker;
  total_allocated : Z;
  total_freed : Z;
  peak_usage : Z;
  usage_count : Z;
  operation_count : Z
}.

Definition set_stats (s : DefaultStrategy) (st : option Stats.memory_stats_t)
  : DefaultStrategy :=
  mkDefault (base s) st (status_tracker s) (total_allocated s) (total_freed s)
    (peak_usage s) (usage_count s) (operation_count s).

Definition set_tracker (s : DefaultStrategy) (t : StatusTracker)
  : DefaultStrategy :=
  mkDefault (base s) (stats s) t (total_allocated s) (total_freed s)
    (peak_usage s) (usage_count s) (operation_count s).

Definition set_total_allocated (s : DefaultStrategy) (v : Z) : DefaultStrategy :=
  mkDefault (base s) (stats s) (status_tracker s) v (total_freed s)
    (peak_usage s) (usage_count s) (operation_count s).

Definition set_total_freed (s : DefaultStrategy) (v : Z) : DefaultStrategy :=
  mkDefault (base s) (stats s) (status_tracker s) (total_allocated s) v
    (peak_usage s) (usage_count s) (operation_count s).

Definition set_peak_usage (s : DefaultStrategy) (v : Z) : DefaultStrategy :=
  mkDefault (base s) (stats s) (status_tracker s) (total_allocated s)
    (total_freed s) v (usage_count s) (operation_count s).

Definition set_usage_count (s : DefaultStrategy) (v : Z) : DefaultStrategy :=
  mkDefault (base s) (stats s) (status_tracker s) (total_allocated s)
    (total_freed s) (peak_usage s) v (operation_count s).

Definition enter_usage (s : DefaultStrategy) : DefaultStrategy :=
  set_usage_count s (wrap32 (usage_count s + 1)).

Definition leave_usage (s : DefaultStrategy) : DefaultStrategy :=
  set_usage_count s (wrap32 (usage_count s - 1)).

(** The [validate_pointer] of default_strategy.c. *)
Definition validate_pointer (ptr : Z) : bool := negb (ptr =? 0).

Definition validate_size (size : Z) : bool :=
  (size >? 0) && (size <=? SIZE_MAX / 4).

(** A [NULL] base is [None]; [base->strategy_data] points back to the
    strategy when set. *)
Definition validate_strategy_base (b : option DefaultStrategy) : bool :=
  match b with
  | None => false
  | Some s =>
      match Strategy.strategy_data (base s) with
      | Some _ => true
      | None => false
      end
  end.

Definition update_peak_usage (strategy : DefaultStrategy) (current_usage : Z)
  : M DefaultStrategy :=
  let old_peak := peak_usage strategy in
  if current_usage >? old_peak
  then
    run '(_, peak) <-
      atomic_compare_exchange_strong wrap64 (peak_usage strategy) old_peak
        current_usage in
    ret (set_peak_usage strategy peak)
  else ret strategy.

Definition is_valid_allocation_size (current_total new_size : Z) : bool :=
  if negb (validate_size new_size) then false
  else if current_total >? SIZE_MAX - new_size then false
  else if current_total + new_size >? SIZE_MAX / 4 then false
  else true.

Definition source_file : string := "default_strategy.c".
Definition source_line : Z := 118.

Definition update_allocation_stats (strategy : DefaultStrategy) (ptr size : Z)
    (now : Z) : M DefaultStrategy :=
  run st <-
    match stats strategy with
    | None => ret None
    | Some st =>
        run st' <-
          Stats.memory_stats_update_allocation st ptr size source_file
            source_line now in
        ret (Some st')
    end in
  let strategy := set_stats strategy st in
  ret (set_total_allocated strategy (wrap64 (total_allocated strategy + size))).

(** [malloc_result] is what [malloc (size)] returns and [enomem] whether
    it left [errno == ENOMEM]. *)
Definition perform_allocation (strategy : DefaultStrategy) (size : Z)
    (malloc_result : Z) (enomem : bool) (now : Z) : M (Z * DefaultStrategy) :=
  let ptr := malloc_result in
  if ptr =? 0
  then
    if enomem
    then
      run '(_, tracker) <-
        transition_status (Some (status_tracker strategy))
          STRATEGY_STATE_ERROR in
      ret (0, match tracker with
              | Some t => set_tracker strategy t
              | None => strategy
              end)
    else ret (0, strategy)
  else
    run strategy' <- update_allocation_stats strategy ptr size now in
    ret (ptr, strategy').

Definition check_strategy_status (strategy : DefaultStrategy) : bool :=
  match get_current_status (Some (status_tracker strategy)) with
  | (STRATEGY_SUCCESS, Some status) => status =? STRATEGY_STATE_ACTIVE
  | _ => false
  end.

Definition handle_deallocation (strategy : DefaultStrategy) (ptr : Z)
  : M DefaultStrategy :=
  match stats strategy with
  | None => ret strategy
  | Some st =>
      let '(found, dealloc_size) :=
        Stats.memory_stats_get_allocation_size st ptr in
      let strategy :=
        if found =? Stats.MEMORY_STATS_SUCCESS
        then set_total_freed strategy
               (wrap64 (total_freed strategy + dealloc_size))
        else strategy in
      run st' <- Stats.memory_stats_update_deallocation st ptr in
      ret (set_stats strategy (Some st'))
  end.

(** [create_default_strategy] when both [calloc] calls succeed. *)
Definition create_default_strategy : M (option DefaultStrategy) :=
  let strategy :=
    mkDefault (Strategy.mkStrategy true true true true None (Some tt))
      (Some Stats.memory_stats_init) (mkTracker 0 0 0) 0 0 0 0 0 in
  match initialize_status (Some (status_tracker strategy)) with
  | (STRATEGY_SUCCESS, Some tracker) =>
      run '(result, tracker') <-
        transition_status (Some tracker) STRATEGY_STATE_ACTIVE in
      match is_success result, tracker' with
      | true, Some t => ret (Some (set_tracker strategy t))
      | _, _ => ret None
      end
  | _ => ret None
  end.

(** The returned pointer ([0]: [NULL]) and the strategy afterwards. *)
Definition default_allocate (b : option DefaultStrategy) (size : Z)
    (malloc_result : Z) (enomem : bool) (now : Z)
  : M (Z * option DefaultStrategy) :=
  match b with
  | Some strategy =>
      if negb (validate_strategy_base b) then ret (0, b)
      else
        let strategy := enter_usage strategy in
        if negb (check_strategy_status strategy)
        then ret (0, Some (leave_usage strategy))
        else
          let current_total :=
            wrap64 (total_allocated strategy - total_freed strategy) in
          if negb (is_valid_allocation_size current_total size)
          then ret (0, Some (leave_usage strategy))
          else
            run '(ptr, strategy) <-
              perform_allocation strategy size malloc_result enomem now in
            run strategy <-
              (if negb (ptr =? 0)
               then update_peak_usage strategy (wrap64 (current_total + size))
               else ret strategy) in
            ret (ptr, Some (leave_usage strategy))
  | None => ret (0, b)
  end.

Definition default_deallocate (b : option DefaultStrategy) (ptr : Z)
  : M (option DefaultStrategy) :=
  match b with
  | Some strategy =>
      if negb (validate_strategy_base b) || negb (validate_pointer ptr)
      then ret b
      else
        let strategy := enter_usage strategy in
        match get_current_status (Some (status_tracker strategy)) with
        | (STRATEGY_SUCCESS, Some status) =>
            if status =? STRATEGY_STATE_ERROR
            then ret (Some (leave_usage strategy))
            else
              run strategy <- handle_deallocation strategy ptr in
              ret (Some (leave_usage strategy))
        | _ => ret (Some (leave_usage strategy))
        end
  | None => ret b
  end.

Definition get_current_usage (strategy : option DefaultStrategy) : Z :=
  match strategy with
  | None => 0
  | Some s =>
      let allocated := total_allocated s in
      let freed := total_freed s in
      if allocated >? freed then allocated - freed else 0
  end.

Definition get_peak_usage (strategy : option DefaultStrategy) : Z :=
  match strategy with
  | None => 0
  | Some s => peak_usage s
  end.

Definition default_get_status (b : option DefaultStrategy) : Z :=
  match b with
  | Some strategy =>
      if negb (validate_strategy_base b) then STRATEGY_STATE_ERROR
      else
        match get_current_status (Some (status_tracker strategy)) with
        | (STRATEGY_SUCCESS, Some status) => status
        | _ => STRATEGY_STATE_ERROR
        end
  | None => STRATEGY_STATE_ERROR
  end.

Definition default_validate (b : option DefaultStrategy) : bool :=
  match b with
  | Some strategy =>
      if negb (validate_strategy_base b) then false
      else
        match get_current_status (Some (status_tracker strategy)) with
        | (STRATEGY_SUCCESS, Some status) =>
            if negb (status =? STRATEGY_STATE_ACTIVE)
               && negb (status =? STRATEGY_STATE_INITIALIZED)
            then false
            else
              match stats strategy with
              | None => false
              | Some _ =>
                  Strategy.allocate (base strategy)
                  && Strategy.deallocate (base strategy)
                  && Strategy.get_status (base strategy)
                  && Strategy.validate (base strategy)
              end
        | _ => false
        end
  | None => false
  end.

Definition get_strategy_name : string := "DefaultStrategy".

Definition get_total_allocated (strategy : option DefaultStrategy) : Z :=
  match strategy with
  | None => 0
  | Some s => total_allocated s
  end.

Definition get_total_freed (strategy : option DefaultStrategy) : Z :=
  match strategy with
  | None => 0
  | Some s => total_freed s
  end.

End Default.

(** ** Vocabulary of the properties *)


(** The ledger's representation invariant: the flags of every slot are 0
    or 1 and the sizes are [size_t] values. *)
Definition slot_ok (s : Stats.allocation_slot) : Prop :=
  (Stats.valid s = 0 \/ Stats.valid s = 1)
  /\ (Stats.in_use s = 0 \/ Stats.in_use s = 1)
  /\ 0 <= Stats.size s <= SIZE_MAX.

Definition ledger_wf (st : Stats.memory_stats_t) : Prop :=
  Forall slot_ok (Stats.active_allocations st)
  /\ 0 <= Stats.current_bytes st <= SIZE_MAX.

(** [ptr] is the address of a slot with [valid = 1]. *)
Definition tracked (st : Stats.memory_stats_t) (ptr : Z) : Prop :=
  exists (i : nat) (s : Stats.allocation_slot),
    Stats.active_allocations st !! i = Some s
    /\ Stats.valid s = 1 /\ Stats.address s = ptr.

(** The update calls made on a ledger. *)
Inductive ledger_update : Type :=
| UpdateAllocation (ptr size : Z) (file : string) (line now : Z)
| UpdateDeallocation (ptr : Z).

Definition apply_update (u : ledger_update) (st : Stats.memory_stats_t)
  : M Stats.memory_stats_t :=
  match u with
  | UpdateAllocation ptr size file line now =>
      Stats.memory_stats_update_allocation st ptr size file line now
  | UpdateDeallocation ptr => Stats.memory_stats_update_deallocation st ptr
  end.

Definition update_typed (u : ledger_update) : Prop :=
  match u with
  | UpdateAllocation _ size _ _ _ => 0 <= size <= SIZE_MAX
  | UpdateDeallocation _ => True
  end.

(** Along the run of [us] every deallocation update subtracts the removed
    size exactly when [current_bytes] holds at least that much, and leaves
    [current_bytes] alone otherwise: the counter never wraps below zero. *)
Fixpoint never_underflows (us : list ledger_update)
    (st : Stats.memory_stats_t) (sc : schedule) : Prop :=
  match us with
  | [] => True
  | u :: rest =>
      let (st', sc') := apply_update u st sc in
      match u with
      | UpdateDeallocation ptr =>
          let removed := fst (Stats.find_and_remove_allocation st ptr) in
          0 <= Stats.current_bytes st' <= Stats.current_bytes st
          /\ Stats.current_bytes st'
             = (if removed <=? Stats.current_bytes st
                then Stats.current_bytes st - removed
                else Stats.current_bytes st)
      | UpdateAllocation _ _ _ _ _ => True
      end
      /\ never_underflows rest st' sc'
  end.

(** Block [k] is free in the bitmap: the test of the scan loop. *)
Definition block_free (bitmap : list Z) (k : Z) : bool :=
  Z.land (Pool.word_at bitmap (k / Pool.BLOCKS_PER_BITMAP))
         (Pool.bit_mask (k mod Pool.BLOCKS_PER_BITMAP)) =? 0.

(** [len] consecutive free blocks from [start] on. *)
Definition free_run (bitmap : list Z) (start len : Z) : Prop :=
  forall k, start <= k < start + len -> block_free bitmap k = true.

(** Every word of the bitmap is a [uint64_t]. *)
Definition bitmap_ok (bitmap : list Z) : Prop :=
  Forall (fun w => 0 <= w < 2 ^ 64) bitmap.

(** The pool's representation invariant: the arena is an aligned region
    of the address space, [bitmap_size] is the length of the bitmap array,
    and the counters read below are [uint_fast32_t] values. *)
Definition pool_wf (p : Pool.MemoryPool) : Prop :=
  0 < Pool.pool_memory p
  /\ Pool.pool_memory p mod 8 = 0
  /\ Pool.pool_memory p + Pool.POOL_BLOCK_SIZE * Pool.POOL_BLOCK_COUNT
     <= SIZE_MAX
  /\ (exists bitmap,
         Pool.block_bitmap p = Some bitmap
         /\ Z.of_nat (length bitmap) = Pool.bitmap_size p
         /\ bitmap_ok bitmap)
  /\ 0 <= Pool.blocks_used (Pool.metrics p) < 2 ^ 64
  /\ 0 <= Pool.concurrent_ops (Pool.metrics p) < 2 ^ 64.

(** The pool after a successful allocation of the [needed] blocks from
    [start] on. *)
Definition allocated_pool (pool : Pool.MemoryPool) (bitmap : list Z)
    (start needed : Z) : Pool.MemoryPool :=
  let block_start := Pool.pool_memory pool + start * Pool.POOL_BLOCK_SIZE in
  Pool.mkPool (Pool.pool_memory pool)
    (Pool.secure_clear_memory
       (Pool.store_size_t (Pool.heap pool) block_start needed)
       (block_start + Pool.POOL_METADATA_SIZE)
       (needed * Pool.POOL_BLOCK_SIZE - Pool.POOL_METADATA_SIZE))
    (Some (Pool.mark_blocks bitmap start needed true))
    (Pool.bitmap_size pool) (Pool.thread_count pool)
    (Pool.initialization_flag pool)
    (Pool.mkMetrics
       (Pool.blocks_used (Pool.metrics pool) + needed)
       (wrap_fast32 (Pool.total_allocations (Pool.metrics pool) + 1))
       (Pool.failed_allocations (Pool.metrics pool))
       (Pool.concurrent_ops (Pool.metrics pool))).

(** A pool in which only the last block is in use, and whose owner has
    written the value 1 into the last eight bytes of that block: the
    bitmap has bit 1023 set, [blocks_used] is 1. *)
Definition last_block_pool : Pool.MemoryPool :=
  Pool.mkPool 4096
    (fun a => if (a =? 4096 + 1023 * 256) || (a =? 4096 + 262136)
              then 1 else 0)
    (Some (replicate 15 0 ++ [2 ^ 63])) 16 0 0
    (Pool.mkMetrics 1 2 0 0).

Definition last_block_strategy : Pool.pool_strategy :=
  Strategy.mkStrategy true true true true
    (Some (Status.mkTracker Status.STRATEGY_STATE_ACTIVE 1 0))
    (Some last_block_pool).

(** A pool as [create_pool_strategy] leaves it, with its arena at address
    4096, and the active strategy that owns it. *)
Definition fresh_pool : Pool.MemoryPool :=
  Pool.mkPool 4096 (fun _ => 0) (Some (replicate 16 0)) 16 0 0
    (Pool.mkMetrics 0 0 0 0).

Definition fresh_strategy : Pool.pool_strategy :=
  Strategy.mkStrategy true true true true
    (Some (Status.mkTracker Status.STRATEGY_STATE_ACTIVE 1 0))
    (Some fresh_pool).

(** [last_block_pool] with a neighbour: the byte 100 past the end of the
    arena belongs to another object and holds 7. *)
Definition neighboured_pool : Pool.MemoryPool :=
  Pool.mkPool 4096
    (fun a => if a =? 4096 + 256 * 1024 + 100 then 7
              else Pool.heap last_block_pool a)
    (Pool.block_bitmap last_block_pool) 16 0 0
    (Pool.metrics last_block_pool).

Definition neighboured_strategy : Pool.pool_strategy :=
  Strategy.mkStrategy true true true true
    (Some (Status.mkTracker Status.STRATEGY_STATE_ACTIVE 1 0))
    (Some neighboured_pool).

(** Storage that was in use before, as a stack object holds it: no field
    is zero, and every slot still names a file and a line. *)
Definition stale_storage : Stats.memory_stats_t :=
  Stats.mkStats 7 7 7 7
    (replicate Stats.STATS_SIZE_BUCKET_COUNT (Stats.mkBucket 7 7))
    7
    (replicate Stats.STATS_MAX_TRACKED_ALLOCATIONS
       (Stats.mkSlot 7 7 "stale.c" 7 7 1 1))
    7 7
    (replicate (Z.to_nat Stats.STATS_PATTERN_HISTORY_SIZE)
       (Stats.mkHistory 7 7))
    7.

(** * Runs and measures used by the further properties *)

(** The calls [transition_status (tracker, s)] for the requests [reqs] in
    turn, on one tracker: the results and the tracker afterwards. *)
Fixpoint run_transitions (reqs : list Z) (t : Status.StatusTracker)
  : M (list Status.StrategyResult * Status.StatusTracker) :=
  match reqs with
  | [] => ret ([], t)
  | s :: rest =>
      run '(r, t1) <- Status.transition_status (Some t) s in
      let t1 := match t1 with Some t1 => t1 | None => t end in
      run '(rs, t2) <- run_transitions rest t1 in
      ret (r :: rs, t2)
  end.

(** The automaton of the transition matrix: a request allowed by
    [is_valid_state_transition] is accepted and counted, any other is
    refused with [STRATEGY_INVALID_STATE]. *)
Fixpoint fsm_run (reqs : list Z) (t : Status.StatusTracker)
  : list Status.StrategyResult * Status.StatusTracker :=
  match reqs with
  | [] => ([], t)
  | s :: rest =>
      if Status.is_valid_state_transition (Status.current_status t) s
      then
        let '(rs, t') :=
          fsm_run rest
            (Status.mkTracker s (Status.transition_count t + 1)
               (if s =? Status.STRATEGY_STATE_ERROR
                then Status.error_count t + 1
                else Status.error_count t)) in
        (Status.STRATEGY_SUCCESS :: rs, t')
      else
        let '(rs, t') := fsm_run rest t in
        (Status.STRATEGY_INVALID_STATE :: rs, t')
  end.

(** The update calls [us] made in turn on a ledger. *)
Fixpoint apply_updates (us : list ledger_update) (st : Stats.memory_stats_t)
  : M Stats.memory_stats_t :=
  match us with
  | [] => ret st
  | u :: rest =>
      run st' <- apply_update u st in
      apply_updates rest st'
  end.



(** A slot that [find_free_slot] can claim. *)
Definition slot_free (s : Stats.allocation_slot) : Prop :=
  Stats.valid s = 0 /\ Stats.in_use s = 0.

(** Exactly the first [k] blocks of the pool are marked used. *)
Definition prefix_used (bitmap : list Z) (k : Z) : Prop :=
  forall j, 0 <= j < Pool.POOL_BLOCK_COUNT ->
            Pool.is_block_used (Some bitmap) j = (j <? k).

(** * Properties *)

(** ** Schedules *)

Lemma cas_strong_unfold (wrap : Z -> Z) (a e d : Z) (sc : schedule) :
  atomic_compare_exchange_strong wrap a e d sc
  = (let seen := interfere wrap (hd CasQuiet sc) a in
     (seen =? e, if seen =? e then d else seen), tl sc).
Proof.
  unfold atomic_compare_exchange_strong, bind, next_event, ret.
  destruct sc as [|ev rest]; simpl;
    match goal with |- context [?x =? ?y] => destruct (x =? y) end;
    reflexivity.
Qed.

Lemma cas_weak_unfold (wrap : Z -> Z) (a e d : Z) (sc : schedule) :
  atomic_compare_exchange_weak wrap a e d sc
  = (let ev := hd CasQuiet sc in
     let seen := interfere wrap ev a in
     match ev with
     | CasSpurious => (false, seen)
     | _ => (seen =? e, if seen =? e then d else seen)
     end, tl sc).
Proof.
  unfold atomic_compare_exchange_weak, bind, next_event, ret.
  destruct sc as [|ev rest]; simpl.
  - destruct (a =? e); reflexivity.
  - destruct ev; simpl; try reflexivity;
      match goal with |- context [?x =? ?y] => destruct (x =? y) end;
      reflexivity.
Qed.

Lemma schedule_split (sc : schedule) : sc = firstn 1 sc ++ tl sc.
Proof. destruct sc; reflexivity. Qed.

Lemma env_last_head (wrap : Z -> Z) (sc : schedule) (a : Z) :
  env_last wrap (firstn 1 sc) a = interfere wrap (hd CasQuiet sc) a.
Proof. destruct sc; reflexivity. Qed.

Lemma env_last_app (wrap : Z -> Z) (l1 l2 : list cas_event) (a : Z) :
  env_last wrap (l1 ++ l2) a = env_last wrap l2 (env_last wrap l1 a).
Proof. unfold env_last. apply fold_left_app. Qed.


Lemma race_free_app_l (l1 l2 : list cas_event) :
  race_free (l1 ++ l2) -> race_free l1.
Proof. unfold race_free. rewrite Forall_app. tauto. Qed.

Lemma uncontended_tl (sc : schedule) : uncontended sc -> uncontended (tl sc).
Proof. destruct 1; simpl; [constructor | assumption]. Qed.

Lemma uncontended_hd (sc : schedule) : uncontended sc -> hd CasQuiet sc = CasQuiet.
Proof. destruct 1; simpl; auto. Qed.

(** ** Status tracker *)

Section StatusFacts.
Import Status.

Lemma transition_retry_result (n : nat) (status new_status : Z) (sc : schedule)
    (r : StrategyResult) (status' : Z) (sc' : schedule) :
  transition_retry n status new_status sc = (r, status', sc') ->
  exists consumed,
    sc = consumed ++ sc'
    /\ (r = STRATEGY_SUCCESS -> status' = new_status)
    /\ (r <> STRATEGY_SUCCESS -> status' = env_last wrap32 consumed status)
    /\ r <> STRATEGY_NULL_POINTER /\ r <> STRATEGY_OVERFLOW.
Proof.
  revert status sc. induction n as [|n IH]; intros status sc H; simpl in H.
  - inversion H; subst. exists []. repeat split; try congruence.
  - destruct (validate_state_transition status new_status) eqn:Hv;
      try (inversion H; subst; exists []; repeat split; congruence).
    + unfold perform_atomic_operation, bind in H.
      rewrite cas_strong_unfold in H. simpl in H. unfold ret in H.
      destruct (interfere wrap32 (hd CasQuiet sc) status =? status) eqn:Heq;
        simpl in H.
      * inversion H; subst. exists (firstn 1 sc).
        repeat split; try congruence. apply schedule_split.
      * apply IH in H. destruct H as (consumed & Hsc & Hs & Hf & Hn & Ho).
        exists (firstn 1 sc ++ consumed). repeat split; auto.
        -- rewrite <- app_assoc, <- Hsc. apply schedule_split.
        -- intros Hr. rewrite env_last_app, env_last_head. auto.
    + unfold validate_state_transition in Hv.
      repeat match type of Hv with
             | (if ?c then _ else _) = _ => destruct c
             end; discriminate.
    + unfold validate_state_transition in Hv.
      repeat match type of Hv with
             | (if ?c then _ else _) = _ => destruct c
             end; discriminate.
Qed.


Lemma transition_retry_uncontended (n : nat) (status new_status : Z)
    (sc : schedule) :
  uncontended sc ->
  validate_state_transition status new_status = STRATEGY_SUCCESS ->
  transition_retry (S n) status new_status sc
  = (STRATEGY_SUCCESS, new_status, tl sc).
Proof.
  intros Hu Hv. simpl. rewrite Hv.
  unfold perform_atomic_operation, bind. rewrite cas_strong_unfold.
  rewrite (uncontended_hd _ Hu). simpl. rewrite Z.eqb_refl. reflexivity.
Qed.

Lemma increment_retry_uncontended (n : nat) (counter : Z) (sc : schedule) :
  uncontended sc ->
  0 <= counter < UINT64_MAX ->
  increment_retry (S n) counter sc = (STRATEGY_SUCCESS, counter + 1, tl sc).
Proof.
  intros Hu Hc. simpl. unfold check_counter_overflow.
  destruct (Z.geb_spec counter UINT64_MAX) as [Hge|_]; [lia|].
  unfold perform_atomic_increment, bind. rewrite cas_weak_unfold.
  rewrite (uncontended_hd _ Hu). simpl. rewrite Z.eqb_refl. simpl.
  unfold ret, wrap64. rewrite Z.mod_small; [reflexivity|].
  unfold UINT64_MAX in Hc. lia.
Qed.

Lemma transition_entry_zero_invalid (current next : Z) :
  transition_entry current next = 0 ->
  validate_state_transition current next = STRATEGY_INVALID_STATE.
Proof.
  intros H. unfold validate_state_transition. rewrite H.
  destruct (_ || _); reflexivity.
Qed.

Lemma transition_entry_one_valid (current next : Z) :
  0 <= current <= STRATEGY_MAX_STATE -> 0 <= next <= STRATEGY_MAX_STATE ->
  transition_entry current next = 1 ->
  validate_state_transition current next = STRATEGY_SUCCESS.
Proof.
  unfold STRATEGY_MAX_STATE, STRATEGY_STATE_TRANSITIONING.
  intros Hc Hn H. unfold validate_state_transition. rewrite H.
  unfold STRATEGY_MAX_STATE, STRATEGY_STATE_TRANSITIONING.
  destruct (Z.gtb_spec current 3); [lia|].
  destruct (Z.gtb_spec next 3); [lia|]. reflexivity.
Qed.

Lemma tracker_eta (t : StatusTracker) :
  mkTracker (current_status t) (transition_count t) (error_count t) = t.
Proof. destruct t; reflexivity. Qed.

End StatusFacts.

(** ** C1: soundness of the transition matrix *)

Lemma transition_status_uncontended (t : Status.StatusTracker)
    (new_status : Z) (sc : schedule) :
  0 <= new_status <= Status.STRATEGY_MAX_STATE ->
  Status.validate_state_transition (Status.current_status t) new_status
  = Status.STRATEGY_SUCCESS ->
  uncontended sc ->
  0 <= Status.transition_count t < UINT64_MAX ->
  (new_status = Status.STRATEGY_STATE_ERROR ->
   0 <= Status.error_count t < UINT64_MAX) ->
  exists sc',
    Status.transition_status (Some t) new_status sc
    = (Status.STRATEGY_SUCCESS,
       Some (Status.mkTracker new_status (Status.transition_count t + 1)
               (if new_status =? Status.STRATEGY_STATE_ERROR
                then Status.error_count t + 1
                else Status.error_count t)),
       sc').
Proof.
  intros Hnew Ho Hu Htc Hec.
  assert (Hin : (new_status >? Status.STRATEGY_MAX_STATE) = false).
  { destruct (Z.gtb_spec new_status Status.STRATEGY_MAX_STATE);
      [lia | reflexivity]. }
  unfold Status.transition_status, Status.validate_transition_input.
  rewrite Hin. unfold bind at 1. unfold Status.handle_state_transition,
    bind at 1. unfold Status.atomic_transition_status,
    Status.STRATEGY_MAX_RETRIES.
  rewrite (transition_retry_uncontended _ _ _ _ Hu Ho).
  unfold ret at 1. cbn [negb Status.is_success].
  unfold bind at 1. unfold Status.update_transition_counters, bind at 1.
  unfold Status.atomic_increment_with_check, Status.STRATEGY_MAX_RETRIES.
  cbn [Status.transition_count Status.error_count Status.current_status].
  pose proof (uncontended_tl _ Hu) as Hu1.
  rewrite (increment_retry_uncontended _ _ _ Hu1 Htc).
  cbn [negb Status.is_success].
  destruct (Z.eqb_spec new_status Status.STRATEGY_STATE_ERROR) as [He|He].
  - unfold bind at 1.
    cbn [Status.transition_count Status.error_count Status.current_status].
    pose proof (uncontended_tl _ Hu1) as Hu2.
    rewrite (increment_retry_uncontended _ _ _ Hu2 (Hec He)).
    unfold ret. eexists. reflexivity.
  - unfold ret. eexists. reflexivity.
Qed.

(** C1 (as amended). For every tracker whose state and requested state are
    in range: the diagonal of the matrix is 0; where the matrix entry is 0
    [transition_status] returns [STRATEGY_INVALID_STATE] and leaves the
    state, both counters and the schedule as they were; where the entry is
    1, the call is uncontended and no counter it has to increment is at
    [UINT64_MAX], it returns [STRATEGY_SUCCESS], the state is the requested
    one, [transition_count] has grown by one and [error_count] by one
    exactly when the requested state is [ERROR]. *)
Theorem transition_status_fsm_sound (t : Status.StatusTracker)
    (new_status : Z) (sc : schedule) :
  0 <= Status.current_status t <= Status.STRATEGY_MAX_STATE ->
  0 <= new_status <= Status.STRATEGY_MAX_STATE ->
  Status.transition_entry new_status new_status = 0
  /\ (Status.transition_entry (Status.current_status t) new_status = 0 ->
      Status.transition_status (Some t) new_status sc
      = (Status.STRATEGY_INVALID_STATE, Some t, sc))
  /\ (Status.transition_entry (Status.current_status t) new_status = 1 ->
      uncontended sc ->
      0 <= Status.transition_count t < UINT64_MAX ->
      (new_status = Status.STRATEGY_STATE_ERROR ->
       0 <= Status.error_count t < UINT64_MAX) ->
      exists sc',
        Status.transition_status (Some t) new_status sc
        = (Status.STRATEGY_SUCCESS,
           Some (Status.mkTracker new_status (Status.transition_count t + 1)
                   (if new_status =? Status.STRATEGY_STATE_ERROR
                    then Status.error_count t + 1
                    else Status.error_count t)),
           sc')).
Proof.
  intros Hcur Hnew.
  assert (Hin : (new_status >? Status.STRATEGY_MAX_STATE) = false).
  { destruct (Z.gtb_spec new_status Status.STRATEGY_MAX_STATE); [lia | reflexivity]. }
  split; [|split].
  - unfold Status.STRATEGY_MAX_STATE, Status.STRATEGY_STATE_TRANSITIONING in Hnew.
    assert (Hc : new_status = 0 \/ new_status = 1 \/ new_status = 2
                 \/ new_status = 3) by lia.
    destruct Hc as [-> | [-> | [-> | ->]]]; reflexivity.
  - intros Hz. apply transition_entry_zero_invalid in Hz.
    unfold Status.transition_status, Status.validate_transition_input.
    rewrite Hin. unfold bind, Status.handle_state_transition, bind,
      Status.atomic_transition_status. simpl. rewrite Hz. unfold ret. simpl.
    rewrite tracker_eta. reflexivity.
  - intros Ho Hu Htc Hec.
    apply transition_entry_one_valid in Ho; auto.
    apply transition_status_uncontended; assumption.
Qed.

(** Both branches of C1 at work: [ACTIVE -> INITIALIZED] is refused and
    [INITIALIZED -> ERROR] is taken. *)
Lemma transition_status_fsm_sound_witness :
  Status.transition_status (Some (Status.mkTracker 1 5 0)) 0 [CasRace 7]
  = (Status.STRATEGY_INVALID_STATE, Some (Status.mkTracker 1 5 0), [CasRace 7])
  /\ exists sc',
    Status.transition_status (Some (Status.mkTracker 0 5 0)) 2 []
    = (Status.STRATEGY_SUCCESS, Some (Status.mkTracker 2 6 1), sc').
Proof.
  split.
  - apply (transition_status_fsm_sound (Status.mkTracker 1 5 0) 0 [CasRace 7]);
      vm_compute; try split; congruence.
  - apply (transition_status_fsm_sound (Status.mkTracker 0 5 0) 2 []).
    + vm_compute; split; congruence.
    + vm_compute; split; congruence.
    + reflexivity.
    + constructor.
    + vm_compute; split; congruence.
    + intros _. vm_compute; split; congruence.
Defined.

(** C1 as stated fails: with [transition_count] at [UINT64_MAX] an allowed,
    uncontended transition returns [STRATEGY_OVERFLOW]. *)
Lemma transition_status_fsm_counterexample :
  ~ (forall (t : Status.StatusTracker) (new_status : Z),
        0 <= Status.current_status t <= Status.STRATEGY_MAX_STATE ->
        0 <= new_status <= Status.STRATEGY_MAX_STATE ->
        Status.transition_entry (Status.current_status t) new_status = 1 ->
        exists t' sc',
          Status.transition_status (Some t) new_status []
          = (Status.STRATEGY_SUCCESS, Some t', sc')
          /\ Status.current_status t' = new_status).
Proof.
  intros H.
  destruct (H (Status.mkTracker Status.STRATEGY_STATE_INITIALIZED UINT64_MAX 0)
              Status.STRATEGY_STATE_ACTIVE) as (t' & sc' & Heq & _);
    try (vm_compute; try split; congruence).
  vm_compute in Heq. discriminate.
Qed.

(** ** C5: which failures of [transition_status] leave the tracker alone *)





(** ** C6: what happens when every bounded compare-exchange fails *)

Lemma counter_retry_result (n : nat) (counter value : Z) (is_increment : bool)
    (sc : schedule) (b : bool) (counter' : Z) (sc' : schedule) :
  Stats.counter_retry n counter value is_increment sc = (b, counter', sc') ->
  exists consumed,
    sc = consumed ++ sc'
    /\ (b = false -> length consumed = n)
    /\ counter'
       = wrap64 (if is_increment
                 then env_last wrap64 consumed counter + value
                 else env_last wrap64 consumed counter - value).
Proof.
  revert counter sc. induction n as [|n IH]; intros counter sc H; simpl in H.
  - unfold ret in H. inversion H; subst. exists []. simpl.
    repeat split. destruct is_increment; reflexivity.
  - unfold bind in H. rewrite cas_strong_unfold in H. simpl in H.
    destruct (interfere wrap64 (hd CasQuiet sc) counter =? counter) eqn:Heq.
    + unfold ret in H. inversion H; subst. exists (firstn 1 sc).
      split; [apply schedule_split|]. split; [discriminate|].
      rewrite env_last_head. apply Z.eqb_eq in Heq. rewrite Heq.
      destruct is_increment; reflexivity.
    + apply IH in H. destruct H as (consumed & Hsc & Hl & Hc).
      exists (firstn 1 sc ++ consumed). split; [|split].
      * rewrite <- app_assoc, <- Hsc. apply schedule_split.
      * intros Hb. rewrite length_app, (Hl Hb).
        destruct sc as [|e rest]; [|reflexivity].
        simpl in Heq. rewrite Z.eqb_refl in Heq. discriminate.
      * rewrite env_last_app, env_last_head. exact Hc.
Qed.




(** ** Statistics ledger *)

Lemma find_and_remove_from_untracked (fuel i : nat)
    (st : Stats.memory_stats_t) (ptr : Z) :
  ledger_wf st -> ~ tracked st ptr ->
  Stats.find_and_remove_from fuel i st ptr = (0, st).
Proof.
  intros [Hwf _] Hun. revert i. induction fuel as [|fuel IH]; intros i; simpl.
  - reflexivity.
  - destruct (Stats.active_allocations st !! i) as [s|] eqn:Hs; [|reflexivity].
    assert (Hok : slot_ok s).
    { rewrite Forall_lookup in Hwf. exact (Hwf i s Hs). }
    destruct Hok as ([Hv|Hv] & _ & _).
    + rewrite Hv. simpl. apply IH.
    + destruct (Z.eqb_spec (Stats.address s) ptr) as [Ha|Ha].
      * exfalso. apply Hun. exists i, s. auto.
      * rewrite orb_true_r. apply IH.
Qed.

Lemma find_and_remove_from_wf (fuel i : nat) (st : Stats.memory_stats_t)
    (ptr : Z) :
  ledger_wf st ->
  let '(sz, st') := Stats.find_and_remove_from fuel i st ptr in
  ledger_wf st' /\ 0 <= sz <= SIZE_MAX
  /\ Stats.current_bytes st' = Stats.current_bytes st.
Proof.
  intros Hwf. revert i. induction fuel as [|fuel IH]; intros i; simpl.
  - split; [exact Hwf|]. unfold SIZE_MAX. split; [lia | reflexivity].
  - destruct (Stats.active_allocations st !! i) as [s|] eqn:Hs.
    2:{ split; [exact Hwf|]. unfold SIZE_MAX. split; [lia | reflexivity]. }
    destruct ((Stats.valid s =? 0) || negb (Stats.address s =? ptr));
      [apply IH|].
    destruct (negb (Stats.in_use s =? 0)); [apply IH|].
    destruct Hwf as [Hslots Hcur].
    assert (Hok : slot_ok s).
    { rewrite Forall_lookup in Hslots. exact (Hslots i s Hs). }
    split; [|split; [apply Hok | reflexivity]].
    split; [|exact Hcur]. simpl.
    apply Forall_insert; [exact Hslots|].
    unfold slot_ok, SIZE_MAX. simpl. lia.
Qed.

Lemma find_free_slot_from_wf (fuel i : nat)
    (slots : list Stats.allocation_slot) :
  Forall slot_ok slots ->
  Forall slot_ok (snd (Stats.find_free_slot_from fuel i slots)).
Proof.
  intros Hwf. revert i. induction fuel as [|fuel IH]; intros i; simpl.
  - exact Hwf.
  - destruct (slots !! i) as [s|] eqn:Hs; [|exact Hwf].
    destruct (negb (Stats.valid s =? 0)); [apply IH|].
    destruct (Stats.in_use s =? 0); [|apply IH]. simpl.
    apply Forall_insert; [exact Hwf|].
    rewrite Forall_lookup in Hwf. destruct (Hwf i s Hs) as (Hv & _ & Hsz).
    unfold slot_ok. simpl. auto.
Qed.

Lemma find_free_slot_retry_wf (n : nat) (slots : list Stats.allocation_slot) :
  Forall slot_ok slots ->
  Forall slot_ok (snd (Stats.find_free_slot_retry n slots)).
Proof.
  revert slots. induction n as [|n IH]; intros slots Hwf; simpl.
  - exact Hwf.
  - pose proof (find_free_slot_from_wf Stats.STATS_MAX_TRACKED_ALLOCATIONS 0
                  slots Hwf) as Hf.
    unfold Stats.find_free_slot.
    destruct (Stats.find_free_slot_from Stats.STATS_MAX_TRACKED_ALLOCATIONS 0
                slots) as [[j|] slots']; simpl in *.
    + exact Hf.
    + apply IH. exact Hf.
Qed.

Lemma wrap64_range (x : Z) : 0 <= wrap64 x <= SIZE_MAX.
Proof.
  unfold wrap64, SIZE_MAX.
  pose proof (Z.mod_pos_bound x (2 ^ 64) ltac:(lia)). lia.
Qed.

Lemma wrap64_small (x : Z) : 0 <= x <= SIZE_MAX -> wrap64 x = x.
Proof. unfold wrap64, SIZE_MAX. intros H. apply Z.mod_small. lia. Qed.

Lemma interfere_wrap64_range (e : cas_event) (a : Z) :
  0 <= a <= SIZE_MAX -> 0 <= interfere wrap64 e a <= SIZE_MAX.
Proof. destruct e; simpl; auto using wrap64_range. Qed.

Lemma allocation_bytes_retry_result (n : nat) (cur peak sz : Z)
    (sc : schedule) (cur' peak' : Z) (sc' : schedule) :
  0 <= cur <= SIZE_MAX ->
  Stats.allocation_bytes_retry n cur peak sz sc = (cur', peak', sc') ->
  0 <= cur' <= SIZE_MAX /\ exists consumed, sc = consumed ++ sc'.
Proof.
  revert cur peak sc. induction n as [|n IH]; intros cur peak sc Hc H;
    simpl in H.
  - unfold ret in H. inversion H; subst. split; [exact Hc|]. exists []. auto.
  - unfold bind in H. rewrite cas_strong_unfold in H. simpl in H.
    destruct (interfere wrap64 (hd CasQuiet sc) cur =? cur).
    + unfold ret in H. inversion H; subst. split; [apply wrap64_range|].
      exists (firstn 1 sc). apply schedule_split.
    + apply IH in H; [|apply interfere_wrap64_range; exact Hc].
      destruct H as [Hr [consumed Hsc]]. split; [exact Hr|].
      exists (firstn 1 sc ++ consumed).
      rewrite <- app_assoc, <- Hsc. apply schedule_split.
Qed.

Lemma deallocation_bytes_retry_result (n : nat) (cur sz : Z) (sc : schedule)
    (cur' : Z) (sc' : schedule) :
  0 <= cur <= SIZE_MAX -> 0 <= sz ->
  Stats.deallocation_bytes_retry n cur sz sc = (cur', sc') ->
  exists consumed,
    sc = consumed ++ sc'
    /\ 0 <= env_last wrap64 consumed cur <= SIZE_MAX
    /\ (cur' = env_last wrap64 consumed cur
        \/ (sz <= env_last wrap64 consumed cur
            /\ cur' = env_last wrap64 consumed cur - sz)).
Proof.
  revert cur sc. induction n as [|n IH]; intros cur sc Hc Hsz H; simpl in H.
  - unfold ret in H. inversion H; subst. exists []. simpl. auto.
  - destruct (Z.ltb_spec cur sz) as [Hlt|Hge].
    + unfold ret in H. inversion H; subst. exists []. simpl. auto.
    + unfold bind in H. rewrite cas_strong_unfold in H. simpl in H.
      destruct (interfere wrap64 (hd CasQuiet sc) cur =? cur) eqn:Heq.
      * unfold ret in H. inversion H; subst. exists (firstn 1 sc).
        split; [apply schedule_split|]. rewrite env_last_head.
        apply Z.eqb_eq in Heq. rewrite Heq. split; [exact Hc|].
        right. split; [exact Hge|]. apply wrap64_small. lia.
      * apply IH in H; [|apply interfere_wrap64_range; exact Hc | exact Hsz].
        destruct H as (consumed & Hsc & Hr & Hres).
        exists (firstn 1 sc ++ consumed).
        rewrite env_last_app, env_last_head.
        split; [|split; assumption].
        rewrite <- app_assoc, <- Hsc. apply schedule_split.
Qed.

Lemma race_free_hd (wrap : Z -> Z) (sc : schedule) (a : Z) :
  race_free sc -> interfere wrap (hd CasQuiet sc) a = a.
Proof. destruct 1 as [|e l He _]; [reflexivity|]. destruct e; simpl in *; congruence. Qed.

Lemma race_free_tl (sc : schedule) : race_free sc -> race_free (tl sc).
Proof. destruct 1; simpl; [constructor | assumption]. Qed.

Lemma race_free_app_r (l1 l2 : list cas_event) :
  race_free (l1 ++ l2) -> race_free l2.
Proof. unfold race_free. rewrite Forall_app. tauto. Qed.

Lemma deallocation_bytes_retry_race_free (n : nat) (cur sz : Z)
    (sc : schedule) :
  race_free sc -> 0 <= sz <= cur -> cur <= SIZE_MAX ->
  fst (Stats.deallocation_bytes_retry (S n) cur sz sc) = cur - sz.
Proof.
  intros Hrf Hsz Hc. simpl.
  destruct (Z.ltb_spec cur sz); [lia|].
  unfold bind. rewrite cas_strong_unfold. simpl.
  rewrite (race_free_hd _ _ _ Hrf), Z.eqb_refl. simpl.
  apply wrap64_small. lia.
Qed.

Lemma deallocation_bytes_retry_short (n : nat) (cur sz : Z) (sc : schedule) :
  cur < sz -> Stats.deallocation_bytes_retry (S n) cur sz sc = (cur, sc).
Proof. intros H. simpl. destruct (Z.ltb_spec cur sz); [reflexivity | lia]. Qed.

Lemma update_deallocation_result (st : Stats.memory_stats_t) (ptr : Z)
    (sc : schedule) (st' : Stats.memory_stats_t) (sc' : schedule) :
  ledger_wf st ->
  Stats.memory_stats_update_deallocation st ptr sc = (st', sc') ->
  ledger_wf st'
  /\ exists c1 c2,
      sc = c1 ++ c2 ++ sc'
      /\ let removed := fst (Stats.find_and_remove_allocation st ptr) in
         let env := env_last wrap64 c2 (Stats.current_bytes st) in
         0 <= removed
         /\ (Stats.current_bytes st' = env
             \/ (removed <= env /\ Stats.current_bytes st' = env - removed)).
Proof.
  intros Hwf H.
  unfold Stats.memory_stats_update_deallocation,
    Stats.update_counter_with_retry in H.
  unfold Stats.find_and_remove_allocation in *.
  generalize dependent Stats.MAX_RETRY_ATTEMPTS.
  generalize dependent Stats.MAX_COUNTER_RETRIES.
  intros tries attempts H.
  destruct (ptr =? 0).
  { unfold ret in H. inversion H; subst. split; [exact Hwf|].
    exists [], []. simpl. split; [reflexivity|]. split; [lia | auto]. }
  pose proof (find_and_remove_from_wf Stats.STATS_MAX_TRACKED_ALLOCATIONS 0
                st ptr Hwf) as Hrem.
  destruct (Stats.find_and_remove_from Stats.STATS_MAX_TRACKED_ALLOCATIONS 0
              st ptr) as [sz st1].
  destruct Hrem as (Hwf1 & Hsz & Hcur). simpl.
  destruct (sz =? 0).
  { unfold ret in H. inversion H; subst. split; [exact Hwf1|].
    exists [], []. simpl. split; [reflexivity|]. split; [lia|].
    left. exact Hcur. }
  unfold bind at 1 in H.
  destruct (Stats.counter_retry tries
              (Stats.free_count st1) 1 true sc) as [[b fc] sc1] eqn:Hfc.
  apply counter_retry_result in Hfc. destruct Hfc as (c1 & Hsc1 & _ & _).
  unfold bind, Stats.set_free_count in H.
  cbn [Stats.current_bytes Stats.peak_bytes] in H.
  destruct (Stats.deallocation_bytes_retry attempts
              (Stats.current_bytes st1) sz sc1) as [cur' sc2] eqn:Hb.
  destruct Hwf1 as [Hslots1 Hc1].
  apply deallocation_bytes_retry_result in Hb; [|exact Hc1 | lia].
  destruct Hb as (c2 & Hsc2 & Henv & Hres).
  unfold ret in H. inversion H; subst.
  split.
  - split; simpl; [exact Hslots1|]. destruct Hres as [-> | [? ->]]; lia.
  - exists c1, c2. split; [reflexivity|].
    simpl. rewrite <- Hcur. split; [lia | exact Hres].
Qed.

Lemma update_allocation_result (st : Stats.memory_stats_t) (ptr sz : Z)
    (f : string) (l now : Z) (sc : schedule) (st' : Stats.memory_stats_t)
    (sc' : schedule) :
  ledger_wf st -> 0 <= sz <= SIZE_MAX ->
  Stats.memory_stats_update_allocation st ptr sz f l now sc = (st', sc') ->
  ledger_wf st' /\ exists consumed, sc = consumed ++ sc'.
Proof.
  intros [Hslots Hcur] Hsz H.
  unfold Stats.memory_stats_update_allocation,
    Stats.update_counter_with_retry in H.
  generalize dependent Stats.MAX_RETRY_ATTEMPTS.
  generalize dependent Stats.MAX_COUNTER_RETRIES.
  intros tries attempts H.
  destruct (ptr =? 0).
  { unfold ret in H. inversion H; subst. split; [split; assumption|].
    exists []. reflexivity. }
  unfold bind at 1 in H.
  destruct (Stats.counter_retry tries
              (Stats.alloc_count st) 1 true sc) as [[b ac] sc1] eqn:Hac.
  apply counter_retry_result in Hac. destruct Hac as (c1 & Hsc1 & _ & _).
  unfold bind, Stats.set_alloc_count, Stats.set_bytes in H.
  cbn [Stats.current_bytes Stats.peak_bytes Stats.active_allocations] in H.
  destruct (Stats.allocation_bytes_retry attempts
              (Stats.current_bytes st) (Stats.peak_bytes st) sz sc1)
    as [[cur peak] sc2] eqn:Hb.
  apply allocation_bytes_retry_result in Hb; [|exact Hcur].
  destruct Hb as [Hcur' [c2 Hsc2]].
  pose proof (find_free_slot_retry_wf attempts
                (Stats.active_allocations st) Hslots) as Hfree.
  destruct (Stats.find_free_slot_retry attempts
              (Stats.active_allocations st)) as [[slot|] slots];
    unfold ret in H; inversion H; subst; simpl in *.
  - split; [|exists (c1 ++ c2); rewrite <- app_assoc; reflexivity].
    split; simpl; [|exact Hcur'].
    apply Forall_insert; [exact Hfree|]. unfold slot_ok. simpl. auto.
  - split; [|exists (c1 ++ c2); rewrite <- app_assoc; reflexivity].
    split; simpl; [exact Hslots | exact Hcur'].
Qed.

Lemma update_deallocation_race_free (st : Stats.memory_stats_t) (ptr : Z)
    (sc : schedule) :
  ledger_wf st -> race_free sc ->
  let removed := fst (Stats.find_and_remove_allocation st ptr) in
  Stats.current_bytes (fst (Stats.memory_stats_update_deallocation st ptr sc))
  = (if removed <=? Stats.current_bytes st
     then Stats.current_bytes st - removed
     else Stats.current_bytes st).
Proof.
  intros Hwf Hrf.
  unfold Stats.memory_stats_update_deallocation,
    Stats.update_counter_with_retry, Stats.find_and_remove_allocation.
  assert (Hattempts : exists n, Stats.MAX_RETRY_ATTEMPTS = S n)
    by (eexists; reflexivity).
  destruct Hattempts as [n Hn]. rewrite Hn. clear Hn.
  generalize dependent Stats.MAX_COUNTER_RETRIES. intros tries.
  destruct Hwf as [Hslots Hcur0].
  destruct (ptr =? 0).
  { simpl. destruct (Z.leb_spec 0 (Stats.current_bytes st)); lia. }
  pose proof (find_and_remove_from_wf Stats.STATS_MAX_TRACKED_ALLOCATIONS 0
                st ptr (conj Hslots Hcur0)) as Hrem.
  destruct (Stats.find_and_remove_from Stats.STATS_MAX_TRACKED_ALLOCATIONS 0
              st ptr) as [sz st1].
  destruct Hrem as ([_ Hc1] & Hsz & Hcur). cbn [fst].
  destruct (Z.eqb_spec sz 0) as [->|Hnz].
  { cbn [fst ret]. rewrite Hcur.
    destruct (Z.leb_spec 0 (Stats.current_bytes st)); lia. }
  unfold bind at 1.
  destruct (Stats.counter_retry tries (Stats.free_count st1) 1 true sc)
    as [[b fc] sc1] eqn:Hfc.
  apply counter_retry_result in Hfc. destruct Hfc as (c1 & Hsc1 & _ & _).
  assert (Hrf1 : race_free sc1) by (rewrite Hsc1 in Hrf; eapply race_free_app_r; eauto).
  unfold bind, Stats.set_free_count.
  cbn [Stats.current_bytes Stats.peak_bytes].
  rewrite <- Hcur.
  destruct (Z.leb_spec sz (Stats.current_bytes st1)) as [Hle|Hgt].
  - pose proof (deallocation_bytes_retry_race_free n
                  (Stats.current_bytes st1) sz sc1 Hrf1
                  ltac:(lia) ltac:(lia)) as Hd.
    destruct (Stats.deallocation_bytes_retry (S n) (Stats.current_bytes st1)
                sz sc1) as [cur' sc2].
    cbn [fst] in Hd. unfold ret. cbn. exact Hd.
  - rewrite (deallocation_bytes_retry_short n _ _ sc1 Hgt).
    unfold ret. cbn. reflexivity.
Qed.

(** ** C9: [current_bytes] never wraps below zero *)

(** C9. A deallocation update subtracts the size of the allocation it
    removed from [current_bytes] only when the counter holds at least that
    much, and leaves it as is otherwise, under every interference: with
    [env] the value the other threads left in the counter, the counter
    ends at [env], or at [env - removed] with [removed <= env]. Hence along
    every sequence of allocation and deallocation updates run by one
    thread the counter never wraps below zero. *)
Theorem current_bytes_never_underflows :
  (forall (st : Stats.memory_stats_t) (ptr : Z) (sc : schedule)
          (st' : Stats.memory_stats_t) (sc' : schedule),
      ledger_wf st ->
      Stats.memory_stats_update_deallocation st ptr sc = (st', sc') ->
      exists c1 c2,
        sc = c1 ++ c2 ++ sc'
        /\ let removed := fst (Stats.find_and_remove_allocation st ptr) in
           let env := env_last wrap64 c2 (Stats.current_bytes st) in
           0 <= removed
           /\ (Stats.current_bytes st' = env
               \/ (removed <= env
                   /\ Stats.current_bytes st' = env - removed)))
  /\ (forall (us : list ledger_update) (st : Stats.memory_stats_t)
             (sc : schedule),
         ledger_wf st -> Forall update_typed us -> race_free sc ->
         never_underflows us st sc).
Proof.
  split.
  - intros st ptr sc st' sc' Hwf H.
    apply (update_deallocation_result st ptr sc st' sc' Hwf H).
  - induction us as [|u us IH]; intros st sc Hwf Hty Hrf; [exact I|].
    inversion Hty as [|? ? Hu Hus]; subst. cbn [never_underflows].
    destruct (apply_update u st sc) as [st' sc'] eqn:Hrun.
    destruct u as [ptr sz f l now | ptr]; cbn [apply_update] in Hrun.
    + apply update_allocation_result in Hrun; [|exact Hwf | exact Hu].
      destruct Hrun as [Hwf' [consumed Hsc]].
      split; [exact I|]. apply IH; [exact Hwf' | exact Hus |].
      rewrite Hsc in Hrf. eapply race_free_app_r; eauto.
    + pose proof (update_deallocation_race_free st ptr sc Hwf Hrf) as Hval.
      rewrite Hrun in Hval. cbn [fst] in Hval.
      pose proof (update_deallocation_result st ptr sc st' sc' Hwf Hrun)
        as [Hwf' (c1 & c2 & Hsc & Hpos & _)].
      cbv zeta in Hval, Hpos.
      split; [split|].
      * destruct Hwf as [_ Hc].
        destruct (Z.leb_spec
                    (fst (Stats.find_and_remove_allocation st ptr))
                    (Stats.current_bytes st)); lia.
      * exact Hval.
      * apply IH; [exact Hwf' | exact Hus |].
        rewrite Hsc in Hrf. rewrite app_assoc in Hrf.
        eapply race_free_app_r; eauto.
Qed.

(** ** Pool bitmap *)

Lemma bit_mask_pow (b : Z) : Pool.bit_mask b = 2 ^ b.
Proof. unfold Pool.bit_mask. apply Z.shiftl_1_l. Qed.

Lemma land_bit_mask_eqb (w b : Z) :
  0 <= b -> (Z.land w (Pool.bit_mask b) =? 0) = negb (Z.testbit w b).
Proof.
  intros Hb. rewrite bit_mask_pow. destruct (Z.testbit w b) eqn:Ht; simpl.
  - destruct (Z.eqb_spec (Z.land w (2 ^ b)) 0) as [E|]; [|reflexivity].
    assert (Hbit : Z.testbit (Z.land w (2 ^ b)) b = true)
      by (rewrite Z.land_spec, Ht, Z.pow2_bits_true; auto).
    rewrite E, Z.bits_0 in Hbit. discriminate.
  - apply Z.eqb_eq. apply Z.bits_inj'. intros n Hn.
    rewrite Z.land_spec, Z.bits_0, Z.pow2_bits_eqb by lia.
    destruct (Z.eqb_spec b n) as [->|]; [rewrite Ht | rewrite andb_false_r];
      reflexivity.
Qed.

Lemma block_index_bounds (k : Z) :
  0 <= k -> 0 <= k / 64 /\ 0 <= k mod 64 < 64.
Proof.
  intros Hk. split; [apply Z.div_pos; lia | apply Z.mod_pos_bound; lia].
Qed.

Lemma block_free_testbit (bitmap : list Z) (k : Z) :
  0 <= k ->
  block_free bitmap k
  = negb (Z.testbit (Pool.word_at bitmap (k / 64)) (k mod 64)).
Proof.
  intros Hk. unfold block_free, Pool.BLOCKS_PER_BITMAP.
  apply land_bit_mask_eqb. apply block_index_bounds. exact Hk.
Qed.

Lemma set_bit_spec (w k b : Z) :
  0 <= k ->
  Z.testbit (Z.lor w (Pool.bit_mask k)) b = Z.testbit w b || (k =? b).
Proof.
  intros Hk. rewrite bit_mask_pow, Z.lor_spec, Z.pow2_bits_eqb by lia.
  reflexivity.
Qed.

Lemma clear_bit_spec (w k b : Z) :
  0 <= k -> 0 <= b < 64 ->
  Z.testbit (Z.land w (wrap64 (Z.lnot (Pool.bit_mask k)))) b
  = Z.testbit w b && negb (k =? b).
Proof.
  intros Hk Hb. unfold wrap64.
  rewrite bit_mask_pow, Z.land_spec, Z.mod_pow2_bits_low, Z.lnot_spec,
    Z.pow2_bits_eqb by lia.
  reflexivity.
Qed.

Lemma set_bit_range (w k : Z) :
  0 <= w < 2 ^ 64 -> 0 <= k < 64 ->
  0 <= Z.lor w (Pool.bit_mask k) < 2 ^ 64.
Proof.
  intros Hw Hk.
  assert (Hnn : 0 <= Z.lor w (Pool.bit_mask k)).
  { apply Z.lor_nonneg. rewrite bit_mask_pow. split; [lia|].
    apply Z.pow_nonneg. lia. }
  split; [exact Hnn|].
  apply (Z.bounded_iff_bits_nonneg 64); [lia | exact Hnn |].
  intros l Hl. rewrite set_bit_spec by lia.
  assert (Hhigh : Z.testbit w l = false).
  { apply (proj1 (Z.bounded_iff_bits_nonneg 64 w ltac:(lia) ltac:(lia)));
      [lia | exact Hl]. }
  rewrite Hhigh. simpl. apply Z.eqb_neq. lia.
Qed.

Lemma clear_bit_range (w k : Z) :
  0 <= w < 2 ^ 64 ->
  0 <= Z.land w (wrap64 (Z.lnot (Pool.bit_mask k))) < 2 ^ 64.
Proof.
  intros Hw.
  assert (Hnn : 0 <= Z.land w (wrap64 (Z.lnot (Pool.bit_mask k))))
    by (apply Z.land_nonneg; left; lia).
  split; [exact Hnn|].
  apply (Z.bounded_iff_bits_nonneg 64); [lia | exact Hnn |].
  intros l Hl. rewrite Z.land_spec.
  assert (Hhigh : Z.testbit w l = false).
  { apply (proj1 (Z.bounded_iff_bits_nonneg 64 w ltac:(lia) ltac:(lia)));
      [lia | exact Hl]. }
  rewrite Hhigh. reflexivity.
Qed.

Lemma word_at_insert (bitmap : list Z) (i v j : Z) :
  0 <= i < Z.of_nat (length bitmap) -> 0 <= j ->
  Pool.word_at (<[Z.to_nat i := v]> bitmap) j
  = if j =? i then v else Pool.word_at bitmap j.
Proof.
  intros Hi Hj. unfold Pool.word_at.
  destruct (Z.eqb_spec j i) as [->|Hne].
  - rewrite list_lookup_insert_eq by lia. reflexivity.
  - rewrite list_lookup_insert_ne by lia. reflexivity.
Qed.

Lemma word_at_range (bitmap : list Z) (j : Z) :
  bitmap_ok bitmap -> 0 <= Pool.word_at bitmap j < 2 ^ 64.
Proof.
  intros Hok. unfold Pool.word_at.
  destruct (bitmap !! Z.to_nat j) as [w|] eqn:Hw; simpl; [|lia].
  unfold bitmap_ok in Hok. rewrite Forall_lookup in Hok. exact (Hok _ _ Hw).
Qed.

Lemma mark_loop_spec (n : nat) (bitmap : list Z) (block : Z) (used : bool) :
  bitmap_ok bitmap -> 0 <= block ->
  block + Z.of_nat n <= 64 * Z.of_nat (length bitmap) ->
  length (Pool.mark_loop n bitmap block used) = length bitmap
  /\ bitmap_ok (Pool.mark_loop n bitmap block used)
  /\ forall k, 0 <= k ->
       Z.testbit (Pool.word_at (Pool.mark_loop n bitmap block used) (k / 64))
                 (k mod 64)
       = if (block <=? k) && (k <? block + Z.of_nat n) then used
         else Z.testbit (Pool.word_at bitmap (k / 64)) (k mod 64).
Proof.
  revert bitmap block. induction n as [|n IH]; intros bitmap block Hok Hb Hlen.
  - simpl. split; [reflexivity|]. split; [exact Hok|]. intros k Hk.
    destruct (Z.leb_spec block k), (Z.ltb_spec k (block + Z.of_nat 0));
      simpl; try reflexivity; lia.
  - cbn [Pool.mark_loop]. unfold Pool.BLOCKS_PER_BITMAP.
    destruct (block_index_bounds block Hb) as [Hq Hr].
    assert (Hidx : block / 64 < Z.of_nat (length bitmap)).
    { apply Z.div_lt_upper_bound; lia. }
    set (w' := if used
               then Z.lor (Pool.word_at bitmap (block / 64))
                      (Pool.bit_mask (block mod 64))
               else Z.land (Pool.word_at bitmap (block / 64))
                      (wrap64 (Z.lnot (Pool.bit_mask (block mod 64))))).
    assert (Hw' : 0 <= w' < 2 ^ 64).
    { subst w'. destruct used.
      - apply set_bit_range; [apply word_at_range; exact Hok | exact Hr].
      - apply clear_bit_range. apply word_at_range. exact Hok. }
    assert (Hok1 : bitmap_ok (<[Z.to_nat (block / 64) := w']> bitmap)).
    { apply Forall_insert; assumption. }
    assert (Hlen1 : length (<[Z.to_nat (block / 64) := w']> bitmap)
                    = length bitmap) by apply length_insert.
    destruct (IH (<[Z.to_nat (block / 64) := w']> bitmap) (block + 1) Hok1
                ltac:(lia) ltac:(rewrite Hlen1; lia)) as (Hl & Ho & Hbits).
    split; [rewrite Hl; exact Hlen1|]. split; [exact Ho|].
    intros k Hk. rewrite (Hbits k Hk).
    destruct (block_index_bounds k Hk) as [Hkq Hkr].
    rewrite word_at_insert by lia.
    destruct (Z.eqb_spec k block) as [->|Hne].
    + rewrite Z.eqb_refl.
      replace ((block + 1 <=? block) && (block <? block + 1 + Z.of_nat n))
        with false by (symmetry; apply andb_false_intro1, Z.leb_gt; lia).
      replace ((block <=? block) && (block <? block + Z.of_nat (S n)))
        with true
        by (symmetry; apply andb_true_intro; split;
            [apply Z.leb_le | apply Z.ltb_lt]; lia).
      subst w'. destruct used.
      * rewrite set_bit_spec by lia. rewrite Z.eqb_refl. apply orb_true_r.
      * rewrite clear_bit_spec by lia. rewrite Z.eqb_refl. apply andb_false_r.
    + assert (Hsame :
                Z.testbit (if k / 64 =? block / 64 then w'
                           else Pool.word_at bitmap (k / 64)) (k mod 64)
                = Z.testbit (Pool.word_at bitmap (k / 64)) (k mod 64)).
      { destruct (Z.eqb_spec (k / 64) (block / 64)) as [Hq'|]; [|reflexivity].
        assert (Hrne : block mod 64 <> k mod 64).
        { intros Hr'. apply Hne.
          rewrite (Z.div_mod k 64), (Z.div_mod block 64) by lia.
          rewrite Hq', Hr'. reflexivity. }
        rewrite Hq'. subst w'. destruct used.
        - rewrite set_bit_spec by lia.
          replace (block mod 64 =? k mod 64) with false
            by (symmetry; apply Z.eqb_neq; exact Hrne).
          apply orb_false_r.
        - rewrite clear_bit_spec by lia.
          replace (block mod 64 =? k mod 64) with false
            by (symmetry; apply Z.eqb_neq; exact Hrne).
          apply andb_true_r. }
      rewrite Hsame.
      destruct (Z.leb_spec (block + 1) k), (Z.ltb_spec k (block + 1 + Z.of_nat n)),
        (Z.leb_spec block k), (Z.ltb_spec k (block + Z.of_nat (S n)));
        simpl; try reflexivity; lia.
Qed.

Lemma bitmap_ext (b1 b2 : list Z) :
  length b1 = length b2 -> bitmap_ok b1 -> bitmap_ok b2 ->
  (forall k, 0 <= k < 64 * Z.of_nat (length b2) ->
     Z.testbit (Pool.word_at b1 (k / 64)) (k mod 64)
     = Z.testbit (Pool.word_at b2 (k / 64)) (k mod 64)) ->
  b1 = b2.
Proof.
  intros Hlen Hok1 Hok2 Hbits. apply list_eq. intros i.
  destruct (decide (i < length b2)%nat) as [Hi|Hi].
  - destruct (lookup_lt_is_Some_2 b1 i ltac:(lia)) as [w1 Hw1].
    destruct (lookup_lt_is_Some_2 b2 i Hi) as [w2 Hw2].
    rewrite Hw1, Hw2. f_equal.
    assert (Hr1 : 0 <= w1 < 2 ^ 64).
    { unfold bitmap_ok in Hok1. rewrite Forall_lookup in Hok1. eauto. }
    assert (Hr2 : 0 <= w2 < 2 ^ 64).
    { unfold bitmap_ok in Hok2. rewrite Forall_lookup in Hok2. eauto. }
    apply Z.bits_inj'. intros b Hb.
    destruct (Z.lt_ge_cases b 64) as [Hlt|Hge].
    + specialize (Hbits (64 * Z.of_nat i + b) ltac:(lia)).
      assert (Hq : (64 * Z.of_nat i + b) / 64 = Z.of_nat i).
      { symmetry. apply (Z.div_unique _ 64 _ b); lia. }
      assert (Hm : (64 * Z.of_nat i + b) mod 64 = b).
      { symmetry. apply (Z.mod_unique _ 64 (Z.of_nat i) b); lia. }
      rewrite Hq, Hm in Hbits. unfold Pool.word_at in Hbits.
      rewrite Nat2Z.id, Hw1, Hw2 in Hbits. exact Hbits.
    + rewrite (proj1 (Z.bounded_iff_bits_nonneg 64 w1 ltac:(lia) ltac:(lia)))
        by lia.
      rewrite (proj1 (Z.bounded_iff_bits_nonneg 64 w2 ltac:(lia) ltac:(lia)))
        by lia.
      reflexivity.
  - rewrite (lookup_ge_None_2 b1 i) by lia.
    rewrite (lookup_ge_None_2 b2 i) by lia. reflexivity.
Qed.

(** ** C3: the scan for a run of free blocks is first-fit *)

Lemma scan_blocks_spec (n : nat) (bitmap : list Z) (needed i c : Z) :
  1 <= needed <= SIZE_MAX ->
  0 <= c <= i -> c < needed ->
  free_run bitmap (i - c) c ->
  (i - c = 0 \/ block_free bitmap (i - c - 1) = false) ->
  (forall s, 0 <= s -> s + needed <= i -> ~ free_run bitmap s needed) ->
  match Pool.scan_blocks n bitmap needed i c with
  | Some s =>
      0 <= s /\ s + needed <= i + Z.of_nat n /\ free_run bitmap s needed
      /\ forall s', 0 <= s' < s -> ~ free_run bitmap s' needed
  | None =>
      forall s, 0 <= s -> s + needed <= i + Z.of_nat n ->
                ~ free_run bitmap s needed
  end.
Proof.
  intros Hneeded. revert i c.
  induction n as [|n IH]; intros i c Hc Hlt Hrun Hmax Hnone.
  - simpl. intros s Hs Hle. apply Hnone; lia.
  - cbn [Pool.scan_blocks].
    change (Z.land (Pool.word_at bitmap (i / Pool.BLOCKS_PER_BITMAP))
              (Pool.bit_mask (i mod Pool.BLOCKS_PER_BITMAP)) =? 0)
      with (block_free bitmap i).
    destruct (block_free bitmap i) eqn:Hfree.
    + destruct (Z.geb_spec (c + 1) needed) as [Hge|Hlt'].
      * assert (Hn1 : wrap64 (needed - 1) = c).
        { rewrite wrap64_small by lia. lia. }
        rewrite Hn1. destruct (Z.ltb_spec i c) as [Hic|_]; [lia|].
        split; [lia|]. split; [lia|]. split.
        -- intros k Hk. destruct (Z.eq_dec k i) as [->|Hki]; [exact Hfree|].
           apply Hrun. lia.
        -- intros s' Hs'. apply Hnone; lia.
      * assert (Hstep :
                  match Pool.scan_blocks n bitmap needed (i + 1) (c + 1) with
                  | Some s =>
                      0 <= s /\ s + needed <= i + 1 + Z.of_nat n
                      /\ free_run bitmap s needed
                      /\ forall s', 0 <= s' < s -> ~ free_run bitmap s' needed
                  | None =>
                      forall s, 0 <= s -> s + needed <= i + 1 + Z.of_nat n ->
                                ~ free_run bitmap s needed
                  end).
        { apply IH; try lia.
          - intros k Hk. destruct (Z.eq_dec k i) as [->|Hki]; [exact Hfree|].
            apply Hrun. lia.
          - replace (i + 1 - (c + 1)) with (i - c) by lia. exact Hmax.
          - intros s Hs Hle Hfr.
            destruct (Z.le_gt_cases (s + needed) i) as [Hold|Hnew];
              [exact (Hnone s Hs Hold Hfr)|].
            destruct Hmax as [Hz|Hused]; [lia|].
            rewrite (Hfr (i - c - 1)) in Hused by lia. discriminate. }
        destruct (Pool.scan_blocks n bitmap needed (i + 1) (c + 1)) as [s|].
        -- destruct Hstep as (H1 & H2 & H3 & H4). repeat split; auto; lia.
        -- intros s Hs Hle. apply Hstep; lia.
    + assert (Hstep :
                match Pool.scan_blocks n bitmap needed (i + 1) 0 with
                | Some s =>
                    0 <= s /\ s + needed <= i + 1 + Z.of_nat n
                    /\ free_run bitmap s needed
                    /\ forall s', 0 <= s' < s -> ~ free_run bitmap s' needed
                | None =>
                    forall s, 0 <= s -> s + needed <= i + 1 + Z.of_nat n ->
                              ~ free_run bitmap s needed
                end).
      { apply IH; try lia.
        - intros k Hk. lia.
        - right. replace (i + 1 - 0 - 1) with i by lia. exact Hfree.
        - intros s Hs Hle Hfr.
          destruct (Z.le_gt_cases (s + needed) i) as [Hold|Hnew];
            [exact (Hnone s Hs Hold Hfr)|].
          rewrite (Hfr i) in Hfree by lia. discriminate. }
      destruct (Pool.scan_blocks n bitmap needed (i + 1) 0) as [s|].
      * destruct Hstep as (H1 & H2 & H3 & H4). repeat split; auto; lia.
      * intros s Hs Hle. apply Hstep; lia.
Qed.

Lemma find_contiguous_blocks_spec (bitmap : list Z) (bitmap_size needed : Z) :
  0 <= bitmap_size ->
  bitmap_size * Pool.BLOCKS_PER_BITMAP <= Pool.POOL_BLOCK_COUNT ->
  1 <= needed <= SIZE_MAX ->
  match Pool.find_contiguous_blocks bitmap bitmap_size needed with
  | Some s =>
      0 <= s /\ s + needed <= bitmap_size * Pool.BLOCKS_PER_BITMAP
      /\ free_run bitmap s needed
      /\ forall s', 0 <= s' < s -> ~ free_run bitmap s' needed
  | None =>
      forall s, 0 <= s -> s + needed <= bitmap_size * Pool.BLOCKS_PER_BITMAP ->
                ~ free_run bitmap s needed
  end.
Proof.
  intros Hsize Htotal Hneeded. unfold Pool.find_contiguous_blocks.
  unfold Pool.BLOCKS_PER_BITMAP, Pool.POOL_BLOCK_COUNT in *.
  destruct (Z.gtb_spec bitmap_size (SIZE_MAX / 64)) as [Hbig|_].
  { assert (1024 < SIZE_MAX / 64) by (vm_compute; reflexivity). lia. }
  destruct (Z.gtb_spec (bitmap_size * 64) 1024) as [Hbig|_]; [lia|].
  pose proof (scan_blocks_spec (Z.to_nat (bitmap_size * 64)) bitmap needed 0 0
                Hneeded ltac:(lia) ltac:(lia)) as Hscan.
  rewrite Z2Nat.id in Hscan by lia. simpl in Hscan.
  apply Hscan.
  - intros k Hk. lia.
  - left. reflexivity.
  - intros s Hs Hle. lia.
Qed.

(** C3. For a bitmap of [bitmap_size] words covering at most
    [POOL_BLOCK_COUNT] blocks and a request of at least one block,
    [find_contiguous_blocks] succeeds exactly when some run of
    [blocks_needed] consecutive free blocks lies within the first
    [bitmap_size * 64] blocks, and the start it reports is the lowest start
    of such a run; the check [i < blocks_needed - 1] never rejects one. *)
Theorem find_contiguous_blocks_first_fit (bitmap : list Z)
    (bitmap_size needed : Z) :
  Z.of_nat (length bitmap) = bitmap_size ->
  bitmap_size * Pool.BLOCKS_PER_BITMAP <= Pool.POOL_BLOCK_COUNT ->
  1 <= needed <= SIZE_MAX ->
  ((exists s, 0 <= s
              /\ s + needed <= bitmap_size * Pool.BLOCKS_PER_BITMAP
              /\ free_run bitmap s needed)
   <-> exists start,
        Pool.find_contiguous_blocks bitmap bitmap_size needed = Some start)
  /\ forall start,
      Pool.find_contiguous_blocks bitmap bitmap_size needed = Some start ->
      0 <= start
      /\ start + needed <= bitmap_size * Pool.BLOCKS_PER_BITMAP
      /\ free_run bitmap start needed
      /\ forall s', 0 <= s' < start -> ~ free_run bitmap s' needed.
Proof.
  intros Hlen Htotal Hneeded.
  pose proof (find_contiguous_blocks_spec bitmap bitmap_size needed
                ltac:(lia) Htotal Hneeded) as Hspec.
  destruct (Pool.find_contiguous_blocks bitmap bitmap_size needed) as [s0|].
  - destruct Hspec as (H1 & H2 & H3 & H4). split.
    + split; [intros _; exists s0; reflexivity|].
      intros _. exists s0. auto.
    + intros start Hst. inversion Hst; subst. auto.
  - split.
    + split.
      * intros (s & Hs & Hle & Hfr). exfalso. exact (Hspec s Hs Hle Hfr).
      * intros [start Hst]. discriminate.
    + intros start Hst. discriminate.
Qed.

(** C3 at work: blocks 0 and 2 are in use, so the lowest run of three free
    blocks starts at block 3. *)
Lemma find_contiguous_blocks_first_fit_witness :
  Pool.find_contiguous_blocks [5; 0] 2 3 = Some 3
  /\ (0 <= 3 /\ 3 + 3 <= 2 * Pool.BLOCKS_PER_BITMAP
      /\ free_run [5; 0] 3 3
      /\ forall s', 0 <= s' < 3 -> ~ free_run [5; 0] s' 3).
Proof.
  split; [reflexivity|].
  apply (find_contiguous_blocks_first_fit [5; 0] 2 3).
  - reflexivity.
  - vm_compute. congruence.
  - unfold SIZE_MAX. lia.
  - reflexivity.
Defined.

(** ** Pool memory *)

Lemma clear_bytes_spec (n : nat) (p : Z) (m : Pool.memory) (a : Z) :
  Pool.clear_bytes n p m a
  = if (p <=? a) && (a <? p + Z.of_nat n) then 0 else m a.
Proof.
  revert p m. induction n as [|n IH]; intros p m.
  - simpl. destruct (Z.leb_spec p a), (Z.ltb_spec a (p + Z.of_nat 0));
      simpl; try reflexivity; lia.
  - cbn [Pool.clear_bytes]. rewrite IH. unfold Pool.store_byte.
    destruct (Z.eqb_spec a p) as [->|Hne].
    + destruct (Z.leb_spec (p + 1) p), (Z.ltb_spec p (p + 1 + Z.of_nat n)),
        (Z.leb_spec p p), (Z.ltb_spec p (p + Z.of_nat (S n)));
        simpl; try reflexivity; lia.
    + destruct (Z.leb_spec (p + 1) a), (Z.ltb_spec a (p + 1 + Z.of_nat n)),
        (Z.leb_spec p a), (Z.ltb_spec a (p + Z.of_nat (S n)));
        simpl; try reflexivity; lia.
Qed.

Lemma secure_clear_memory_outside (m : Pool.memory) (mem size a : Z) :
  a < mem \/ mem + size <= a ->
  Pool.secure_clear_memory m mem size a = m a.
Proof.
  intros Hout. unfold Pool.secure_clear_memory.
  destruct ((mem =? 0) || (size =? 0)
            || (size >? Pool.POOL_BLOCK_SIZE * Pool.POOL_BLOCK_COUNT));
    [reflexivity|].
  rewrite clear_bytes_spec.
  destruct (Z.leb_spec mem a), (Z.ltb_spec a (mem + Z.of_nat (Z.to_nat size)));
    simpl; try reflexivity; lia.
Qed.

Lemma load_size_t_ext (m1 m2 : Pool.memory) (a : Z) :
  (forall k, 0 <= k < 8 -> m1 (a + k) = m2 (a + k)) ->
  Pool.load_size_t m1 a = Pool.load_size_t m2 a.
Proof.
  intros H. unfold Pool.load_size_t, Pool.load_byte. cbn [fold_right seq].
  rewrite !H by lia. reflexivity.
Qed.

Lemma load_size_t_range (m : Pool.memory) (a : Z) :
  0 <= Pool.load_size_t m a < 2 ^ 64.
Proof.
  unfold Pool.load_size_t, Pool.load_byte. cbn [fold_right seq].
  repeat match goal with
         | |- context [m ?x mod 256] =>
             let H := fresh "Hb" in
             pose proof (Z.mod_pos_bound (m x) 256 ltac:(lia)) as H;
             generalize dependent (m x mod 256); intros
         end.
  simpl. lia.
Qed.

Lemma load_store_size_t (m : Pool.memory) (a v : Z) :
  0 <= v < 2 ^ 64 -> Pool.load_size_t (Pool.store_size_t m a v) a = v.
Proof.
  intros Hv. unfold Pool.load_size_t, Pool.store_size_t, Pool.load_byte.
  cbn [fold_right fold_left seq]. unfold Pool.store_byte.
  repeat match goal with
         | |- context [?x =? ?y] =>
             destruct (Z.eqb_spec x y); try lia
         end.
  rewrite !Zmod_mod. simpl Z.of_nat. simpl (256 ^ _).
  Z.div_mod_to_equations. lia.
Qed.


(** ** Pool operations *)

Lemma metrics_roundtrip (c : Z) :
  0 <= c < 2 ^ 64 -> wrap_fast32 (wrap_fast32 (c + 1) - 1) = c.
Proof.
  intros Hc. unfold wrap_fast32.
  destruct (Z.eq_dec c (2 ^ 64 - 1)) as [->|Hne]; [reflexivity|].
  rewrite (Z.mod_small (c + 1)) by lia.
  replace (c + 1 - 1) with c by lia. apply Z.mod_small. lia.
Qed.

Lemma blocks_needed_range (size : Z) :
  0 <= size -> Pool.blocks_needed size <> 0 ->
  1 <= Pool.blocks_needed size <= 1024.
Proof.
  unfold Pool.blocks_needed, Pool.POOL_BLOCK_COUNT, Pool.POOL_METADATA_SIZE,
    Pool.POOL_BLOCK_SIZE.
  intros Hs H.
  destruct (size >? SIZE_MAX - 8); [congruence|].
  destruct (size + 8 >? SIZE_MAX - (256 - 1)); [congruence|].
  destruct (Z.eqb_spec ((size + 8 + 256 - 1) / 256) 0);
    simpl in *; [congruence|].
  destruct (Z.gtb_spec ((size + 8 + 256 - 1) / 256) 1024); [congruence|].
  split; [|assumption].
  assert (0 <= (size + 8 + 256 - 1) / 256) by (apply Z.div_pos; lia). lia.
Qed.

Lemma set_error_status_data {D : Type} (self : Strategy.MemoryStrategy D)
    (sc : schedule) :
  Strategy.strategy_data (fst (Strategy.set_error_status self sc))
  = Strategy.strategy_data self.
Proof.
  unfold Strategy.set_error_status, bind.
  destruct (Status.transition_status (Strategy.status_tracker self)
              Status.STRATEGY_STATE_ERROR sc) as [[r t] sc'].
  reflexivity.
Qed.

Lemma validate_allocation_size {D : Type} (self : Strategy.MemoryStrategy D)
    (size : Z) :
  Strategy.validate_allocation (Some self) size = true ->
  Strategy.validate_state self = true /\ 0 < size <= SIZE_MAX / 2.
Proof.
  unfold Strategy.validate_allocation, Strategy.validate_size.
  intros H. apply andb_prop in H. destruct H as [Hs H].
  apply andb_prop in H. destruct H as [H1 H2].
  split; [exact Hs|]. split; [apply Z.gtb_lt in H1; lia | apply Z.leb_le; exact H2].
Qed.

Lemma find_contiguous_blocks_some (bitmap : list Z) (bitmap_size needed : Z)
    (start : Z) :
  Pool.find_contiguous_blocks bitmap bitmap_size needed = Some start ->
  0 <= bitmap_size -> 1 <= needed <= SIZE_MAX ->
  bitmap_size * Pool.BLOCKS_PER_BITMAP <= Pool.POOL_BLOCK_COUNT
  /\ 0 <= start
  /\ start + needed <= bitmap_size * Pool.BLOCKS_PER_BITMAP
  /\ free_run bitmap start needed
  /\ forall s', 0 <= s' < start -> ~ free_run bitmap s' needed.
Proof.
  intros Hfind Hsize Hneeded.
  assert (Htotal : bitmap_size * Pool.BLOCKS_PER_BITMAP
                   <= Pool.POOL_BLOCK_COUNT).
  { unfold Pool.find_contiguous_blocks in Hfind.
    destruct (bitmap_size >? SIZE_MAX / Pool.BLOCKS_PER_BITMAP);
      [discriminate|].
    destruct (Z.gtb_spec (bitmap_size * Pool.BLOCKS_PER_BITMAP)
                Pool.POOL_BLOCK_COUNT); [discriminate | assumption]. }
  split; [exact Htotal|].
  pose proof (find_contiguous_blocks_spec bitmap bitmap_size needed Hsize
                Htotal Hneeded) as Hspec.
  rewrite Hfind in Hspec. exact Hspec.
Qed.

Lemma pool_allocate_inv (self : Pool.pool_strategy) (size : Z) (sc : schedule)
    (p : Z) (self1 : Pool.pool_strategy) (sc1 : schedule)
    (pool : Pool.MemoryPool) :
  Strategy.strategy_data self = Some pool -> pool_wf pool ->
  Pool.pool_allocate self size sc = (p, self1, sc1) -> p <> 0 ->
  exists bitmap start,
    Pool.block_bitmap pool = Some bitmap
    /\ Strategy.validate_state self = true
    /\ 0 < size <= SIZE_MAX / 2
    /\ wrap32 (Pool.concurrent_ops (Pool.metrics pool)) < 3
    /\ 1 <= Pool.blocks_needed size <= 1024
    /\ Pool.find_contiguous_blocks bitmap (Pool.bitmap_size pool)
         (Pool.blocks_needed size) = Some start
    /\ wrap32 (Pool.blocks_used (Pool.metrics pool))
       <= UINT32_MAX - Pool.blocks_needed size
    /\ sc1 = sc
    /\ p = Pool.pool_memory pool + start * Pool.POOL_BLOCK_SIZE
           + Pool.POOL_METADATA_SIZE
    /\ self1 = Strategy.set_strategy_data self
                 (Some (allocated_pool pool bitmap start
                          (Pool.blocks_needed size))).
Proof.
  intros Hdata Hwf H Hp.
  destruct Hwf as (Hbase & Halign & Hend & (bitmap & Hbm & Hlen & Hok) & Hbu & Hco).
  unfold Pool.pool_allocate in H.
  destruct (Strategy.validate_allocation (Some self) size) eqn:Hval;
    cbn [negb] in H; [|unfold ret in H; inversion H; subst; congruence].
  apply validate_allocation_size in Hval. destruct Hval as [Hstate Hsize].
  rewrite Hdata, Hbm in H.
  destruct (Z.eqb_spec (Pool.pool_memory pool) 0) as [Hz|_]; [lia|].
  cbv zeta in H.
  unfold Pool.MAX_ALLOCATION_RETRIES in H.
  destruct (Z.geb_spec (wrap32 (Pool.concurrent_ops (Pool.metrics pool))) 3)
    as [Hops|Hops]; [unfold ret in H; inversion H; subst; congruence|].
  destruct (Z.eqb_spec (Pool.blocks_needed size) 0) as [Hnz|Hnz];
    [unfold ret in H; inversion H; subst; congruence|].
  pose proof (blocks_needed_range size ltac:(lia) Hnz) as Hneeded.
  cbn [Pool.bitmap_size Pool.set_metrics] in H.
  destruct (Pool.find_contiguous_blocks bitmap (Pool.bitmap_size pool)
              (Pool.blocks_needed size)) as [start|] eqn:Hfind;
    [|unfold ret in H; inversion H; subst; congruence].
  destruct (find_contiguous_blocks_some bitmap (Pool.bitmap_size pool)
              (Pool.blocks_needed size) start Hfind ltac:(lia)
              ltac:(unfold SIZE_MAX; lia))
    as (Htotal & Hs0 & Hs1 & Hrun & _).
  unfold Pool.BLOCKS_PER_BITMAP, Pool.POOL_BLOCK_COUNT in Htotal, Hs1.
  unfold Pool.set_bitmap, Pool.set_metrics, Pool.set_heap, Pool.enter_op,
    Pool.leave_op in H.
  cbn [Pool.blocks_used Pool.total_allocations Pool.failed_allocations
       Pool.concurrent_ops Pool.metrics Pool.pool_memory Pool.heap
       Pool.block_bitmap Pool.bitmap_size Pool.thread_count
       Pool.initialization_flag] in H.
  assert (Hguard : wrap64 (UINT32_MAX - Pool.blocks_needed size)
                   = UINT32_MAX - Pool.blocks_needed size)
    by (apply wrap64_small; unfold UINT32_MAX, SIZE_MAX; lia).
  rewrite Hguard in H.
  destruct (Z.gtb_spec (wrap32 (Pool.blocks_used (Pool.metrics pool)))
              (UINT32_MAX - Pool.blocks_needed size)) as [Hover|Hfit];
    [unfold ret in H; inversion H; subst; congruence|].
  unfold Pool.POOL_BLOCK_SIZE, Pool.POOL_BLOCK_COUNT, Pool.POOL_METADATA_SIZE
    in *.
  assert (Hw1 : wrap64 (start * 256) = start * 256)
    by (apply wrap64_small; unfold SIZE_MAX; lia).
  assert (Hw2 : wrap64 (Pool.pool_memory pool + start * 256)
                = Pool.pool_memory pool + start * 256)
    by (apply wrap64_small; unfold SIZE_MAX in *; lia).
  assert (Hw3 : wrap64 (Pool.pool_memory pool + start * 256 + 8)
                = Pool.pool_memory pool + start * 256 + 8)
    by (apply wrap64_small; unfold SIZE_MAX in *; lia).
  assert (Hw4 : wrap64 (Pool.blocks_needed size * 256)
                = Pool.blocks_needed size * 256)
    by (apply wrap64_small; unfold SIZE_MAX; lia).
  assert (Hw5 : wrap64 (Pool.blocks_needed size * 256 - 8)
                = Pool.blocks_needed size * 256 - 8)
    by (apply wrap64_small; unfold SIZE_MAX; lia).
  assert (Hw6 : wrap_fast32 (Pool.blocks_used (Pool.metrics pool)
                             + Pool.blocks_needed size)
                = Pool.blocks_used (Pool.metrics pool)
                  + Pool.blocks_needed size).
  { unfold wrap_fast32. apply Z.mod_small.
    unfold wrap32, UINT32_MAX in Hfit.
    pose proof (Z.div_mod (Pool.blocks_used (Pool.metrics pool)) (2 ^ 32)
                  ltac:(lia)).
    pose proof (Z.mod_pos_bound (Pool.blocks_used (Pool.metrics pool))
                  (2 ^ 32) ltac:(lia)).
    assert (Pool.blocks_used (Pool.metrics pool) / 2 ^ 32 < 2 ^ 32)
      by (apply Z.div_lt_upper_bound; lia).
    lia. }
  rewrite Hw1, Hw2, Hw3, Hw4, Hw5, Hw6, (metrics_roundtrip _ Hco) in H.
  unfold ret in H. inversion H; subst p self1 sc1.
  exists bitmap, start. repeat split; try assumption; try lia.
Qed.

Lemma leave_enter (pool : Pool.MemoryPool) :
  0 <= Pool.concurrent_ops (Pool.metrics pool) < 2 ^ 64 ->
  Pool.set_metrics (Pool.set_metrics pool (Pool.enter_op (Pool.metrics pool)))
    (Pool.leave_op
       (Pool.metrics
          (Pool.set_metrics pool (Pool.enter_op (Pool.metrics pool)))))
  = pool.
Proof.
  intros Hc. destruct pool as [base h bm bs tc fl [bu ta fa co]].
  unfold Pool.set_metrics, Pool.enter_op, Pool.leave_op. simpl in *.
  rewrite (metrics_roundtrip _ Hc). reflexivity.
Qed.

Lemma validate_deallocation_ptr {D : Type} (self : Strategy.MemoryStrategy D)
    (ptr : Z) :
  Strategy.validate_deallocation (Some self) ptr = true ->
  Strategy.validate_state self = true /\ ptr <> 0 /\ ptr mod 8 = 0.
Proof.
  unfold Strategy.validate_deallocation, Strategy.validate_pointer.
  intros H. apply andb_prop in H. destruct H as [Hs H].
  apply andb_prop in H. destruct H as [H1 H2].
  split; [exact Hs|]. split.
  - destruct (Z.eqb_spec ptr 0); [discriminate | assumption].
  - apply Z.eqb_eq. exact H2.
Qed.

Lemma header_address_nowrap (ptr : Z) :
  0 <= ptr <= SIZE_MAX -> ptr <> 0 -> ptr mod 8 = 0 ->
  wrap64 (ptr - Pool.POOL_METADATA_SIZE) = ptr - Pool.POOL_METADATA_SIZE.
Proof.
  intros Hr Hnz Hal. unfold Pool.POOL_METADATA_SIZE.
  apply wrap64_small.
  pose proof (Z.div_mod ptr 8 ltac:(lia)). unfold SIZE_MAX in *. lia.
Qed.

Lemma is_ptr_in_pool_range_spec (ptr base size : Z) :
  Pool.is_ptr_in_pool_range ptr base size = true ->
  base <= ptr < base + size.
Proof.
  unfold Pool.is_ptr_in_pool_range.
  destruct (size >? SIZE_MAX - base); [discriminate|].
  intros H. apply negb_true_iff in H.
  apply orb_false_elim in H. destruct H as [H H3].
  apply orb_false_elim in H. destruct H as [H1 H2].
  apply Z.ltb_ge in H2. rewrite Z.geb_leb in H3. apply Z.leb_gt in H3. lia.
Qed.

(** ** C10: the run header is validated before anything is changed *)

(** C10. If the [size_t] header read at the block start is 0, or the block
    index plus the header exceeds [POOL_BLOCK_COUNT], [pool_deallocate]
    returns without clearing any memory, without changing the bitmap and
    without changing [blocks_used]. *)
Theorem pool_deallocate_header_guard (self : Pool.pool_strategy) (ptr : Z)
    (sc : schedule) (pool : Pool.MemoryPool) :
  Strategy.strategy_data self = Some pool ->
  0 <= ptr <= SIZE_MAX ->
  (let header :=
     Pool.load_size_t (Pool.heap pool) (ptr - Pool.POOL_METADATA_SIZE) in
   let block_index :=
     (ptr - Pool.POOL_METADATA_SIZE - Pool.pool_memory pool)
     / Pool.POOL_BLOCK_SIZE in
   header = 0 \/ block_index + header > Pool.POOL_BLOCK_COUNT) ->
  exists pool',
    Strategy.strategy_data (fst (Pool.pool_deallocate self ptr sc))
    = Some pool'
    /\ Pool.heap pool' = Pool.heap pool
    /\ Pool.block_bitmap pool' = Pool.block_bitmap pool
    /\ Pool.blocks_used (Pool.metrics pool')
       = Pool.blocks_used (Pool.metrics pool).
Proof.
  intros Hdata Hptr Hheader. cbv zeta in Hheader.
  unfold Pool.pool_deallocate.
  destruct (Strategy.validate_deallocation (Some self) ptr) eqn:Hval;
    cbn [negb]; [|exists pool; cbn [fst ret]; auto].
  apply validate_deallocation_ptr in Hval.
  destruct Hval as (Hstate & Hnz & Hal).
  rewrite Hdata.
  destruct (Pool.block_bitmap pool) as [bitmap|] eqn:Hbm;
    [|exists pool; rewrite set_error_status_data; auto].
  destruct (Pool.pool_memory pool =? 0);
    [exists pool; rewrite set_error_status_data; auto|].
  cbv zeta.
  rewrite (header_address_nowrap ptr Hptr Hnz Hal).
  unfold Pool.set_metrics, Pool.set_bitmap, Pool.set_heap, Pool.enter_op,
    Pool.leave_op.
  cbn [Pool.blocks_used Pool.total_allocations Pool.failed_allocations
       Pool.concurrent_ops Pool.metrics Pool.pool_memory Pool.heap
       Pool.block_bitmap Pool.bitmap_size Pool.thread_count
       Pool.initialization_flag].
  destruct (_ >=? Pool.MAX_ALLOCATION_RETRIES);
    [eexists; split; [reflexivity | auto]|].
  destruct (Pool.is_ptr_in_pool_range _ _ _) eqn:Hin; cbn [negb];
    [|eexists; split; [reflexivity | auto]].
  apply is_ptr_in_pool_range_spec in Hin.
  destruct (Pool.is_block_used _ _) eqn:Hused; cbn [negb];
    [|eexists; split; [reflexivity | auto]].
  set (header := Pool.load_size_t (Pool.heap pool)
                   (ptr - Pool.POOL_METADATA_SIZE)) in *.
  set (block_index := (ptr - Pool.POOL_METADATA_SIZE - Pool.pool_memory pool)
                      / Pool.POOL_BLOCK_SIZE) in *.
  destruct (Z.eqb_spec header 0) as [Hz|Hnzh]; cbn [orb];
    [eexists; split; [reflexivity | auto]|].
  destruct (Z.gtb_spec (wrap64 (block_index + header)) Pool.POOL_BLOCK_COUNT)
    as [Hbig|Hsmall]; [eexists; split; [reflexivity | auto]|].
  destruct Hheader as [Hz|Hover]; [contradiction|].
  pose proof (load_size_t_range (Pool.heap pool)
                (ptr - Pool.POOL_METADATA_SIZE)) as Hhr.
  fold header in Hhr.
  unfold Pool.POOL_BLOCK_SIZE, Pool.POOL_BLOCK_COUNT, Pool.POOL_METADATA_SIZE
    in *.
  assert (Hbi : 0 <= block_index < 1024).
  { subst block_index. split; [apply Z.div_pos; lia|].
    apply Z.div_lt_upper_bound; lia. }
  assert (Hhuge : 2 ^ 64 - 1024 < header).
  { destruct (Z.lt_ge_cases (block_index + header) (2 ^ 64)) as [Hlt|Hge];
      [|lia].
    rewrite wrap64_small in Hsmall by (unfold SIZE_MAX; lia). lia. }
  assert (Hclear : wrap64 (header * 256) > 256 * 1024).
  { unfold wrap64.
    replace (header * 256) with ((header * 256 - 255 * 2 ^ 64) + 255 * 2 ^ 64)
      by lia.
    rewrite Z.mod_add by lia. rewrite Z.mod_small by lia. lia. }
  eexists. split; [reflexivity|].
  cbn [Pool.heap Pool.block_bitmap Pool.metrics Pool.blocks_used].
  split; [|split].
  - unfold Pool.secure_clear_memory.
    unfold Pool.POOL_BLOCK_SIZE, Pool.POOL_BLOCK_COUNT.
    destruct (Z.gtb_spec (wrap64 (header * 256)) (256 * 1024)); [|lia].
    rewrite !orb_true_r. reflexivity.
  - unfold Pool.mark_blocks. unfold Pool.POOL_BLOCK_COUNT.
    destruct (Z.gtb_spec header 1024); [|lia].
    rewrite orb_true_r. reflexivity.
  - pose proof (Z.mod_pos_bound (Pool.blocks_used (Pool.metrics pool))
                  (2 ^ 32) ltac:(lia)) as Hcb.
    unfold wrap32.
    destruct (Z.geb_spec (Pool.blocks_used (Pool.metrics pool) mod 2 ^ 32)
                header); [lia | reflexivity].
Qed.

Lemma is_ptr_in_pool_range_true (ptr base size : Z) :
  0 < size -> base + size <= SIZE_MAX -> base <= ptr < base + size ->
  Pool.is_ptr_in_pool_range ptr base size = true.
Proof.
  intros Hs He Hp. unfold Pool.is_ptr_in_pool_range.
  destruct (Z.gtb_spec size (SIZE_MAX - base)); [lia|].
  destruct (Z.leb_spec (base + size) base); [lia|].
  destruct (Z.ltb_spec ptr base); [lia|].
  destruct (Z.geb_spec ptr (base + size)); [lia|]. reflexivity.
Qed.

Lemma is_block_used_testbit (bitmap : list Z) (k : Z) :
  0 <= k < Pool.POOL_BLOCK_COUNT ->
  Pool.is_block_used (Some bitmap) k
  = Z.testbit (Pool.word_at bitmap (k / 64)) (k mod 64).
Proof.
  intros Hk. unfold Pool.is_block_used, Pool.BLOCKS_PER_BITMAP.
  destruct (Z.geb_spec k Pool.POOL_BLOCK_COUNT); [lia|].
  rewrite land_bit_mask_eqb by (apply block_index_bounds; lia).
  apply negb_involutive.
Qed.

Lemma mark_blocks_spec (bitmap : list Z) (start n : Z) (used : bool) :
  bitmap_ok bitmap -> 0 <= start -> 1 <= n ->
  start + n <= 64 * Z.of_nat (length bitmap) ->
  start + n <= Pool.POOL_BLOCK_COUNT ->
  length (Pool.mark_blocks bitmap start n used) = length bitmap
  /\ bitmap_ok (Pool.mark_blocks bitmap start n used)
  /\ forall k, 0 <= k ->
       Z.testbit (Pool.word_at (Pool.mark_blocks bitmap start n used) (k / 64))
                 (k mod 64)
       = if (start <=? k) && (k <? start + n) then used
         else Z.testbit (Pool.word_at bitmap (k / 64)) (k mod 64).
Proof.
  intros Hok Hs Hn Hlen Hcount. unfold Pool.mark_blocks.
  unfold Pool.POOL_BLOCK_COUNT in *.
  destruct (Z.geb_spec start 1024); [lia|].
  destruct (Z.eqb_spec n 0); [lia|].
  destruct (Z.gtb_spec n 1024); [lia|].
  rewrite wrap64_small by (unfold SIZE_MAX; lia).
  destruct (Z.gtb_spec (start + n) 1024); [lia|]. cbn [orb].
  pose proof (mark_loop_spec (Z.to_nat n) bitmap start used Hok Hs) as Hloop.
  rewrite Z2Nat.id in Hloop by lia. apply Hloop. exact Hlen.
Qed.

Lemma validate_state_set_data {D : Type} (self : Strategy.MemoryStrategy D)
    (d : option D) :
  Strategy.validate_state (Strategy.set_strategy_data self d)
  = Strategy.validate_state self.
Proof. reflexivity. Qed.

Lemma pool_deallocate_proper (self : Pool.pool_strategy) (ptr : Z)
    (sc : schedule) (pool : Pool.MemoryPool) (bitmap : list Z) :
  Strategy.strategy_data self = Some pool ->
  Strategy.validate_state self = true ->
  Pool.block_bitmap pool = Some bitmap ->
  0 < Pool.pool_memory pool ->
  Pool.pool_memory pool + Pool.POOL_BLOCK_SIZE * Pool.POOL_BLOCK_COUNT
  <= SIZE_MAX ->
  0 <= Pool.concurrent_ops (Pool.metrics pool) < 2 ^ 64 ->
  wrap32 (Pool.concurrent_ops (Pool.metrics pool)) < 3 ->
  ptr <= SIZE_MAX -> ptr mod 8 = 0 ->
  Pool.pool_memory pool <= ptr - 8
  < Pool.pool_memory pool + Pool.POOL_BLOCK_SIZE * Pool.POOL_BLOCK_COUNT ->
  Pool.is_block_used (Some bitmap) ((ptr - 8 - Pool.pool_memory pool) / 256)
  = true ->
  Pool.load_size_t (Pool.heap pool) (ptr - 8) <> 0 ->
  (ptr - 8 - Pool.pool_memory pool) / 256
  + Pool.load_size_t (Pool.heap pool) (ptr - 8) <= 1024 ->
  Pool.pool_deallocate self ptr sc
  = (Strategy.set_strategy_data self
       (Some
          (Pool.mkPool (Pool.pool_memory pool)
             (Pool.secure_clear_memory (Pool.heap pool) (ptr - 8)
                (Pool.load_size_t (Pool.heap pool) (ptr - 8) * 256))
             (Some
                (Pool.mark_blocks bitmap
                   ((ptr - 8 - Pool.pool_memory pool) / 256)
                   (Pool.load_size_t (Pool.heap pool) (ptr - 8)) false))
             (Pool.bitmap_size pool) (Pool.thread_count pool)
             (Pool.initialization_flag pool)
             (Pool.mkMetrics
                (if wrap32 (Pool.blocks_used (Pool.metrics pool))
                    >=? Pool.load_size_t (Pool.heap pool) (ptr - 8)
                 then wrap_fast32
                        (Pool.blocks_used (Pool.metrics pool)
                         - Pool.load_size_t (Pool.heap pool) (ptr - 8))
                 else Pool.blocks_used (Pool.metrics pool))
                (Pool.total_allocations (Pool.metrics pool))
                (Pool.failed_allocations (Pool.metrics pool))
                (Pool.concurrent_ops (Pool.metrics pool))))),
     sc).
Proof.
  intros Hdata Hstate Hbm Hbase Hend Hco Hops Hmax Hal Hin Hused Hnz Hfit.
  unfold Pool.POOL_BLOCK_SIZE, Pool.POOL_BLOCK_COUNT in *.
  assert (Hptr : 0 <= ptr <= SIZE_MAX) by lia.
  assert (Hpnz : ptr <> 0) by lia.
  unfold Pool.pool_deallocate.
  unfold Strategy.validate_deallocation, Strategy.validate_pointer.
  rewrite Hstate. destruct (Z.eqb_spec ptr 0); [lia|].
  rewrite Hal. cbn [negb andb Z.eqb]. rewrite Hdata, Hbm.
  destruct (Z.eqb_spec (Pool.pool_memory pool) 0); [lia|].
  cbv zeta.
  rewrite (header_address_nowrap ptr Hptr Hpnz Hal).
  unfold Pool.set_metrics, Pool.set_bitmap, Pool.set_heap, Pool.enter_op,
    Pool.leave_op.
  cbn [Pool.blocks_used Pool.total_allocations Pool.failed_allocations
       Pool.concurrent_ops Pool.metrics Pool.pool_memory Pool.heap
       Pool.block_bitmap Pool.bitmap_size Pool.thread_count
       Pool.initialization_flag].
  unfold Pool.MAX_ALLOCATION_RETRIES, Pool.POOL_METADATA_SIZE,
    Pool.POOL_BLOCK_SIZE, Pool.POOL_BLOCK_COUNT.
  destruct (Z.geb_spec (wrap32 (Pool.concurrent_ops (Pool.metrics pool))) 3);
    [lia|].
  rewrite is_ptr_in_pool_range_true by lia. cbn [negb].
  rewrite Hused. cbn [negb].
  destruct (Z.eqb_spec (Pool.load_size_t (Pool.heap pool) (ptr - 8)) 0);
    [contradiction|].
  pose proof (load_size_t_range (Pool.heap pool) (ptr - 8)) as Hhr.
  assert (Hbi : 0 <= (ptr - 8 - Pool.pool_memory pool) / 256)
    by (apply Z.div_pos; lia).
  rewrite (wrap64_small ((ptr - 8 - Pool.pool_memory pool) / 256
                         + Pool.load_size_t (Pool.heap pool) (ptr - 8)))
    by (unfold SIZE_MAX; lia).
  destruct (Z.gtb_spec ((ptr - 8 - Pool.pool_memory pool) / 256
                        + Pool.load_size_t (Pool.heap pool) (ptr - 8)) 1024);
    [lia|].
  cbn [orb].
  rewrite (wrap64_small (Pool.load_size_t (Pool.heap pool) (ptr - 8) * 256))
    by (unfold SIZE_MAX; lia).
  destruct (wrap32 (Pool.blocks_used (Pool.metrics pool))
            >=? Pool.load_size_t (Pool.heap pool) (ptr - 8));
    cbn [Pool.blocks_used Pool.total_allocations Pool.failed_allocations
         Pool.concurrent_ops];
    rewrite (metrics_roundtrip _ Hco); reflexivity.
Qed.

(** ** C2: allocate then deallocate restores the bitmap and [blocks_used] *)

(** C2. When [pool_allocate] succeeds on a well-formed pool, returning a
    non-null [p]: the [size_t] header [POOL_METADATA_SIZE] bytes before [p]
    holds [blocks_needed size], which is exactly the number of blocks the
    allocation marked used, a run of blocks that were free, and
    [blocks_used] has grown by that number; an immediately following
    [pool_deallocate] of [p] restores the bitmap and [blocks_used] to
    their values before the allocation. *)
Theorem pool_allocate_deallocate_round_trip (self : Pool.pool_strategy)
    (size : Z) (sc : schedule) (p : Z) (self1 : Pool.pool_strategy)
    (sc1 : schedule) (pool : Pool.MemoryPool) :
  Strategy.strategy_data self = Some pool -> pool_wf pool ->
  Pool.pool_allocate self size sc = (p, self1, sc1) -> p <> 0 ->
  exists pool1 bitmap bitmap1 start,
    Strategy.strategy_data self1 = Some pool1
    /\ Pool.block_bitmap pool = Some bitmap
    /\ Pool.block_bitmap pool1 = Some bitmap1
    /\ p - Pool.POOL_METADATA_SIZE
       = Pool.pool_memory pool + start * Pool.POOL_BLOCK_SIZE
    /\ Pool.load_size_t (Pool.heap pool1) (p - Pool.POOL_METADATA_SIZE)
       = Pool.blocks_needed size
    /\ 1 <= Pool.blocks_needed size
    /\ 0 <= start
    /\ start + Pool.blocks_needed size <= Pool.POOL_BLOCK_COUNT
    /\ free_run bitmap start (Pool.blocks_needed size)
    /\ (forall k, 0 <= k < Pool.POOL_BLOCK_COUNT ->
          Pool.is_block_used (Some bitmap1) k
          = (start <=? k) && (k <? start + Pool.blocks_needed size)
            || Pool.is_block_used (Some bitmap) k)
    /\ Pool.blocks_used (Pool.metrics pool1)
       = Pool.blocks_used (Pool.metrics pool) + Pool.blocks_needed size
    /\ forall sc2,
        exists pool2,
          Strategy.strategy_data (fst (Pool.pool_deallocate self1 p sc2))
          = Some pool2
          /\ Pool.block_bitmap pool2 = Some bitmap
          /\ Pool.blocks_used (Pool.metrics pool2)
             = Pool.blocks_used (Pool.metrics pool).
Proof.
  intros Hdata Hwf Halloc Hp.
  destruct (pool_allocate_inv self size sc p self1 sc1 pool Hdata Hwf Halloc Hp)
    as (bitmap & start & Hbm & Hstate & Hsize & Hops & Hneeded & Hfind & Hfit
        & _ & Hptr & Hself1).
  destruct Hwf as (Hbase & Halign & Hend & (bitmap' & Hbm' & Hlen & Hok)
                   & Hbu & Hco).
  rewrite Hbm in Hbm'. inversion Hbm'; subst bitmap'. clear Hbm'.
  destruct (find_contiguous_blocks_some bitmap (Pool.bitmap_size pool)
              (Pool.blocks_needed size) start Hfind ltac:(lia)
              ltac:(unfold SIZE_MAX; lia))
    as (Htotal & Hs0 & Hs1 & Hrun & _).
  set (needed := Pool.blocks_needed size) in *.
  unfold Pool.BLOCKS_PER_BITMAP, Pool.POOL_BLOCK_COUNT, Pool.POOL_BLOCK_SIZE,
    Pool.POOL_METADATA_SIZE in *.
  destruct (mark_blocks_spec bitmap start needed true Hok Hs0 ltac:(lia)
              ltac:(lia) ltac:(unfold Pool.POOL_BLOCK_COUNT; lia))
    as (Hlen1 & Hok1 & Hbits1).
  set (bitmap1 := Pool.mark_blocks bitmap start needed true) in *.
  assert (Hhdr : Pool.load_size_t
                   (Pool.heap (allocated_pool pool bitmap start needed))
                   (Pool.pool_memory pool + start * 256) = needed).
  { unfold allocated_pool. cbn [Pool.heap].
    unfold Pool.POOL_BLOCK_SIZE, Pool.POOL_METADATA_SIZE.
    rewrite (load_size_t_ext _
               (Pool.store_size_t (Pool.heap pool)
                  (Pool.pool_memory pool + start * 256) needed)).
    - apply load_store_size_t. lia.
    - intros k Hk. apply secure_clear_memory_outside. lia. }
  assert (Hused1 : forall k, 0 <= k < 1024 ->
            Pool.is_block_used (Some bitmap1) k
            = (start <=? k) && (k <? start + needed)
              || Pool.is_block_used (Some bitmap) k).
  { intros k Hk.
    rewrite !is_block_used_testbit by (unfold Pool.POOL_BLOCK_COUNT; lia).
    rewrite Hbits1 by lia.
    destruct ((start <=? k) && (k <? start + needed)); reflexivity. }
  assert (Hpm : Pool.pool_memory (allocated_pool pool bitmap start needed)
                = Pool.pool_memory pool) by reflexivity.
  assert (Hbm1 : Pool.block_bitmap (allocated_pool pool bitmap start needed)
                 = Some bitmap1) by reflexivity.
  assert (Hbu1 : Pool.blocks_used
                   (Pool.metrics (allocated_pool pool bitmap start needed))
                 = Pool.blocks_used (Pool.metrics pool) + needed)
    by reflexivity.
  assert (Hco1 : Pool.concurrent_ops
                   (Pool.metrics (allocated_pool pool bitmap start needed))
                 = Pool.concurrent_ops (Pool.metrics pool)) by reflexivity.
  remember (allocated_pool pool bitmap start needed) as pool1 eqn:Hpool1.
  clear Hpool1.
  exists pool1, bitmap, bitmap1, start.
  split; [rewrite Hself1; reflexivity|].
  split; [exact Hbm|]. split; [exact Hbm1|].
  split; [lia|]. split; [rewrite Hptr;
    replace (Pool.pool_memory pool + start * 256 + 8 - 8)
      with (Pool.pool_memory pool + start * 256) by lia; exact Hhdr|].
  split; [lia|]. split; [exact Hs0|]. split; [lia|]. split; [exact Hrun|].
  split; [exact Hused1|]. split; [exact Hbu1|].
  intros sc2.
  assert (Hp8 : p - 8 = Pool.pool_memory pool + start * 256) by lia.
  assert (Hidx : (p - 8 - Pool.pool_memory pool) / 256 = start).
  { rewrite Hp8.
    replace (Pool.pool_memory pool + start * 256 - Pool.pool_memory pool)
      with (start * 256) by lia.
    apply Z.div_mul. lia. }
  rewrite Hself1.
  rewrite (pool_deallocate_proper _ p sc2 pool1 bitmap1);
    rewrite ?Hpm, ?Hco1, ?Hidx, ?Hp8, ?Hhdr, ?Hbu1.
  - cbn [fst Strategy.set_strategy_data Strategy.strategy_data].
    eexists. split; [reflexivity|].
    cbn [Pool.block_bitmap Pool.metrics Pool.blocks_used].
    split.
    + f_equal.
      destruct (mark_blocks_spec bitmap1 start needed false Hok1 Hs0
                  ltac:(lia) ltac:(rewrite Hlen1; lia)
                  ltac:(unfold Pool.POOL_BLOCK_COUNT; lia))
        as (Hlen2 & Hok2 & Hbits2).
      apply bitmap_ext; [congruence | exact Hok2 | exact Hok |].
      intros k Hk. rewrite Hbits2, Hbits1 by lia.
      destruct ((start <=? k) && (k <? start + needed)) eqn:Hin;
        [|reflexivity].
      apply andb_prop in Hin. destruct Hin as [H1 H2].
      apply Z.leb_le in H1. apply Z.ltb_lt in H2.
      specialize (Hrun k ltac:(lia)).
      rewrite block_free_testbit in Hrun by lia.
      apply negb_true_iff in Hrun. symmetry. exact Hrun.
    + assert (Hsum : wrap32 (Pool.blocks_used (Pool.metrics pool) + needed)
                     = wrap32 (Pool.blocks_used (Pool.metrics pool)) + needed).
      { unfold wrap32, UINT32_MAX in *.
        pose proof (Z.mod_pos_bound (Pool.blocks_used (Pool.metrics pool))
                      (2 ^ 32) ltac:(lia)).
        rewrite <- Zplus_mod_idemp_l. apply Z.mod_small. lia. }
      rewrite Hsum.
      destruct (Z.geb_spec
                  (wrap32 (Pool.blocks_used (Pool.metrics pool)) + needed)
                  needed) as [_|Hlt].
      * replace (Pool.blocks_used (Pool.metrics pool) + needed - needed)
          with (Pool.blocks_used (Pool.metrics pool)) by lia.
        unfold wrap_fast32. apply Z.mod_small. lia.
      * unfold wrap32 in Hlt.
        pose proof (Z.mod_pos_bound (Pool.blocks_used (Pool.metrics pool))
                      (2 ^ 32) ltac:(lia)). lia.
  - reflexivity.
  - rewrite validate_state_set_data. exact Hstate.
  - exact Hbm1.
  - exact Hbase.
  - exact Hend.
  - exact Hco.
  - exact Hops.
  - unfold SIZE_MAX in *. lia.
  - rewrite Hptr.
    replace (Pool.pool_memory pool + start * 256 + 8)
      with (Pool.pool_memory pool + (32 * start + 1) * 8) by lia.
    rewrite Z.mod_add by lia. exact Halign.
  - unfold Pool.POOL_BLOCK_SIZE, Pool.POOL_BLOCK_COUNT. lia.
  - rewrite Hused1 by lia.
    replace ((start <=? start) && (start <? start + needed)) with true;
      [reflexivity|].
    symmetry. apply andb_true_intro.
    split; [apply Z.leb_le | apply Z.ltb_lt]; lia.
  - lia.
  - lia.
Qed.


(** ** C7: deallocating an unknown pointer *)

Lemma bitmap_ok_replicate (n : nat) : bitmap_ok (replicate n 0).
Proof. apply Forall_replicate. lia. Qed.

Lemma last_block_pool_wf : pool_wf last_block_pool.
Proof.
  unfold pool_wf, last_block_pool.
  cbn [Pool.pool_memory Pool.block_bitmap Pool.bitmap_size Pool.metrics
       Pool.blocks_used Pool.concurrent_ops].
  unfold Pool.POOL_BLOCK_SIZE, Pool.POOL_BLOCK_COUNT, SIZE_MAX.
  split; [lia|]. split; [reflexivity|]. split; [lia|].
  split; [|lia].
  eexists. split; [reflexivity|]. split; [reflexivity|].
  apply Forall_app. split; [apply bitmap_ok_replicate|].
  repeat constructor; lia.
Qed.

(** X24. [memory_stats_update_deallocation] of a pointer that
    is not the address of any slot with [valid = 1] leaves the whole ledger
    (every counter, every slot, the history buffer) and the schedule as
    they were. [pool_deallocate] of a pointer whose header address
    [ptr - POOL_METADATA_SIZE] lies outside the pool, or lies in a block
    that is not marked used, leaves the pool (memory, bitmap and every
    metric, [concurrent_ops] included) as it was. *)
Theorem deallocate_unknown_pointer_noop :
  (forall (st : Stats.memory_stats_t) (ptr : Z) (sc : schedule),
      ledger_wf st -> ~ tracked st ptr ->
      Stats.memory_stats_update_deallocation st ptr sc = (st, sc))
  /\ (forall (self : Pool.pool_strategy) (ptr : Z) (sc : schedule)
             (pool : Pool.MemoryPool),
         Strategy.strategy_data self = Some pool ->
         0 <= ptr <= SIZE_MAX ->
         0 <= Pool.concurrent_ops (Pool.metrics pool) < 2 ^ 64 ->
         (let header_address := ptr - Pool.POOL_METADATA_SIZE in
          header_address < Pool.pool_memory pool
          \/ Pool.pool_memory pool
             + Pool.POOL_BLOCK_SIZE * Pool.POOL_BLOCK_COUNT <= header_address
          \/ Pool.is_block_used (Pool.block_bitmap pool)
               ((header_address - Pool.pool_memory pool)
                / Pool.POOL_BLOCK_SIZE) = false) ->
         Strategy.strategy_data (fst (Pool.pool_deallocate self ptr sc))
         = Some pool).
Proof.
  split.
  - intros st ptr sc Hwf Hun.
    unfold Stats.memory_stats_update_deallocation,
      Stats.find_and_remove_allocation.
    destruct (ptr =? 0); [reflexivity|].
    rewrite (find_and_remove_from_untracked _ _ st ptr Hwf Hun).
    reflexivity.
  - intros self ptr sc pool Hdata Hptr Hco Hunknown. cbv zeta in Hunknown.
    unfold Pool.pool_deallocate.
    destruct (Strategy.validate_deallocation (Some self) ptr) eqn:Hval;
      cbn [negb]; [|exact Hdata].
    apply validate_deallocation_ptr in Hval.
    destruct Hval as (Hstate & Hnz & Hal).
    rewrite Hdata.
    destruct (Pool.block_bitmap pool) as [bitmap|] eqn:Hbm;
      [|rewrite set_error_status_data; exact Hdata].
    destruct (Pool.pool_memory pool =? 0);
      [rewrite set_error_status_data; exact Hdata|].
    cbv zeta.
    rewrite (header_address_nowrap ptr Hptr Hnz Hal).
    rewrite (leave_enter pool Hco).
    destruct (_ >=? Pool.MAX_ALLOCATION_RETRIES); [reflexivity|].
    destruct (Pool.is_ptr_in_pool_range _ _ _) eqn:Hin; cbn [negb];
      [|reflexivity].
    apply is_ptr_in_pool_range_spec in Hin.
    destruct (Pool.is_block_used _ _) eqn:Hused; cbn [negb]; [|reflexivity].
    unfold Pool.set_metrics in Hin. cbn [Pool.pool_memory] in Hin.
    destruct Hunknown as [Hlow | [Hhigh | Hfree]]; [lia | lia | congruence].
Qed.

(** X24 at work: on a fresh ledger no pointer is tracked, and address 8 is
    below the arena of the example pool. *)
Lemma deallocate_unknown_pointer_noop_witness :
  Stats.memory_stats_update_deallocation Stats.memory_stats_init 4104 []
  = (Stats.memory_stats_init, [])
  /\ Strategy.strategy_data (fst (Pool.pool_deallocate last_block_strategy 8 []))
     = Some last_block_pool.
Proof.
  split.
  - apply (proj1 deallocate_unknown_pointer_noop).
    + split; [|cbn; unfold SIZE_MAX; lia].
      apply Forall_replicate. unfold slot_ok, SIZE_MAX. cbn. lia.
    + intros (i & s & Hs & Hv & _).
      apply lookup_replicate in Hs. destruct Hs as [-> _]. discriminate.
  - apply (proj2 deallocate_unknown_pointer_noop last_block_strategy 8 []
             last_block_pool).
    + reflexivity.
    + unfold SIZE_MAX. lia.
    + vm_compute. split; congruence.
    + left. vm_compute. reflexivity.
Defined.

(** C7 as stated fails for the pool: the address one past the end of the
    arena is outside the pool, yet deallocating it frees the last block,
    because the checks are made on the header address. *)
Lemma pool_deallocate_outside_pool_counterexample :
  ~ (forall (self : Pool.pool_strategy) (ptr : Z) (sc : schedule)
            (pool : Pool.MemoryPool),
        Strategy.strategy_data self = Some pool -> pool_wf pool ->
        0 <= ptr <= SIZE_MAX ->
        (ptr < Pool.pool_memory pool
         \/ Pool.pool_memory pool + Pool.POOL_BLOCK_SIZE * Pool.POOL_BLOCK_COUNT
            <= ptr) ->
        Strategy.strategy_data (fst (Pool.pool_deallocate self ptr sc))
        = Some pool).
Proof.
  intros H.
  specialize (H last_block_strategy (4096 + 256 * 1024) [] last_block_pool
                eq_refl last_block_pool_wf).
  assert (Hfreed :
            option_map (fun q => Pool.blocks_used (Pool.metrics q))
              (Strategy.strategy_data
                 (fst (Pool.pool_deallocate last_block_strategy
                         (4096 + 256 * 1024) [])))
            = Some 0) by (vm_compute; reflexivity).
  rewrite H in Hfreed.
  - vm_compute in Hfreed. discriminate.
  - unfold SIZE_MAX. lia.
  - right. vm_compute. congruence.
Qed.

(** C7, the defect at work. The pointer one past the end of the arena is
    outside the pool ([is_ptr_in_pool_range] rejects it), yet
    [pool_deallocate] does not leave the pool alone, because it checks
    [ptr - POOL_METADATA_SIZE]: the last eight bytes of the arena, which
    belong to the live block 1023, are read as a run header of 1; block 1023
    is marked free, [blocks_used] drops from 1 to 0, and
    [secure_clear_memory] clears 256 bytes from the header address on, 248
    of them beyond the arena, where the neighbour's byte 7 becomes 0. The
    real header of block 1023 stays in place. *)
Theorem pool_deallocate_past_arena_end :
  let ptr := 4096 + 256 * 1024 in
  let pool' :=
    Strategy.strategy_data
      (fst (Pool.pool_deallocate neighboured_strategy ptr [])) in
  pool_wf neighboured_pool
  /\ Pool.is_ptr_in_pool_range ptr (Pool.pool_memory neighboured_pool)
       (Pool.POOL_BLOCK_SIZE * Pool.POOL_BLOCK_COUNT) = false
  /\ Pool.is_block_used (Pool.block_bitmap neighboured_pool) 1023 = true
  /\ option_map (fun q => Pool.is_block_used (Pool.block_bitmap q) 1023) pool'
     = Some false
  /\ Pool.blocks_used (Pool.metrics neighboured_pool) = 1
  /\ option_map (fun q => Pool.blocks_used (Pool.metrics q)) pool' = Some 0
  /\ Pool.heap neighboured_pool (ptr + 100) = 7
  /\ option_map (fun q => Pool.heap q (ptr + 100)) pool' = Some 0
  /\ option_map (fun q => Pool.heap q (4096 + 1023 * 256)) pool' = Some 1.
Proof.
  cbv zeta. split.
  { exact last_block_pool_wf. }
  repeat split; vm_compute; reflexivity.
Qed.


(** ** Witnesses on concrete pools and ledgers *)

Lemma fresh_pool_wf : pool_wf fresh_pool.
Proof.
  unfold pool_wf, fresh_pool.
  cbn [Pool.pool_memory Pool.block_bitmap Pool.bitmap_size Pool.metrics
       Pool.blocks_used Pool.concurrent_ops].
  unfold Pool.POOL_BLOCK_SIZE, Pool.POOL_BLOCK_COUNT, SIZE_MAX.
  split; [lia|]. split; [reflexivity|]. split; [lia|].
  split; [|lia].
  eexists. split; [reflexivity|]. split; [reflexivity|].
  apply bitmap_ok_replicate.
Qed.

Lemma ledger_wf_init : ledger_wf Stats.memory_stats_init.
Proof.
  split; [|cbn; unfold SIZE_MAX; lia].
  apply Forall_replicate. unfold slot_ok, SIZE_MAX. cbn. lia.
Qed.

(** C2 at work: a 100-byte allocation on a fresh pool returns the address
    eight bytes into the arena, and freeing it leaves an empty bitmap and
    no block in use. *)
Lemma pool_allocate_deallocate_round_trip_witness :
  fst (fst (Pool.pool_allocate fresh_strategy 100 [])) = 4104
  /\ exists pool2,
      Strategy.strategy_data
        (fst (Pool.pool_deallocate
                (snd (fst (Pool.pool_allocate fresh_strategy 100 [])))
                (fst (fst (Pool.pool_allocate fresh_strategy 100 []))) []))
      = Some pool2
      /\ Pool.block_bitmap pool2 = Some (replicate 16 0)
      /\ Pool.blocks_used (Pool.metrics pool2) = 0.
Proof.
  assert (Hp : fst (fst (Pool.pool_allocate fresh_strategy 100 [])) = 4104)
    by (vm_compute; reflexivity).
  split; [exact Hp|].
  destruct (pool_allocate_deallocate_round_trip fresh_strategy 100 []
              (fst (fst (Pool.pool_allocate fresh_strategy 100 [])))
              (snd (fst (Pool.pool_allocate fresh_strategy 100 [])))
              (snd (Pool.pool_allocate fresh_strategy 100 []))
              fresh_pool eq_refl fresh_pool_wf)
    as (pool1 & bitmap & bitmap1 & start & _ & Hbm & _ & _ & _ & _ & _ & _ & _
        & _ & _ & Hback).
  - destruct (Pool.pool_allocate fresh_strategy 100 []) as [[p s] c].
    reflexivity.
  - rewrite Hp. lia.
  - destruct (Hback []) as (pool2 & Hdata & Hbm2 & Hbu2).
    exists pool2. split; [exact Hdata|].
    inversion Hbm; subst bitmap. split; [exact Hbm2 | exact Hbu2].
Defined.

(** C9 at work: an allocation of 100 bytes, its deallocation, and a second
    deallocation of the same pointer. *)
Lemma current_bytes_never_underflows_witness :
  never_underflows
    [UpdateAllocation 4104 100 "main.c" 7 0; UpdateDeallocation 4104;
     UpdateDeallocation 4104]
    Stats.memory_stats_init [].
Proof.
  apply (proj2 current_bytes_never_underflows).
  - exact ledger_wf_init.
  - repeat constructor; unfold SIZE_MAX; lia.
  - constructor.
Defined.

(** C10 at work: a pointer into the middle of the last block, in front of
    which the memory holds 0. *)
Lemma pool_deallocate_header_guard_witness :
  Pool.load_size_t (Pool.heap last_block_pool)
    (4096 + 1023 * 256 + 16 - Pool.POOL_METADATA_SIZE) = 0
  /\ exists pool',
      Strategy.strategy_data
        (fst (Pool.pool_deallocate last_block_strategy
                (4096 + 1023 * 256 + 16) []))
      = Some pool'
      /\ Pool.heap pool' = Pool.heap last_block_pool
      /\ Pool.block_bitmap pool' = Pool.block_bitmap last_block_pool
      /\ Pool.blocks_used (Pool.metrics pool')
         = Pool.blocks_used (Pool.metrics last_block_pool).
Proof.
  split; [reflexivity|].
  apply (pool_deallocate_header_guard last_block_strategy
           (4096 + 1023 * 256 + 16) [] last_block_pool).
  - reflexivity.
  - unfold SIZE_MAX. lia.
  - left. reflexivity.
Defined.


(** ** C4: size boundaries of the allocators *)

Lemma validate_size_boundary (size : Z) :
  size = 0 \/ SIZE_MAX / 2 < size -> Strategy.validate_size size = false.
Proof.
  intros [-> | H]; [reflexivity|]. unfold Strategy.validate_size.
  destruct (Z.leb_spec size (SIZE_MAX / 2)); [lia|]. apply andb_false_r.
Qed.

Lemma default_validate_size_boundary (size : Z) :
  size = 0 \/ SIZE_MAX / 2 < size -> Default.validate_size size = false.
Proof.
  intros [-> | H]; [reflexivity|]. unfold Default.validate_size.
  assert (SIZE_MAX / 4 <= SIZE_MAX / 2) by (vm_compute; congruence).
  destruct (Z.leb_spec size (SIZE_MAX / 4)); [lia|]. apply andb_false_r.
Qed.

Lemma pool_allocate_null (self : Pool.pool_strategy) (size : Z)
    (sc : schedule) :
  Strategy.validate_size size = false \/ Pool.blocks_needed size = 0 ->
  fst (fst (Pool.pool_allocate self size sc)) = 0.
Proof.
  intros Hbad. unfold Pool.pool_allocate.
  destruct (Strategy.validate_allocation (Some self) size) eqn:Hval;
    cbn [negb]; [|reflexivity].
  assert (Hneeded : Pool.blocks_needed size = 0).
  { destruct Hbad as [Hsize|Hn]; [|exact Hn].
    unfold Strategy.validate_allocation in Hval. rewrite Hsize in Hval.
    rewrite andb_false_r in Hval. discriminate. }
  assert (Herr : fst (fst ((run self' <- Strategy.set_error_status self in
                            ret (0, self')) sc)) = 0).
  { unfold bind. destruct (Strategy.set_error_status self sc). reflexivity. }
  destruct (Strategy.strategy_data self) as [pool|]; [|exact Herr].
  destruct (Pool.block_bitmap pool) as [bitmap|]; [|exact Herr].
  destruct (Pool.pool_memory pool =? 0); [exact Herr|].
  cbv zeta. rewrite Hneeded.
  destruct (_ >=? Pool.MAX_ALLOCATION_RETRIES); reflexivity.
Qed.

Lemma transition_status_success (tracker : option Status.StatusTracker)
    (new_status : Z) (sc : schedule)
    (tracker' : option Status.StatusTracker) (sc' : schedule) :
  Status.transition_status tracker new_status sc
  = (Status.STRATEGY_SUCCESS, tracker', sc') ->
  exists t', tracker' = Some t' /\ Status.current_status t' = new_status.
Proof.
  intros H. unfold Status.transition_status in H.
  destruct tracker as [t|]; simpl in H; [|discriminate].
  destruct (new_status >? Status.STRATEGY_MAX_STATE); [discriminate|].
  unfold bind at 1 in H. unfold Status.handle_state_transition, bind at 1 in H.
  unfold Status.atomic_transition_status in H.
  destruct (Status.transition_retry Status.STRATEGY_MAX_RETRIES
              (Status.current_status t) new_status sc)
    as [[r1 st1] sc1] eqn:Hstate.
  apply transition_retry_result in Hstate.
  destruct Hstate as (c1 & _ & Hok1 & _).
  unfold ret at 1 in H.
  destruct (Status.is_success r1) eqn:Hs1; cbn [negb] in H.
  2:{ unfold ret in H. inversion H; subst. discriminate. }
  assert (Hr1 : r1 = Status.STRATEGY_SUCCESS)
    by (destruct r1; try discriminate; reflexivity).
  rewrite (Hok1 Hr1) in H.
  unfold bind at 1 in H.
  destruct (Status.update_transition_counters
              (Status.mkTracker new_status (Status.transition_count t)
                 (Status.error_count t)) new_status sc1)
    as [[r2 t2] sc2] eqn:Hcount.
  unfold ret in H. inversion H; subst.
  exists t2. split; [reflexivity|].
  unfold Status.update_transition_counters, bind in Hcount.
  destruct (Status.atomic_increment_with_check _ sc1) as [[r3 tc] sc3].
  cbn [Status.current_status Status.transition_count Status.error_count]
    in Hcount.
  destruct (negb (Status.is_success r3));
    [unfold ret in Hcount; inversion Hcount; reflexivity|].
  destruct (new_status =? Status.STRATEGY_STATE_ERROR).
  - destruct (Status.atomic_increment_with_check _ sc3) as [[r4 ec] sc4].
    unfold ret in Hcount. inversion Hcount; reflexivity.
  - unfold ret in Hcount. inversion Hcount; reflexivity.
Qed.

Lemma pool_allocate_proper (self : Pool.pool_strategy) (size : Z)
    (sc : schedule) (pool : Pool.MemoryPool) (bitmap : list Z) (start : Z) :
  Strategy.strategy_data self = Some pool ->
  Strategy.validate_state self = true ->
  0 < size <= SIZE_MAX / 2 ->
  Pool.block_bitmap pool = Some bitmap ->
  0 < Pool.pool_memory pool ->
  Pool.pool_memory pool + Pool.POOL_BLOCK_SIZE * Pool.POOL_BLOCK_COUNT
  <= SIZE_MAX ->
  0 <= Pool.concurrent_ops (Pool.metrics pool) < 2 ^ 64 ->
  wrap32 (Pool.concurrent_ops (Pool.metrics pool)) < 3 ->
  0 <= Pool.blocks_used (Pool.metrics pool) < 2 ^ 64 ->
  wrap32 (Pool.blocks_used (Pool.metrics pool))
  <= UINT32_MAX - Pool.blocks_needed size ->
  Pool.blocks_needed size <> 0 ->
  0 <= Pool.bitmap_size pool ->
  Pool.find_contiguous_blocks bitmap (Pool.bitmap_size pool)
    (Pool.blocks_needed size) = Some start ->
  Pool.pool_allocate self size sc
  = (Pool.pool_memory pool + start * Pool.POOL_BLOCK_SIZE
     + Pool.POOL_METADATA_SIZE,
     Strategy.set_strategy_data self
       (Some (allocated_pool pool bitmap start (Pool.blocks_needed size))),
     sc).
Proof.
  intros Hdata Hstate Hsize Hbm Hbase Hend Hco Hops Hbu Hfit Hnz Hbs Hfind.
  pose proof (blocks_needed_range size ltac:(lia) Hnz) as Hneeded.
  destruct (find_contiguous_blocks_some bitmap (Pool.bitmap_size pool)
              (Pool.blocks_needed size) start Hfind Hbs
              ltac:(unfold SIZE_MAX; lia))
    as (Htotal & Hs0 & Hs1 & Hrun & _).
  unfold Pool.BLOCKS_PER_BITMAP, Pool.POOL_BLOCK_COUNT, Pool.POOL_BLOCK_SIZE
    in *.
  unfold Pool.pool_allocate.
  unfold Strategy.validate_allocation, Strategy.validate_size.
  rewrite Hstate.
  destruct (Z.gtb_spec size 0); [|lia].
  destruct (Z.leb_spec size (SIZE_MAX / 2)); [|lia].
  cbn [andb negb]. rewrite Hdata, Hbm.
  destruct (Z.eqb_spec (Pool.pool_memory pool) 0); [lia|].
  cbv zeta.
  unfold Pool.set_bitmap, Pool.set_metrics, Pool.set_heap, Pool.enter_op,
    Pool.leave_op.
  cbn [Pool.blocks_used Pool.total_allocations Pool.failed_allocations
       Pool.concurrent_ops Pool.metrics Pool.pool_memory Pool.heap
       Pool.block_bitmap Pool.bitmap_size Pool.thread_count
       Pool.initialization_flag].
  unfold Pool.MAX_ALLOCATION_RETRIES.
  destruct (Z.geb_spec (wrap32 (Pool.concurrent_ops (Pool.metrics pool))) 3);
    [lia|].
  destruct (Z.eqb_spec (Pool.blocks_needed size) 0); [contradiction|].
  rewrite Hfind.
  rewrite (wrap64_small (UINT32_MAX - Pool.blocks_needed size))
    by (unfold UINT32_MAX, SIZE_MAX; lia).
  destruct (Z.gtb_spec (wrap32 (Pool.blocks_used (Pool.metrics pool)))
              (UINT32_MAX - Pool.blocks_needed size)); [lia|].
  unfold Pool.POOL_BLOCK_SIZE, Pool.POOL_METADATA_SIZE.
  rewrite (wrap64_small (start * 256)) by (unfold SIZE_MAX; lia).
  rewrite (wrap64_small (Pool.pool_memory pool + start * 256))
    by (unfold SIZE_MAX in *; lia).
  rewrite (wrap64_small (Pool.pool_memory pool + start * 256 + 8))
    by (unfold SIZE_MAX in *; lia).
  rewrite (wrap64_small (Pool.blocks_needed size * 256))
    by (unfold SIZE_MAX; lia).
  rewrite (wrap64_small (Pool.blocks_needed size * 256 - 8))
    by (unfold SIZE_MAX; lia).
  rewrite (metrics_roundtrip _ Hco).
  assert (Hw6 : wrap_fast32 (Pool.blocks_used (Pool.metrics pool)
                             + Pool.blocks_needed size)
                = Pool.blocks_used (Pool.metrics pool)
                  + Pool.blocks_needed size).
  { unfold wrap_fast32. apply Z.mod_small.
    unfold wrap32, UINT32_MAX in Hfit.
    pose proof (Z.div_mod (Pool.blocks_used (Pool.metrics pool)) (2 ^ 32)
                  ltac:(lia)).
    pose proof (Z.mod_pos_bound (Pool.blocks_used (Pool.metrics pool))
                  (2 ^ 32) ltac:(lia)).
    assert (Pool.blocks_used (Pool.metrics pool) / 2 ^ 32 < 2 ^ 32)
      by (apply Z.div_lt_upper_bound; lia).
    lia. }
  rewrite Hw6. reflexivity.
Qed.

Lemma create_pool_strategy_inv (arena : Z) (h : Pool.memory) (sc : schedule)
    (self : Pool.pool_strategy) (sc' : schedule) :
  Pool.create_pool_strategy arena h sc = (Some self, sc') ->
  Strategy.validate_state self = true
  /\ exists h',
      Strategy.strategy_data self
      = Some (Pool.mkPool arena h' (Some (replicate 16 0)) 16 0 0
                (Pool.mkMetrics 0 0 0 0)).
Proof.
  unfold Pool.create_pool_strategy, bind, Strategy.initialize_strategy.
  cbn [Status.initialize_status]. unfold bind.
  destruct (Status.transition_status _ Status.STRATEGY_STATE_ACTIVE sc)
    as [[r tracker'] sc1] eqn:Htr.
  destruct r; cbn [Status.is_success]; unfold ret; try discriminate.
  apply transition_status_success in Htr. destruct Htr as (t' & -> & Hst).
  intros H. inversion H; subst. split.
  - unfold Strategy.validate_state. cbn. rewrite Hst. reflexivity.
  - eexists. reflexivity.
Qed.

Lemma create_pool_strategy_uncontended (arena : Z) (h : Pool.memory)
    (sc : schedule) :
  uncontended sc ->
  exists self sc', Pool.create_pool_strategy arena h sc = (Some self, sc').
Proof.
  intros Hu.
  unfold Pool.create_pool_strategy, bind, Strategy.initialize_strategy.
  cbn [Status.initialize_status]. unfold bind.
  assert (Htr : exists sc1,
             Status.transition_status
               (Some (Status.mkTracker Status.STRATEGY_STATE_INITIALIZED 0 0))
               Status.STRATEGY_STATE_ACTIVE sc
             = (Status.STRATEGY_SUCCESS,
                Some (Status.mkTracker Status.STRATEGY_STATE_ACTIVE 1 0),
                sc1)).
  { apply (transition_status_uncontended
             (Status.mkTracker Status.STRATEGY_STATE_INITIALIZED 0 0)
             Status.STRATEGY_STATE_ACTIVE sc).
    - vm_compute. split; congruence.
    - reflexivity.
    - exact Hu.
    - vm_compute. split; congruence.
    - intros _. vm_compute. split; congruence. }
  destruct Htr as [sc1 Htr].
  change (Status.mkTracker 0 0 0)
    with (Status.mkTracker Status.STRATEGY_STATE_INITIALIZED 0 0).
  rewrite Htr. cbn [Status.is_success]. unfold ret.
  eexists. eexists. reflexivity.
Qed.

(** C4. Every allocator returns null for size 0 and for every size above
    [SIZE_MAX / 2], which covers [SIZE_MAX] and every size whose block
    computation would overflow (for those [blocks_needed] is 0 as well).
    On a freshly created pool strategy an allocation of exactly
    [POOL_BLOCK_COUNT * POOL_BLOCK_SIZE - POOL_METADATA_SIZE] bytes
    succeeds, returning the address [POOL_METADATA_SIZE] bytes into the
    arena, and an allocation of one byte more returns null. *)
Theorem allocation_size_boundaries :
  (forall size, size = 0 \/ SIZE_MAX / 2 < size ->
     (forall (self : Pool.pool_strategy) (sc : schedule),
         fst (fst (Pool.pool_allocate self size sc)) = 0)
     /\ (forall (D : Type) (self : Strategy.MemoryStrategy D)
                (malloc_result : Z) (sc : schedule),
            fst (fst (Strategy.default_allocate self size malloc_result sc))
            = 0)
     /\ (forall (b : option Default.DefaultStrategy) (malloc_result : Z)
                (enomem : bool) (now : Z) (sc : schedule),
            fst (fst (Default.default_allocate b size malloc_result enomem
                        now sc)) = 0))
  /\ (forall size,
         SIZE_MAX - (Pool.POOL_METADATA_SIZE + Pool.POOL_BLOCK_SIZE - 1) < size ->
         SIZE_MAX / 2 < size /\ Pool.blocks_needed size = 0)
  /\ (forall (arena : Z) (h : Pool.memory) (sc : schedule)
             (self : Pool.pool_strategy) (sc' : schedule),
         0 < arena ->
         arena + Pool.POOL_BLOCK_SIZE * Pool.POOL_BLOCK_COUNT <= SIZE_MAX ->
         Pool.create_pool_strategy arena h sc = (Some self, sc') ->
         forall sc2,
           fst (fst (Pool.pool_allocate self
                       (Pool.POOL_BLOCK_COUNT * Pool.POOL_BLOCK_SIZE
                        - Pool.POOL_METADATA_SIZE) sc2))
           = arena + Pool.POOL_METADATA_SIZE
           /\ arena + Pool.POOL_METADATA_SIZE <> 0
           /\ fst (fst (Pool.pool_allocate self
                          (Pool.POOL_BLOCK_COUNT * Pool.POOL_BLOCK_SIZE
                           - Pool.POOL_METADATA_SIZE + 1) sc2)) = 0)
  /\ (forall (arena : Z) (h : Pool.memory) (sc : schedule),
         uncontended sc ->
         exists self sc',
           Pool.create_pool_strategy arena h sc = (Some self, sc')).
Proof.
  split; [|split; [|split]].
  - intros size Hsize. split; [|split].
    + intros self sc. apply pool_allocate_null. left.
      apply validate_size_boundary. exact Hsize.
    + intros D self m sc. unfold Strategy.default_allocate.
      unfold Strategy.validate_allocation.
      rewrite (validate_size_boundary size Hsize), andb_false_r.
      cbn [negb]. unfold bind.
      destruct (Strategy.set_error_status self sc). reflexivity.
    + intros b m e now sc. unfold Default.default_allocate.
      destruct b as [s|]; [|reflexivity].
      destruct (negb (Default.validate_strategy_base (Some s)));
        [reflexivity|].
      destruct (negb (Default.check_strategy_status (Default.enter_usage s)));
        [reflexivity|].
      unfold Default.is_valid_allocation_size.
      rewrite (default_validate_size_boundary size Hsize). reflexivity.
  - intros size Hsize.
    unfold Pool.POOL_METADATA_SIZE, Pool.POOL_BLOCK_SIZE in Hsize.
    assert (Hhalf : SIZE_MAX / 2 < SIZE_MAX - (8 + 256 - 1))
      by (vm_compute; reflexivity).
    split; [lia|].
    unfold Pool.blocks_needed, Pool.POOL_METADATA_SIZE, Pool.POOL_BLOCK_SIZE.
    destruct (Z.gtb_spec size (SIZE_MAX - 8)); [reflexivity|].
    destruct (Z.gtb_spec (size + 8) (SIZE_MAX - (256 - 1)));
      [reflexivity | lia].
  - intros arena h sc self sc' Harena Hend Hcreate sc2.
    apply create_pool_strategy_inv in Hcreate.
    destruct Hcreate as [Hstate [h' Hdata]].
    split; [|split].
    + assert (Hneeded : Pool.blocks_needed
                          (Pool.POOL_BLOCK_COUNT * Pool.POOL_BLOCK_SIZE
                           - Pool.POOL_METADATA_SIZE) = 1024)
        by (vm_compute; reflexivity).
      rewrite (pool_allocate_proper self _ sc2 _ (replicate 16 0) 0 Hdata
                 Hstate).
      * cbn [fst Pool.pool_memory]. lia.
      * vm_compute. split; congruence.
      * reflexivity.
      * exact Harena.
      * exact Hend.
      * vm_compute. split; congruence.
      * vm_compute. reflexivity.
      * vm_compute. split; congruence.
      * rewrite Hneeded. vm_compute. congruence.
      * rewrite Hneeded. lia.
      * vm_compute. congruence.
      * rewrite Hneeded. vm_compute. reflexivity.
    + unfold Pool.POOL_METADATA_SIZE. lia.
    + apply pool_allocate_null. right. reflexivity.
  - intros arena h sc Hu. apply create_pool_strategy_uncontended. exact Hu.
Qed.

(** C4 at work on the example pool strategy and on a pool strategy created
    with its arena at address 4096. *)
Lemma allocation_size_boundaries_witness :
  (fst (fst (Pool.pool_allocate fresh_strategy 0 [])) = 0
   /\ fst (fst (Pool.pool_allocate fresh_strategy SIZE_MAX [])) = 0)
  /\ exists self sc',
      Pool.create_pool_strategy 4096 (fun _ => 0) [] = (Some self, sc')
      /\ fst (fst (Pool.pool_allocate self 262136 [])) = 4104
      /\ fst (fst (Pool.pool_allocate self 262137 [])) = 0.
Proof.
  split; [split|].
  - apply (proj1 (proj1 allocation_size_boundaries 0 (or_introl eq_refl))).
  - apply (proj1 allocation_size_boundaries SIZE_MAX).
    right. vm_compute. reflexivity.
  - destruct (proj2 (proj2 (proj2 allocation_size_boundaries)) 4096
                (fun _ => 0) [] (List.Forall_nil _)) as (self & sc' & Hcreate).
    exists self, sc'. split; [exact Hcreate|].
    destruct (proj1 (proj2 (proj2 allocation_size_boundaries)) 4096
                (fun _ => 0) [] self sc') with (sc2 := @nil cas_event)
      as (Hmax & _ & Hover).
    + lia.
    + vm_compute. congruence.
    + exact Hcreate.
    + split; [exact Hmax | exact Hover].
Defined.


(** ** C8: usage accounting of the default strategy *)

Lemma allocation_bytes_retry_suffix (n : nat) (cur peak sz : Z)
    (sc : schedule) :
  exists consumed,
    sc = consumed ++ snd (Stats.allocation_bytes_retry n cur peak sz sc).
Proof.
  revert cur peak sc. induction n as [|n IH]; intros cur peak sc; simpl.
  - exists []. reflexivity.
  - unfold bind. rewrite cas_strong_unfold. simpl.
    destruct (interfere wrap64 (hd CasQuiet sc) cur =? cur).
    + exists (firstn 1 sc). apply schedule_split.
    + destruct (IH (interfere wrap64 (hd CasQuiet sc) cur)
                  (if wrap64 (cur + sz) >? peak then wrap64 (cur + sz)
                   else peak) (tl sc)) as [consumed Hc].
      exists (firstn 1 sc ++ consumed).
      rewrite <- app_assoc, <- Hc. apply schedule_split.
Qed.

Lemma find_free_slot_from_head (fuel : nat) (s0 : Stats.allocation_slot)
    (rest : list Stats.allocation_slot) :
  Stats.valid s0 = 0 -> Stats.in_use s0 = 0 ->
  Stats.find_free_slot_from (S fuel) 0 (s0 :: rest)
  = (Some 0%nat,
     Stats.mkSlot (Stats.address s0) (Stats.size s0) (Stats.file s0)
       (Stats.line s0) (Stats.timestamp s0) (Stats.valid s0) 1 :: rest).
Proof.
  intros Hv Hu. cbn [Stats.find_free_slot_from lookup list_lookup].
  rewrite Hv, Hu. reflexivity.
Qed.

Lemma find_free_slot_retry_head (n : nat) (s0 : Stats.allocation_slot)
    (rest : list Stats.allocation_slot) :
  Stats.valid s0 = 0 -> Stats.in_use s0 = 0 ->
  Stats.find_free_slot_retry (S n) (s0 :: rest)
  = (Some 0%nat,
     Stats.mkSlot (Stats.address s0) (Stats.size s0) (Stats.file s0)
       (Stats.line s0) (Stats.timestamp s0) (Stats.valid s0) 1 :: rest).
Proof.
  intros Hv Hu. cbn [Stats.find_free_slot_retry]. unfold Stats.find_free_slot.
  change Stats.STATS_MAX_TRACKED_ALLOCATIONS with (S 999).
  rewrite (find_free_slot_from_head 999 s0 rest Hv Hu). reflexivity.
Qed.

Lemma update_allocation_tracks (st : Stats.memory_stats_t) (p sz : Z)
    (f : string) (l now : Z) (sc : schedule) (s0 : Stats.allocation_slot)
    (rest : list Stats.allocation_slot) :
  p <> 0 ->
  Stats.active_allocations st = s0 :: rest ->
  Stats.valid s0 = 0 -> Stats.in_use s0 = 0 ->
  Stats.active_allocations
    (fst (Stats.memory_stats_update_allocation st p sz f l now sc))
  = Stats.mkSlot p sz f l (wrap64 now) 1 0 :: rest
  /\ exists consumed,
      sc = consumed
           ++ snd (Stats.memory_stats_update_allocation st p sz f l now sc).
Proof.
  intros Hp Hslots Hv Hu.
  destruct (Stats.memory_stats_update_allocation st p sz f l now sc)
    as [st' sc'] eqn:Hrun.
  cbn [fst snd].
  unfold Stats.memory_stats_update_allocation,
    Stats.update_counter_with_retry in Hrun.
  destruct (Z.eqb_spec p 0); [contradiction|].
  assert (Hfind : Stats.find_free_slot_retry Stats.MAX_RETRY_ATTEMPTS
                    (s0 :: rest)
                  = (Some 0%nat,
                     Stats.mkSlot (Stats.address s0) (Stats.size s0)
                       (Stats.file s0) (Stats.line s0) (Stats.timestamp s0)
                       (Stats.valid s0) 1 :: rest)).
  { change Stats.MAX_RETRY_ATTEMPTS with (S 9).
    apply find_free_slot_retry_head; assumption. }
  generalize dependent Stats.MAX_RETRY_ATTEMPTS.
  generalize dependent Stats.MAX_COUNTER_RETRIES.
  intros tries attempts Hrun Hfind.
  unfold bind at 1 in Hrun.
  destruct (Stats.counter_retry tries (Stats.alloc_count st) 1 true sc)
    as [[b ac] sc1] eqn:Hac.
  apply counter_retry_result in Hac. destruct Hac as (c1 & Hsc1 & _ & _).
  unfold bind, Stats.set_alloc_count, Stats.set_bytes in Hrun.
  cbn [Stats.current_bytes Stats.peak_bytes Stats.active_allocations] in Hrun.
  destruct (allocation_bytes_retry_suffix attempts (Stats.current_bytes st)
              (Stats.peak_bytes st) sz sc1) as [c2 Hsc2].
  destruct (Stats.allocation_bytes_retry attempts (Stats.current_bytes st)
              (Stats.peak_bytes st) sz sc1) as [[cur peak] sc2].
  cbn [snd] in Hsc2.
  rewrite Hslots, Hfind in Hrun. unfold ret in Hrun.
  inversion Hrun; subst st' sc'. cbn [Stats.active_allocations
    Stats.record_allocation Stats.set_history Stats.set_size_distribution
    Stats.set_tracking].
  split; [reflexivity|].
  exists (c1 ++ c2). rewrite <- app_assoc, <- Hsc2. exact Hsc1.
Qed.

Lemma default_tracker_active (sc0 : schedule)
    (s0 : Default.DefaultStrategy) (sc1 : schedule) :
  Default.create_default_strategy sc0 = (Some s0, sc1) ->
  exists t,
    Status.current_status t = Status.STRATEGY_STATE_ACTIVE
    /\ s0 = Default.mkDefault
              (Strategy.mkStrategy true true true true None (Some tt))
              (Some Stats.memory_stats_init) t 0 0 0 0 0.
Proof.
  unfold Default.create_default_strategy.
  cbn [Status.initialize_status Default.status_tracker]. unfold bind.
  destruct (Status.transition_status _ Status.STRATEGY_STATE_ACTIVE sc0)
    as [[r tracker'] sc'] eqn:Htr.
  destruct r; cbn [Status.is_success]; unfold ret; try discriminate.
  apply transition_status_success in Htr. destruct Htr as (t' & -> & Hst).
  intros H. inversion H; subst. exists t'. split; [exact Hst | reflexivity].
Qed.

Lemma update_allocation_suffix (st : Stats.memory_stats_t) (p sz : Z)
    (f : string) (l now : Z) (sc : schedule) :
  exists consumed,
    sc = consumed
         ++ snd (Stats.memory_stats_update_allocation st p sz f l now sc).
Proof.
  destruct (Stats.memory_stats_update_allocation st p sz f l now sc)
    as [st' sc'] eqn:Hrun.
  cbn [snd].
  unfold Stats.memory_stats_update_allocation,
    Stats.update_counter_with_retry in Hrun.
  destruct (p =? 0).
  { unfold ret in Hrun. inversion Hrun; subst. exists []. reflexivity. }
  generalize dependent Stats.MAX_RETRY_ATTEMPTS.
  generalize dependent Stats.MAX_COUNTER_RETRIES.
  intros tries attempts Hrun.
  unfold bind at 1 in Hrun.
  destruct (Stats.counter_retry tries (Stats.alloc_count st) 1 true sc)
    as [[b ac] sc1] eqn:Hac.
  apply counter_retry_result in Hac. destruct Hac as (c1 & Hsc1 & _ & _).
  unfold bind, Stats.set_alloc_count, Stats.set_bytes in Hrun.
  cbn [Stats.current_bytes Stats.peak_bytes Stats.active_allocations] in Hrun.
  destruct (allocation_bytes_retry_suffix attempts (Stats.current_bytes st)
              (Stats.peak_bytes st) sz sc1) as [c2 Hsc2].
  destruct (Stats.allocation_bytes_retry attempts (Stats.current_bytes st)
              (Stats.peak_bytes st) sz sc1) as [[cur peak] sc2].
  cbn [snd] in Hsc2. unfold ret in Hrun. inversion Hrun; subst sc'.
  exists (c1 ++ c2). rewrite <- app_assoc, <- Hsc2. exact Hsc1.
Qed.

Lemma perform_allocation_peak (s : Default.DefaultStrategy)
    (size malloc_result : Z) (enomem : bool) (now : Z) (sc : schedule)
    (ptr : Z) (s1 : Default.DefaultStrategy) (sc1 : schedule) :
  Default.perform_allocation s size malloc_result enomem now sc
  = (ptr, s1, sc1) ->
  Default.peak_usage s1 = Default.peak_usage s
  /\ (ptr <> 0 -> exists consumed, sc = consumed ++ sc1).
Proof.
  unfold Default.perform_allocation. destruct (malloc_result =? 0).
  - destruct enomem.
    + unfold bind.
      destruct (Status.transition_status _ Status.STRATEGY_STATE_ERROR sc)
        as [[r tracker] sc2].
      unfold ret. intros H. inversion H; subst.
      split; [destruct tracker; reflexivity | congruence].
    + unfold ret. intros H. inversion H; subst.
      split; [reflexivity | congruence].
  - unfold bind, Default.update_allocation_stats, bind.
    destruct (Default.stats s) as [st|].
    + destruct (update_allocation_suffix st malloc_result size
                  Default.source_file Default.source_line now sc)
        as [consumed Hc].
      destruct (Stats.memory_stats_update_allocation st malloc_result size
                  Default.source_file Default.source_line now sc)
        as [st' sc'].
      unfold ret. intros H. inversion H; subst.
      split; [reflexivity|]. intros _. exists consumed.
      first [exact Hc | reflexivity].
    + unfold ret. intros H. inversion H; subst.
      split; [reflexivity|]. intros _. exists []. reflexivity.
Qed.

Lemma update_peak_usage_race_free (s : Default.DefaultStrategy)
    (current_usage : Z) (sc : schedule) :
  race_free sc ->
  Default.peak_usage (fst (Default.update_peak_usage s current_usage sc))
  = Z.max (Default.peak_usage s) current_usage.
Proof.
  intros Hrf. unfold Default.update_peak_usage.
  destruct (Z.gtb_spec current_usage (Default.peak_usage s)).
  - unfold bind. rewrite cas_strong_unfold. cbv zeta.
    rewrite (race_free_hd _ _ _ Hrf), Z.eqb_refl. cbn. lia.
  - cbn. lia.
Qed.

Lemma default_deallocate_peak (b : option Default.DefaultStrategy) (ptr : Z)
    (sc : schedule) :
  Default.get_peak_usage (fst (Default.default_deallocate b ptr sc))
  = Default.get_peak_usage b.
Proof.
  unfold Default.default_deallocate. destruct b as [s|]; [|reflexivity].
  destruct (negb (Default.validate_strategy_base (Some s))
            || negb (Default.validate_pointer ptr)); [reflexivity|].
  cbn [Status.get_current_status].
  destruct (_ =? Status.STRATEGY_STATE_ERROR); [reflexivity|].
  unfold bind, Default.handle_deallocation.
  cbn [Default.stats Default.enter_usage Default.set_usage_count].
  destruct (Default.stats s) as [st|]; [|reflexivity].
  destruct (Stats.memory_stats_get_allocation_size st ptr) as [found sz].
  unfold bind.
  destruct (Stats.memory_stats_update_deallocation st ptr sc) as [st' sc'].
  destruct (found =? Stats.MEMORY_STATS_SUCCESS); reflexivity.
Qed.

Lemma default_allocate_peak (b : option Default.DefaultStrategy)
    (size malloc_result : Z) (enomem : bool) (now : Z) (sc : schedule) :
  race_free sc ->
  Default.get_peak_usage b
  <= Default.get_peak_usage
       (snd (fst (Default.default_allocate b size malloc_result enomem now
                    sc))).
Proof.
  intros Hrf. unfold Default.default_allocate.
  destruct b as [s|]; [|cbn; lia].
  destruct (negb (Default.validate_strategy_base (Some s))); [cbn; lia|].
  destruct (negb (Default.check_strategy_status (Default.enter_usage s)));
    [cbn; lia|].
  destruct (negb (Default.is_valid_allocation_size _ size)); [cbn; lia|].
  unfold bind at 1.
  destruct (Default.perform_allocation (Default.enter_usage s) size
              malloc_result enomem now sc) as [[ptr s1] sc1] eqn:Hperf.
  apply perform_allocation_peak in Hperf. destruct Hperf as [Hpeak Hsuffix].
  cbn [Default.peak_usage Default.enter_usage Default.set_usage_count]
    in Hpeak.
  unfold bind.
  destruct (Z.eqb_spec ptr 0) as [Hz|Hnz]; cbn [negb].
  - unfold ret. cbn. lia.
  - destruct (Hsuffix Hnz) as [consumed Hc].
    assert (Hrf1 : race_free sc1)
      by (rewrite Hc in Hrf; eapply race_free_app_r; eauto).
    pose proof (update_peak_usage_race_free s1
                  (wrap64 (wrap64 (Default.total_allocated
                                     (Default.enter_usage s)
                                   - Default.total_freed
                                       (Default.enter_usage s)) + size))
                  sc1 Hrf1) as Hmax.
    destruct (Default.update_peak_usage s1 _ sc1) as [s2 sc2].
    cbn [fst] in Hmax. unfold ret. cbn. lia.
Qed.

Lemma create_default_strategy_uncontended (sc0 : schedule) :
  uncontended sc0 ->
  exists s0 sc1, Default.create_default_strategy sc0 = (Some s0, sc1).
Proof.
  intros Hu. unfold Default.create_default_strategy.
  cbn [Status.initialize_status Default.status_tracker]. unfold bind.
  assert (Htr : exists sc1,
             Status.transition_status
               (Some (Status.mkTracker Status.STRATEGY_STATE_INITIALIZED 0 0))
               Status.STRATEGY_STATE_ACTIVE sc0
             = (Status.STRATEGY_SUCCESS,
                Some (Status.mkTracker Status.STRATEGY_STATE_ACTIVE 1 0),
                sc1)).
  { apply (transition_status_uncontended
             (Status.mkTracker Status.STRATEGY_STATE_INITIALIZED 0 0)
             Status.STRATEGY_STATE_ACTIVE sc0).
    - vm_compute. split; congruence.
    - reflexivity.
    - exact Hu.
    - vm_compute. split; congruence.
    - intros _. vm_compute. split; congruence. }
  destruct Htr as [sc1 Htr]. rewrite Htr. cbn [Status.is_success].
  unfold ret. eexists. eexists. reflexivity.
Qed.

Lemma default_allocate_fresh (t : Status.StatusTracker) (p : Z)
    (enomem : bool) (now : Z) (sc1 : schedule) :
  Status.current_status t = Status.STRATEGY_STATE_ACTIVE ->
  p <> 0 -> race_free sc1 ->
  exists st1 rest sc2,
    Default.default_allocate
      (Some (Default.mkDefault
               (Strategy.mkStrategy true true true true None (Some tt))
               (Some Stats.memory_stats_init) t 0 0 0 0 0))
      1024 p enomem now sc1
    = (p,
       Some (Default.mkDefault
               (Strategy.mkStrategy true true true true None (Some tt))
               (Some st1) t 1024 0 1024 0 0),
       sc2)
    /\ Stats.active_allocations st1
       = Stats.mkSlot p 1024 Default.source_file Default.source_line
           (wrap64 now) 1 0 :: rest.
Proof.
  intros Hst Hp Hrf.
  assert (Hinit : Stats.active_allocations Stats.memory_stats_init
                  = Stats.init_slot :: replicate 999 Stats.init_slot)
    by reflexivity.
  destruct (update_allocation_tracks Stats.memory_stats_init p 1024
              Default.source_file Default.source_line now sc1
              Stats.init_slot (replicate 999 Stats.init_slot) Hp Hinit
              eq_refl eq_refl) as [Hslots [consumed Hc]].
  unfold Default.default_allocate.
  cbn [Default.validate_strategy_base Default.base Strategy.strategy_data
       negb].
  unfold Default.check_strategy_status, Default.enter_usage,
    Default.set_usage_count.
  cbn [Status.get_current_status Default.status_tracker Default.base
       Default.stats Default.total_allocated Default.total_freed
       Default.peak_usage Default.usage_count Default.operation_count].
  rewrite Hst. cbn [Z.eqb Status.STRATEGY_STATE_ACTIVE Pos.eqb negb].
  change (wrap64 (0 - 0)) with 0.
  change (Default.is_valid_allocation_size 0 1024) with true. cbn [negb].
  unfold bind at 1. unfold Default.perform_allocation.
  destruct (Z.eqb_spec p 0); [contradiction|].
  unfold bind at 1. unfold Default.update_allocation_stats.
  cbn [Default.stats]. unfold bind at 1. unfold bind at 1.
  destruct (Stats.memory_stats_update_allocation Stats.memory_stats_init p
              1024 Default.source_file Default.source_line now sc1)
    as [st1 sc2].
  cbn [fst snd] in Hslots, Hc.
  assert (Hrf2 : race_free sc2)
    by (rewrite Hc in Hrf; eapply race_free_app_r; eauto).
  unfold ret at 1. unfold ret at 1.
  unfold Default.set_stats, Default.set_total_allocated.
  cbn [Default.status_tracker Default.base
       Default.stats Default.total_allocated Default.total_freed
       Default.peak_usage Default.usage_count Default.operation_count].
  unfold ret at 1.
  destruct (Z.eqb_spec p 0); [contradiction|]. cbn [negb].
  change (wrap64 (0 + 1024)) with 1024.
  unfold bind, Default.update_peak_usage.
  cbn [Default.peak_usage]. change (1024 >? 0) with true. cbv iota.
  unfold bind. rewrite cas_strong_unfold. cbv zeta.
  rewrite (race_free_hd _ _ _ Hrf2). cbn [Z.eqb].
  unfold ret, Default.set_peak_usage, Default.leave_usage,
    Default.set_usage_count.
  cbn [Default.status_tracker Default.base
       Default.stats Default.total_allocated Default.total_freed
       Default.peak_usage Default.usage_count Default.operation_count].
  change (wrap32 (wrap32 (0 + 1) - 1)) with 0.
  exists st1, (replicate 999 Stats.init_slot), (tl sc2).
  split; [reflexivity | exact Hslots].
Qed.

Lemma default_deallocate_tracked (st1 : Stats.memory_stats_t)
    (t : Status.StatusTracker) (p now : Z)
    (rest : list Stats.allocation_slot) (sc2 : schedule) :
  Status.current_status t = Status.STRATEGY_STATE_ACTIVE ->
  p <> 0 ->
  Stats.active_allocations st1
  = Stats.mkSlot p 1024 Default.source_file Default.source_line
      (wrap64 now) 1 0 :: rest ->
  exists st2 sc3,
    Default.default_deallocate
      (Some (Default.mkDefault
               (Strategy.mkStrategy true true true true None (Some tt))
               (Some st1) t 1024 0 1024 0 0)) p sc2
    = (Some (Default.mkDefault
               (Strategy.mkStrategy true true true true None (Some tt))
               (Some st2) t 1024 1024 1024 0 0),
       sc3).
Proof.
  intros Hst Hp Hslots. unfold Default.default_deallocate.
  cbn [Default.validate_strategy_base Default.base Strategy.strategy_data
       negb orb].
  unfold Default.validate_pointer.
  destruct (Z.eqb_spec p 0); [contradiction|]. cbn [negb].
  unfold Default.enter_usage, Default.set_usage_count.
  cbn [Status.get_current_status Default.status_tracker Default.base
       Default.stats Default.total_allocated Default.total_freed
       Default.peak_usage Default.usage_count Default.operation_count].
  rewrite Hst.
  change (Status.STRATEGY_STATE_ACTIVE =? Status.STRATEGY_STATE_ERROR)
    with false. cbv iota.
  unfold bind at 1. unfold Default.handle_deallocation.
  cbn [Default.stats].
  unfold Stats.memory_stats_get_allocation_size.
  destruct (Z.eqb_spec p 0); [contradiction|].
  rewrite Hslots. cbn [Stats.lookup_allocation_size Stats.valid Stats.address
                       Stats.size].
  rewrite Z.eqb_refl. change (negb (1 =? 0) && true) with true. cbv iota.
  change (Stats.MEMORY_STATS_SUCCESS =? Stats.MEMORY_STATS_SUCCESS) with true.
  cbv iota. unfold bind at 1.
  destruct (Stats.memory_stats_update_deallocation st1 p sc2) as [st2 sc3].
  unfold ret, Default.set_stats, Default.set_total_freed, Default.leave_usage,
    Default.set_usage_count.
  cbn [Default.status_tracker Default.base
       Default.stats Default.total_allocated Default.total_freed
       Default.peak_usage Default.usage_count Default.operation_count].
  change (wrap64 (0 + 1024)) with 1024.
  change (wrap32 (wrap32 (0 + 1) - 1)) with 0.
  exists st2, sc3. reflexivity.
Qed.

(** C8. On a freshly created default strategy, after a successful
    allocation of 1024 bytes [get_current_usage] and [get_peak_usage] both
    return 1024; after the deallocation of that pointer
    [get_current_usage] returns 0 and [get_peak_usage] still returns 1024.
    No allocation lowers [peak_usage] and no deallocation changes it. The
    calls are run by one thread (no racing store). *)
Theorem default_strategy_usage_accounting :
  (forall (sc0 : schedule) (s0 : Default.DefaultStrategy) (sc1 : schedule)
          (p : Z) (enomem : bool) (now : Z),
      Default.create_default_strategy sc0 = (Some s0, sc1) ->
      p <> 0 -> race_free sc1 ->
      exists s1 sc2,
        Default.default_allocate (Some s0) 1024 p enomem now sc1
        = (p, s1, sc2)
        /\ Default.get_current_usage s1 = 1024
        /\ Default.get_peak_usage s1 = 1024
        /\ exists s2 sc3,
            Default.default_deallocate s1 p sc2 = (s2, sc3)
            /\ Default.get_current_usage s2 = 0
            /\ Default.get_peak_usage s2 = 1024)
  /\ (forall (b : option Default.DefaultStrategy)
             (size malloc_result : Z) (enomem : bool) (now : Z)
             (sc : schedule),
         race_free sc ->
         Default.get_peak_usage b
         <= Default.get_peak_usage
              (snd (fst (Default.default_allocate b size malloc_result enomem
                           now sc))))
  /\ (forall (b : option Default.DefaultStrategy) (ptr : Z) (sc : schedule),
         Default.get_peak_usage (fst (Default.default_deallocate b ptr sc))
         = Default.get_peak_usage b)
  /\ (forall sc0 : schedule,
         uncontended sc0 ->
         exists s0 sc1,
           Default.create_default_strategy sc0 = (Some s0, sc1)).
Proof.
  split; [|split; [|split]].
  - intros sc0 s0 sc1 p enomem now Hcreate Hp Hrf.
    apply default_tracker_active in Hcreate.
    destruct Hcreate as (t & Hst & ->).
    destruct (default_allocate_fresh t p enomem now sc1 Hst Hp Hrf)
      as (st1 & rest & sc2 & Halloc & Hslots).
    destruct (default_deallocate_tracked st1 t p now rest sc2 Hst Hp Hslots)
      as (st2 & sc3 & Hfree).
    eexists. exists sc2. split; [exact Halloc|].
    split; [reflexivity|]. split; [reflexivity|].
    eexists. exists sc3. split; [exact Hfree|].
    split; reflexivity.
  - intros b size m e now sc Hrf. apply default_allocate_peak. exact Hrf.
  - intros b ptr sc. apply default_deallocate_peak.
  - intros sc0 Hu. apply create_default_strategy_uncontended. exact Hu.
Qed.

(** C8 at work: the strategy created without interference, and [malloc]
    returning address 4096. *)
Lemma default_strategy_usage_accounting_witness :
  exists s0 sc1 s1 sc2 s2 sc3,
    Default.create_default_strategy [] = (Some s0, sc1)
    /\ Default.default_allocate (Some s0) 1024 4096 false 0 sc1
       = (4096, s1, sc2)
    /\ Default.get_current_usage s1 = 1024
    /\ Default.get_peak_usage s1 = 1024
    /\ Default.default_deallocate s1 4096 sc2 = (s2, sc3)
    /\ Default.get_current_usage s2 = 0
    /\ Default.get_peak_usage s2 = 1024.
Proof.
  destruct (proj2 (proj2 (proj2 default_strategy_usage_accounting)) []
              (List.Forall_nil _)) as (s0 & sc1 & Hcreate).
  assert (Hsc1 : sc1 = []).
  { destruct sc1 as [|e rest]; [reflexivity|].
    apply (f_equal (fun r => length (snd r))) in Hcreate.
    vm_compute in Hcreate. discriminate. }
  destruct (proj1 default_strategy_usage_accounting [] s0 sc1 4096 false 0
              Hcreate) as (s1 & sc2 & Halloc & Hcur & Hpeak & s2 & sc3
                           & Hfree & Hcur2 & Hpeak2).
  - lia.
  - rewrite Hsc1. constructor.
  - exists s0, sc1, s1, sc2, s2, sc3. repeat split; assumption.
Defined.

(** * Further properties of the code *)

(** ** The status tracker as an automaton *)

(** X1. Between in-range states the matrix forbids the self-transitions
    and [ACTIVE -> INITIALIZED], nothing else; a transition from or to an
    out-of-range state is never valid. *)
Theorem is_valid_state_transition_spec (current next : Z) :
  0 <= current -> 0 <= next ->
  Status.is_valid_state_transition current next = true
  <-> (current <= Status.STRATEGY_MAX_STATE
       /\ next <= Status.STRATEGY_MAX_STATE
       /\ current <> next
       /\ ~ (current = Status.STRATEGY_STATE_ACTIVE
             /\ next = Status.STRATEGY_STATE_INITIALIZED)).
Proof.
  intros Hc Hn.
  unfold Status.is_valid_state_transition, Status.validate_state_transition.
  change Status.STRATEGY_MAX_STATE with 3.
  change Status.STRATEGY_STATE_ACTIVE with 1.
  change Status.STRATEGY_STATE_INITIALIZED with 0.
  destruct (Z.gtb_spec current 3) as [Hc3|Hc3]; cbn [orb].
  { split; [discriminate | lia]. }
  destruct (Z.gtb_spec next 3) as [Hn3|Hn3].
  { split; [discriminate | lia]. }
  assert (Hcs : current = 0 \/ current = 1 \/ current = 2 \/ current = 3) by lia.
  assert (Hns : next = 0 \/ next = 1 \/ next = 2 \/ next = 3) by lia.
  destruct Hcs as [-> | [-> | [-> | ->]]]; destruct Hns as [-> | [-> | [-> | ->]]];
    vm_compute; split; try discriminate; try lia; intros; try reflexivity;
    intuition congruence.
Qed.

(** X1 at work: [ERROR -> INITIALIZED] is allowed. *)
Lemma is_valid_state_transition_spec_witness :
  Status.is_valid_state_transition 2 0 = true
  <-> (2 <= Status.STRATEGY_MAX_STATE
       /\ 0 <= Status.STRATEGY_MAX_STATE
       /\ 2 <> 0
       /\ ~ (2 = Status.STRATEGY_STATE_ACTIVE
             /\ 0 = Status.STRATEGY_STATE_INITIALIZED)).
Proof. apply (is_valid_state_transition_spec 2 0); lia. Defined.

(** X2. [requires_state_recovery] holds exactly for [ERROR] and
    [TRANSITIONING], and from a state that requires recovery both [ACTIVE]
    and [INITIALIZED] can be entered directly. [is_error_state] holds
    exactly for [ERROR], whatever the state value, so every error state
    requires recovery. *)
Theorem requires_state_recovery_recoverable (status : Z) :
  (Status.requires_state_recovery status = true
   <-> status = Status.STRATEGY_STATE_ERROR
       \/ status = Status.STRATEGY_STATE_TRANSITIONING)
  /\ (Status.requires_state_recovery status = true ->
      Status.is_valid_state_transition status Status.STRATEGY_STATE_ACTIVE
      = true
      /\ Status.is_valid_state_transition status
           Status.STRATEGY_STATE_INITIALIZED
         = true)
  /\ (Status.is_error_state status = true
      <-> status = Status.STRATEGY_STATE_ERROR)
  /\ (Status.is_error_state status = true ->
      Status.requires_state_recovery status = true).
Proof.
  assert (Hreq : Status.requires_state_recovery status = true
                 <-> status = Status.STRATEGY_STATE_ERROR
                     \/ status = Status.STRATEGY_STATE_TRANSITIONING).
  { unfold Status.requires_state_recovery.
    split.
    - destruct (status >? Status.STRATEGY_MAX_STATE); [discriminate|].
      intros H. apply orb_true_iff in H.
      destruct H as [H | H]; apply Z.eqb_eq in H; auto.
    - intros [-> | ->]; reflexivity. }
  assert (Herr : Status.is_error_state status = true
                 <-> status = Status.STRATEGY_STATE_ERROR).
  { unfold Status.is_error_state. split.
    - intros H. apply andb_true_iff in H. destruct H as [_ H].
      apply Z.eqb_eq in H. exact H.
    - intros ->. reflexivity. }
  split; [exact Hreq|]. split.
  - intros H. apply Hreq in H. destruct H as [-> | ->]; split; reflexivity.
  - split; [exact Herr|].
    intros H. apply Hreq. left. apply Herr. exact H.
Qed.

(** X2 at work: [TRANSITIONING] requires recovery and is no error state. *)
Lemma requires_state_recovery_recoverable_witness :
  (Status.is_valid_state_transition Status.STRATEGY_STATE_TRANSITIONING
     Status.STRATEGY_STATE_ACTIVE = true
   /\ Status.is_valid_state_transition Status.STRATEGY_STATE_TRANSITIONING
        Status.STRATEGY_STATE_INITIALIZED = true)
  /\ Status.is_error_state Status.STRATEGY_STATE_TRANSITIONING <> true.
Proof.
  pose proof (requires_state_recovery_recoverable
                Status.STRATEGY_STATE_TRANSITIONING)
    as (_ & Hrec & Herr & _).
  split.
  - apply Hrec. reflexivity.
  - intros H. apply Herr in H. discriminate.
Defined.

Lemma uncontended_race_free (sc : schedule) : uncontended sc -> race_free sc.
Proof.
  unfold uncontended, race_free.
  induction 1 as [|e l He _ IH]; constructor; [subst e; reflexivity | exact IH].
Qed.

Lemma uncontended_app_r (l1 l2 : list cas_event) :
  uncontended (l1 ++ l2) -> uncontended l2.
Proof. unfold uncontended. rewrite Forall_app. tauto. Qed.

Lemma increment_retry_race_free (n : nat) (c : Z) (sc : schedule)
    (r : Status.StrategyResult) (c' : Z) (sc' : schedule) :
  0 <= c <= UINT64_MAX -> race_free sc ->
  Status.increment_retry n c sc = (r, c', sc') ->
  race_free sc'
  /\ ((r = Status.STRATEGY_SUCCESS /\ c < UINT64_MAX /\ c' = c + 1)
      \/ (r <> Status.STRATEGY_SUCCESS /\ c' = c)).
Proof.
  revert sc. induction n as [|n IH]; intros sc Hc Hrf H.
  - simpl in H. unfold ret in H. inversion H; subst.
    split; [assumption|]. right. split; [discriminate | reflexivity].
  - simpl in H. unfold Status.check_counter_overflow in H.
    destruct (Z.geb_spec c UINT64_MAX) as [Hge|Hlt].
    + unfold ret in H. inversion H; subst.
      split; [assumption|]. right. split; [discriminate | reflexivity].
    + unfold Status.perform_atomic_increment, bind in H.
      rewrite cas_weak_unfold in H. cbv zeta in H.
      rewrite (race_free_hd wrap64 sc c Hrf) in H.
      rewrite Z.eqb_refl in H.
      pose proof (race_free_tl sc Hrf) as Hrf'.
      destruct (hd CasQuiet sc) eqn:Hhd; cbn [Status.is_success] in H.
      * unfold ret in H. inversion H; subst. split; [assumption|].
        left. split; [reflexivity|]. split; [assumption|].
        unfold wrap64. apply Z.mod_small. unfold UINT64_MAX in *. lia.
      * apply IH in H; assumption.
      * unfold ret in H. inversion H; subst. split; [assumption|].
        left. split; [reflexivity|]. split; [assumption|].
        unfold wrap64. apply Z.mod_small. unfold UINT64_MAX in *. lia.
Qed.

Lemma transition_retry_race_free (n : nat) (status new_status : Z)
    (sc : schedule) :
  race_free sc ->
  Status.transition_retry (S n) status new_status sc
  = match Status.validate_state_transition status new_status with
    | Status.STRATEGY_SUCCESS => (Status.STRATEGY_SUCCESS, new_status, tl sc)
    | v => (v, status, sc)
    end.
Proof.
  intros Hrf. cbn [Status.transition_retry].
  destruct (Status.validate_state_transition status new_status) eqn:Hv;
    try reflexivity.
  unfold Status.perform_atomic_operation, bind.
  rewrite cas_strong_unfold. cbv zeta.
  rewrite (race_free_hd wrap32 sc status Hrf), Z.eqb_refl.
  reflexivity.
Qed.

Lemma validate_state_transition_cases (current next : Z) :
  Status.validate_state_transition current next = Status.STRATEGY_SUCCESS
  \/ Status.validate_state_transition current next
     = Status.STRATEGY_INVALID_STATE.
Proof.
  unfold Status.validate_state_transition.
  destruct (_ || _); [auto|]. destruct (_ =? 0); auto.
Qed.

(** What one call does when no other thread stores to the tracker. *)
Lemma transition_status_race_free (t : Status.StatusTracker) (new_status : Z)
    (sc : schedule) :
  race_free sc ->
  Status.transition_status (Some t) new_status sc
  = if (new_status >? Status.STRATEGY_MAX_STATE)
       || negb (Status.is_valid_state_transition (Status.current_status t)
                  new_status)
    then (Status.STRATEGY_INVALID_STATE, Some t, sc)
    else
      let '(r, t2, sc2) :=
        Status.update_transition_counters
          (Status.mkTracker new_status (Status.transition_count t)
             (Status.error_count t)) new_status (tl sc) in
      (r, Some t2, sc2).
Proof.
  intros Hrf. unfold Status.transition_status, Status.validate_transition_input.
  destruct (Z.gtb_spec new_status Status.STRATEGY_MAX_STATE) as [Hgt|Hle];
    cbn [orb]; [reflexivity|].
  unfold Status.handle_state_transition, Status.atomic_transition_status.
  unfold bind at 1. unfold bind at 1.
  change Status.STRATEGY_MAX_RETRIES with (S 2).
  rewrite (transition_retry_race_free _ _ _ _ Hrf).
  unfold Status.is_valid_state_transition.
  destruct (validate_state_transition_cases (Status.current_status t)
              new_status) as [Hv|Hv]; rewrite Hv;
    cbn [Status.is_success negb ret].
  - unfold bind.
    destruct (Status.update_transition_counters _ _ _) as [[r t2] sc2].
    reflexivity.
  - unfold ret. rewrite tracker_eta. reflexivity.
Qed.

Lemma update_transition_counters_race_free (t : Status.StatusTracker)
    (new_status : Z) (sc : schedule) (r : Status.StrategyResult)
    (t' : Status.StatusTracker) (sc' : schedule) :
  0 <= Status.transition_count t <= UINT64_MAX ->
  0 <= Status.error_count t <= UINT64_MAX ->
  race_free sc ->
  Status.update_transition_counters t new_status sc = (r, t', sc') ->
  race_free sc'
  /\ Status.current_status t' = Status.current_status t
  /\ Status.transition_count t <= Status.transition_count t'
     <= Z.min (Status.transition_count t + 1) UINT64_MAX
  /\ Status.error_count t <= Status.error_count t'
     <= Z.min (Status.error_count t + 1) UINT64_MAX
  /\ (new_status <> Status.STRATEGY_STATE_ERROR ->
      Status.error_count t' = Status.error_count t)
  /\ (r = Status.STRATEGY_SUCCESS ->
      Status.transition_count t' = Status.transition_count t + 1
      /\ (new_status = Status.STRATEGY_STATE_ERROR ->
          Status.error_count t' = Status.error_count t + 1)).
Proof.
  intros Htc Hec Hrf H.
  unfold Status.update_transition_counters, Status.atomic_increment_with_check,
    bind in H.
  destruct (Status.increment_retry _ (Status.transition_count t) sc)
    as [[r1 tc] sc1] eqn:H1.
  apply increment_retry_race_free in H1; [|assumption..].
  destruct H1 as (Hrf1 & H1).
  cbn [Status.current_status Status.transition_count Status.error_count] in H.
  destruct (Status.is_success r1) eqn:Hs1; cbn [negb] in H.
  - destruct r1; try discriminate.
    destruct H1 as [(_ & Hlt & ->)|(Hne & _)]; [|congruence].
    destruct (Z.eqb_spec new_status Status.STRATEGY_STATE_ERROR) as [He|He].
    + destruct (Status.increment_retry _ (Status.error_count t) sc1)
        as [[r2 ec] sc2] eqn:H2.
      apply increment_retry_race_free in H2; [|assumption..].
      destruct H2 as (Hrf2 & H2).
      unfold ret in H. inversion H; subst r t' sc'.
      cbn [Status.current_status Status.transition_count Status.error_count].
      split; [assumption|]. split; [reflexivity|].
      destruct H2 as [(-> & Hlt2 & ->)|(Hne & ->)].
      * repeat split; try lia; intros; congruence.
      * repeat split; try lia; intros; congruence.
    + unfold ret in H. inversion H; subst r t' sc'.
      cbn [Status.current_status Status.transition_count Status.error_count].
      split; [assumption|]. split; [reflexivity|].
      repeat split; try lia; intros; congruence.
  - unfold ret in H. inversion H; subst r t' sc'.
    cbn [Status.current_status Status.transition_count Status.error_count].
    split; [assumption|]. split; [reflexivity|].
    destruct H1 as [(-> & _)|(Hne & ->)]; [discriminate|].
    repeat split; try lia; intros; congruence.
Qed.

(** X3. While no other thread stores to the tracker, a call of
    [transition_status] moves each counter by at most one, never past
    [UINT64_MAX] and never backwards; [error_count] moves only when the
    requested state is [ERROR]; and a successful call has counted its
    transition. *)
Theorem transition_status_counters_never_wrap (t : Status.StatusTracker)
    (new_status : Z) (sc : schedule) (r : Status.StrategyResult)
    (t' : Status.StatusTracker) (sc' : schedule) :
  0 <= Status.transition_count t <= UINT64_MAX ->
  0 <= Status.error_count t <= UINT64_MAX ->
  race_free sc ->
  Status.transition_status (Some t) new_status sc = (r, Some t', sc') ->
  Status.transition_count t <= Status.transition_count t'
  <= Z.min (Status.transition_count t + 1) UINT64_MAX
  /\ Status.error_count t <= Status.error_count t'
     <= Z.min (Status.error_count t + 1) UINT64_MAX
  /\ (new_status <> Status.STRATEGY_STATE_ERROR ->
      Status.error_count t' = Status.error_count t)
  /\ (r = Status.STRATEGY_SUCCESS ->
      Status.current_status t' = new_status
      /\ Status.transition_count t' = Status.transition_count t + 1
      /\ (new_status = Status.STRATEGY_STATE_ERROR ->
          Status.error_count t' = Status.error_count t + 1)).
Proof.
  intros Htc Hec Hrf H.
  rewrite (transition_status_race_free _ _ _ Hrf) in H.
  destruct (_ || _).
  - inversion H; subst. repeat split; try lia; intros; discriminate.
  - destruct (Status.update_transition_counters _ _ _) as [[r2 t2] sc2] eqn:Hu.
    inversion H; subst r2 t2 sc2.
    apply update_transition_counters_race_free in Hu;
      [|assumption || apply race_free_tl; assumption ..].
    cbn [Status.current_status Status.transition_count Status.error_count]
      in Hu.
    destruct Hu as (_ & Hcs & Ht & He & Hne & Hs).
    repeat split; try tauto; try lia; try (apply Hs; assumption).
Qed.

(** X3 at work: with [transition_count] one below its maximum the
    transition is counted, and the counter stops there. *)
Lemma transition_status_counters_never_wrap_witness :
  UINT64_MAX - 1 <= UINT64_MAX
  <= Z.min (UINT64_MAX - 1 + 1) UINT64_MAX
  /\ 0 <= 0 <= Z.min (0 + 1) UINT64_MAX
  /\ (1 <> Status.STRATEGY_STATE_ERROR -> 0 = 0)
  /\ (Status.STRATEGY_SUCCESS = Status.STRATEGY_SUCCESS ->
      1 = 1
      /\ UINT64_MAX = UINT64_MAX - 1 + 1
      /\ (1 = Status.STRATEGY_STATE_ERROR -> 0 = 0 + 1)).
Proof.
  apply (transition_status_counters_never_wrap
           (Status.mkTracker 0 (UINT64_MAX - 1) 0) 1 [CasSpurious]
           Status.STRATEGY_SUCCESS (Status.mkTracker 1 UINT64_MAX 0) []).
  - vm_compute. split; congruence.
  - vm_compute. split; congruence.
  - repeat constructor.
  - reflexivity.
Defined.

Lemma update_transition_counters_uncontended (t : Status.StatusTracker)
    (new_status : Z) (sc : schedule) :
  uncontended sc ->
  0 <= Status.transition_count t < UINT64_MAX ->
  0 <= Status.error_count t < UINT64_MAX ->
  exists sc',
    Status.update_transition_counters t new_status sc
    = (Status.STRATEGY_SUCCESS,
       Status.mkTracker (Status.current_status t)
         (Status.transition_count t + 1)
         (if new_status =? Status.STRATEGY_STATE_ERROR
          then Status.error_count t + 1
          else Status.error_count t),
       sc')
    /\ uncontended sc'.
Proof.
  intros Hu Htc Hec.
  unfold Status.update_transition_counters, Status.atomic_increment_with_check,
    bind.
  change Status.STRATEGY_MAX_RETRIES with (S 2).
  rewrite (increment_retry_uncontended _ _ _ Hu Htc).
  cbn [Status.is_success negb Status.current_status Status.transition_count
       Status.error_count].
  pose proof (uncontended_tl _ Hu) as Hu1.
  destruct (new_status =? Status.STRATEGY_STATE_ERROR).
  - rewrite (increment_retry_uncontended _ _ _ Hu1 Hec).
    unfold ret. eexists. split; [reflexivity|].
    apply uncontended_tl. assumption.
  - unfold ret. eexists. split; [reflexivity | assumption].
Qed.

Lemma run_transitions_fsm (reqs : list Z) (t : Status.StatusTracker)
    (sc : schedule) :
  uncontended sc ->
  0 <= Status.transition_count t -> 0 <= Status.error_count t ->
  Status.transition_count t + Z.of_nat (length reqs) <= UINT64_MAX ->
  Status.error_count t + Z.of_nat (length reqs) <= UINT64_MAX ->
  fst (run_transitions reqs t sc) = fsm_run reqs t.
Proof.
  revert t sc. induction reqs as [|s rest IH]; intros t sc Hu Htc Hec Hbt Hbe.
  - reflexivity.
  - cbn [run_transitions fsm_run]. unfold bind at 1.
    rewrite (transition_status_race_free _ _ _ (uncontended_race_free _ Hu)).
    cbn [length] in Hbt, Hbe.
    destruct (Status.is_valid_state_transition (Status.current_status t) s)
      eqn:Hv.
    + assert (Hle : (s >? Status.STRATEGY_MAX_STATE) = false).
      { unfold Status.is_valid_state_transition,
          Status.validate_state_transition in Hv.
        destruct (s >? Status.STRATEGY_MAX_STATE); [|reflexivity].
        rewrite orb_true_r in Hv. discriminate. }
      rewrite Hle. cbn [orb negb].
      destruct (update_transition_counters_uncontended
                  (Status.mkTracker s (Status.transition_count t)
                     (Status.error_count t)) s (tl sc))
        as (sc' & Heq & Hu').
      { apply uncontended_tl. assumption. }
      { cbn [Status.transition_count]. lia. }
      { cbn [Status.error_count]. lia. }
      rewrite Heq.
      cbn [Status.current_status Status.transition_count Status.error_count].
      cbv zeta. unfold bind.
      specialize (IH (Status.mkTracker s (Status.transition_count t + 1)
                        (if s =? Status.STRATEGY_STATE_ERROR
                         then Status.error_count t + 1
                         else Status.error_count t)) sc' Hu').
      cbn [Status.transition_count Status.error_count] in IH.
      destruct (run_transitions rest _ sc') as [[rs t2] sc2].
      cbn [fst] in IH. rewrite <- IH.
      * reflexivity.
      * lia.
      * destruct (s =? _); lia.
      * lia.
      * destruct (s =? _); lia.
    + rewrite orb_true_r. cbv zeta. unfold bind.
      specialize (IH t sc Hu Htc Hec).
      destruct (run_transitions rest t sc) as [[rs t2] sc2].
      cbn [fst] in IH. rewrite <- IH; [reflexivity | lia | lia].
Qed.

Lemma fsm_run_counts (reqs : list Z) (t : Status.StatusTracker) :
  Status.transition_count (snd (fsm_run reqs t))
  = Status.transition_count t
    + Z.of_nat (length (List.filter Status.is_success (fst (fsm_run reqs t)))).
Proof.
  revert t. induction reqs as [|s rest IH]; intros t.
  - simpl. lia.
  - cbn [fsm_run].
    destruct (Status.is_valid_state_transition _ _).
    + specialize (IH (Status.mkTracker s (Status.transition_count t + 1)
                        (if s =? Status.STRATEGY_STATE_ERROR
                         then Status.error_count t + 1
                         else Status.error_count t))).
      destruct (fsm_run rest _) as [rs t']. cbn [fst snd] in *.
      cbn [List.filter Status.is_success length]. rewrite IH.
      cbn [Status.transition_count]. lia.
    + specialize (IH t).
      destruct (fsm_run rest t) as [rs t']. cbn [fst snd] in *.
      cbn [List.filter Status.is_success]. exact IH.
Qed.

(** X4. Run without interference, a tracker is the automaton of the
    transition matrix: a sequence of [transition_status] calls returns
    [STRATEGY_SUCCESS] for exactly the requests that
    [is_valid_state_transition] allows from the state reached so far and
    [STRATEGY_INVALID_STATE] for the others, and afterwards
    [get_transition_count] reports the number of successful calls made
    (as long as the counters do not reach [UINT64_MAX]). *)
Theorem run_transitions_automaton (reqs : list Z) (t : Status.StatusTracker)
    (sc : schedule) :
  uncontended sc ->
  0 <= Status.transition_count t -> 0 <= Status.error_count t ->
  Status.transition_count t + Z.of_nat (length reqs) <= UINT64_MAX ->
  Status.error_count t + Z.of_nat (length reqs) <= UINT64_MAX ->
  fst (run_transitions reqs t sc) = fsm_run reqs t
  /\ Status.get_transition_count (Some (snd (fst (run_transitions reqs t sc))))
       true
     = (Status.STRATEGY_SUCCESS,
        Some (Status.transition_count t
              + Z.of_nat
                  (length (List.filter Status.is_success
                             (fst (fst (run_transitions reqs t sc))))))).
Proof.
  intros Hu Htc Hec Hbt Hbe.
  pose proof (run_transitions_fsm reqs t sc Hu Htc Hec Hbt Hbe) as H.
  split; [exact H|].
  rewrite H. cbn [Status.get_transition_count].
  rewrite fsm_run_counts. reflexivity.
Qed.

(** X4 at work, from a freshly initialised tracker: the second request
    ([ACTIVE -> INITIALIZED]) and the fourth ([ERROR -> ERROR]) are refused,
    the four others are counted. *)
Lemma run_transitions_automaton_witness :
  fst (run_transitions [1; 0; 2; 2; 3; 1] (Status.mkTracker 0 0 0) [])
  = fsm_run [1; 0; 2; 2; 3; 1] (Status.mkTracker 0 0 0)
  /\ Status.get_transition_count
       (Some (snd (fst (run_transitions [1; 0; 2; 2; 3; 1]
                          (Status.mkTracker 0 0 0) [])))) true
     = (Status.STRATEGY_SUCCESS,
        Some (Status.transition_count (Status.mkTracker 0 0 0)
              + Z.of_nat
                  (length
                     (List.filter Status.is_success
                        (fst (fst (run_transitions [1; 0; 2; 2; 3; 1]
                                     (Status.mkTracker 0 0 0) []))))))).
Proof.
  apply (run_transitions_automaton [1; 0; 2; 2; 3; 1]
           (Status.mkTracker 0 0 0) []).
  - constructor.
  - simpl. lia.
  - simpl. lia.
  - vm_compute. congruence.
  - vm_compute. congruence.
Defined.

(** ** The statistics ledger without interference *)

Lemma counter_retry_race_free (n : nat) (counter value : Z)
    (is_increment : bool) (sc : schedule) :
  race_free sc ->
  Stats.counter_retry (S n) counter value is_increment sc
  = (true,
     if is_increment then wrap64 (counter + value)
     else wrap64 (counter - value),
     tl sc).
Proof.
  intros Hrf. cbn [Stats.counter_retry]. unfold bind.
  rewrite cas_strong_unfold. cbv zeta.
  rewrite (race_free_hd wrap64 sc counter Hrf), Z.eqb_refl.
  reflexivity.
Qed.

Lemma allocation_bytes_retry_race_free (n : nat) (cur peak sz : Z)
    (sc : schedule) :
  race_free sc ->
  Stats.allocation_bytes_retry (S n) cur peak sz sc
  = (wrap64 (cur + sz),
     if wrap64 (cur + sz) >? peak then wrap64 (cur + sz) else peak,
     tl sc).
Proof.
  intros Hrf. cbn [Stats.allocation_bytes_retry]. unfold bind.
  rewrite cas_strong_unfold. cbv zeta.
  rewrite (race_free_hd wrap64 sc cur Hrf), Z.eqb_refl.
  reflexivity.
Qed.

(** [memory_stats_update_allocation] of a non-null pointer when no other
    thread stores to the counters. *)
Lemma update_allocation_race_free (st : Stats.memory_stats_t) (p sz : Z)
    (f : string) (l now : Z) (sc : schedule) :
  p <> 0 -> race_free sc ->
  Stats.memory_stats_update_allocation st p sz f l now sc
  = (let nc := wrap64 (Stats.current_bytes st + sz) in
     let stats :=
       Stats.set_bytes
         (Stats.set_alloc_count st (wrap64 (Stats.alloc_count st + 1)))
         nc (if nc >? Stats.peak_bytes st then nc else Stats.peak_bytes st) in
     let stats :=
       match Stats.find_free_slot_retry Stats.MAX_RETRY_ATTEMPTS
               (Stats.active_allocations stats)
       with
       | (Some slot, slots) =>
           Stats.set_tracking stats
             (<[slot := Stats.mkSlot p sz f l (wrap64 now) 1 0]> slots)
             (wrap32 (Stats.active_allocation_count stats + 1))
             (wrap64 (Stats.total_leaked_bytes stats + sz))
       | (None, _) => stats
       end in
     let stats :=
       Stats.set_size_distribution stats
         (Stats.update_size_distribution (Stats.size_distribution stats) sz) in
     Stats.record_allocation stats sz now,
     tl (tl sc)).
Proof.
  intros Hp Hrf. unfold Stats.memory_stats_update_allocation.
  destruct (Z.eqb_spec p 0) as [|_]; [contradiction|].
  unfold Stats.update_counter_with_retry.
  change Stats.MAX_COUNTER_RETRIES with (S 4).
  change Stats.MAX_RETRY_ATTEMPTS with (S 9).
  unfold bind at 1.
  rewrite (counter_retry_race_free _ _ _ _ _ Hrf).
  unfold bind at 1.
  cbn [Stats.current_bytes Stats.peak_bytes Stats.set_alloc_count].
  rewrite (allocation_bytes_retry_race_free _ _ _ _ _ (race_free_tl _ Hrf)).
  reflexivity.
Qed.

Lemma deallocation_bytes_retry_race_free_eq (n : nat) (cur sz : Z)
    (sc : schedule) :
  race_free sc ->
  Stats.deallocation_bytes_retry (S n) cur sz sc
  = if cur <? sz then (cur, sc) else (wrap64 (cur - sz), tl sc).
Proof.
  intros Hrf. cbn [Stats.deallocation_bytes_retry].
  destruct (cur <? sz); [reflexivity|].
  unfold bind. rewrite cas_strong_unfold. cbv zeta.
  rewrite (race_free_hd wrap64 sc cur Hrf), Z.eqb_refl.
  reflexivity.
Qed.

(** [memory_stats_update_deallocation] when no other thread stores to the
    counters. *)
Lemma update_deallocation_race_free_eq (st : Stats.memory_stats_t) (p : Z)
    (sc : schedule) :
  race_free sc ->
  Stats.memory_stats_update_deallocation st p sc
  = let '(sz, stats) := Stats.find_and_remove_allocation st p in
    if sz =? 0 then (stats, sc)
    else
      let stats' :=
        Stats.set_free_count stats (wrap64 (Stats.free_count stats + 1)) in
      if Stats.current_bytes stats <? sz
      then (Stats.set_bytes stats' (Stats.current_bytes stats)
              (Stats.peak_bytes stats), tl sc)
      else (Stats.set_bytes stats' (wrap64 (Stats.current_bytes stats - sz))
              (Stats.peak_bytes stats), tl (tl sc)).
Proof.
  intros Hrf. unfold Stats.memory_stats_update_deallocation.
  destruct (Z.eqb_spec p 0) as [->|Hp].
  { unfold Stats.find_and_remove_allocation. rewrite Z.eqb_refl. reflexivity. }
  destruct (Stats.find_and_remove_allocation st p) as [sz stats].
  destruct (sz =? 0); [reflexivity|].
  unfold Stats.update_counter_with_retry.
  change Stats.MAX_COUNTER_RETRIES with (S 4).
  change Stats.MAX_RETRY_ATTEMPTS with (S 9).
  unfold bind at 1.
  rewrite (counter_retry_race_free _ _ _ _ _ Hrf).
  unfold bind.
  cbn [Stats.current_bytes Stats.peak_bytes Stats.set_free_count].
  rewrite (deallocation_bytes_retry_race_free_eq _ _ _ _ (race_free_tl _ Hrf)).
  destruct (Stats.current_bytes stats <? sz); reflexivity.
Qed.

Lemma update_size_distribution_thresholds (buckets : list Stats.size_bucket)
    (sz : Z) :
  map Stats.size_threshold (Stats.update_size_distribution buckets sz)
  = map Stats.size_threshold buckets.
Proof.
  induction buckets as [|b rest IH]; [reflexivity|].
  cbn [Stats.update_size_distribution].
  destruct (sz <=? Stats.size_threshold b); [reflexivity|].
  cbn [map]. rewrite IH. reflexivity.
Qed.

Lemma find_and_remove_from_frame (fuel i : nat) (st : Stats.memory_stats_t)
    (ptr : Z) :
  let st' := snd (Stats.find_and_remove_from fuel i st ptr) in
  Stats.size_distribution st' = Stats.size_distribution st
  /\ Stats.alloc_count st' = Stats.alloc_count st
  /\ Stats.free_count st' = Stats.free_count st
  /\ Stats.current_bytes st' = Stats.current_bytes st
  /\ Stats.peak_bytes st' = Stats.peak_bytes st
  /\ Stats.recent_allocations st' = Stats.recent_allocations st
  /\ Stats.allocation_history_index st' = Stats.allocation_history_index st.
Proof.
  revert i. induction fuel as [|fuel IH]; intros i; cbn [Stats.find_and_remove_from].
  - cbn [snd]. auto 10.
  - destruct (Stats.active_allocations st !! i) as [s|]; [|cbn [snd]; auto 10].
    destruct (_ || _); [apply IH|].
    destruct (negb _); [apply IH|].
    cbn [snd]. unfold Stats.set_tracking. cbn. auto 10.
Qed.

Lemma find_and_remove_allocation_frame (st : Stats.memory_stats_t) (ptr : Z) :
  let st' := snd (Stats.find_and_remove_allocation st ptr) in
  Stats.size_distribution st' = Stats.size_distribution st
  /\ Stats.alloc_count st' = Stats.alloc_count st
  /\ Stats.free_count st' = Stats.free_count st
  /\ Stats.current_bytes st' = Stats.current_bytes st
  /\ Stats.peak_bytes st' = Stats.peak_bytes st
  /\ Stats.recent_allocations st' = Stats.recent_allocations st
  /\ Stats.allocation_history_index st' = Stats.allocation_history_index st.
Proof.
  unfold Stats.find_and_remove_allocation.
  destruct (ptr =? 0); [cbn [snd]; auto 10|].
  apply find_and_remove_from_frame.
Qed.

Lemma update_allocation_thresholds (st : Stats.memory_stats_t) (p sz : Z)
    (f : string) (l now : Z) (sc : schedule) :
  map Stats.size_threshold
    (Stats.size_distribution
       (fst (Stats.memory_stats_update_allocation st p sz f l now sc)))
  = map Stats.size_threshold (Stats.size_distribution st).
Proof.
  unfold Stats.memory_stats_update_allocation.
  destruct (p =? 0); [reflexivity|].
  unfold bind.
  destruct (Stats.update_counter_with_retry _ _ _ sc) as [[b ac] sc1].
  destruct (Stats.allocation_bytes_retry _ _ _ _ sc1) as [[cur peak] sc2].
  destruct (Stats.find_free_slot_retry _ _) as [[slot|] slots];
    unfold ret; cbn [fst];
    unfold Stats.record_allocation, Stats.set_history,
      Stats.set_size_distribution, Stats.set_tracking, Stats.set_bytes,
      Stats.set_alloc_count;
    cbn [Stats.size_distribution];
    apply update_size_distribution_thresholds.
Qed.

Lemma update_deallocation_thresholds (st : Stats.memory_stats_t) (p : Z)
    (sc : schedule) :
  Stats.size_distribution
    (fst (Stats.memory_stats_update_deallocation st p sc))
  = Stats.size_distribution st.
Proof.
  unfold Stats.memory_stats_update_deallocation.
  destruct (p =? 0); [reflexivity|].
  pose proof (find_and_remove_allocation_frame st p) as Hf. cbv zeta in Hf.
  destruct (Stats.find_and_remove_allocation st p) as [sz st1].
  cbn [snd] in Hf. destruct Hf as (Hsd & _).
  destruct (sz =? 0); [exact Hsd|].
  unfold bind.
  destruct (Stats.update_counter_with_retry _ _ _ sc) as [[b fc] sc1].
  destruct (Stats.deallocation_bytes_retry _ _ _ sc1) as [cur sc2].
  unfold ret. cbn [fst]. exact Hsd.
Qed.

Lemma apply_updates_thresholds (us : list ledger_update)
    (st : Stats.memory_stats_t) (sc : schedule) :
  map Stats.size_threshold
    (Stats.size_distribution (fst (apply_updates us st sc)))
  = map Stats.size_threshold (Stats.size_distribution st).
Proof.
  revert st sc. induction us as [|u rest IH]; intros st sc; [reflexivity|].
  cbn [apply_updates]. unfold bind.
  destruct (apply_update u st sc) as [st1 sc1] eqn:Hu.
  rewrite IH.
  destruct u as [p sz f l now|p]; cbn [apply_update] in Hu.
  - pose proof (update_allocation_thresholds st p sz f l now sc) as H.
    rewrite Hu in H. exact H.
  - pose proof (update_deallocation_thresholds st p sc) as H.
    rewrite Hu in H. cbn [fst] in H. rewrite H. reflexivity.
Qed.

Lemma init_pattern_history_replicate (h : list Stats.history_entry) :
  Stats.init_pattern_history h = replicate (length h) (Stats.mkHistory 0 0).
Proof.
  unfold Stats.init_pattern_history.
  induction h as [|e h IH]; [reflexivity|].
  cbn [map length replicate]. rewrite IH. reflexivity.
Qed.

Lemma init_active_alloc_zeroed (slots : list Stats.allocation_slot) :
  Stats.init_active_alloc slots = replicate (length slots) Stats.init_slot
  <-> Forall (fun s => Stats.file s = EmptyString /\ Stats.line s = 0) slots.
Proof.
  unfold Stats.init_active_alloc, Stats.init_slot.
  induction slots as [|s slots IH]; [split; [constructor | reflexivity]|].
  cbn [map length replicate]. split.
  - intros H. injection H as Hf Hl Hrest.
    constructor; [split; assumption | apply IH; exact Hrest].
  - intros H. inversion H as [|? ? [Hf Hl] Hrest]; subst.
    rewrite Hf, Hl. f_equal. apply IH. exact Hrest.
Qed.

Lemma memory_stats_init_over_zeroed :
  Stats.memory_stats_init_over Stats.zeroed_stats = Stats.memory_stats_init.
Proof. vm_compute. reflexivity. Qed.

(** X5. [memory_stats_reset] after any sequence of allocation and
    deallocation updates on a ledger that [memory_stats_init] initialised
    over any storage, whatever the other threads did, gives the ledger
    that [memory_stats_init] makes of zero-filled storage: the bucket
    thresholds are never changed by an update, and everything else is
    zeroed. That is the ledger [memory_stats_init] had made exactly when
    the [file] and [line] of every slot of the storage were zero, the two
    fields that initialisation leaves unwritten and reset clears. *)
Theorem memory_stats_reset_gives_zeroed_init (storage : Stats.memory_stats_t)
    (us : list ledger_update) (sc : schedule) :
  length (Stats.active_allocations storage)
  = Stats.STATS_MAX_TRACKED_ALLOCATIONS ->
  length (Stats.recent_allocations storage)
  = Z.to_nat Stats.STATS_PATTERN_HISTORY_SIZE ->
  let st0 := Stats.memory_stats_init_over storage in
  let st := Stats.memory_stats_reset (fst (apply_updates us st0 sc)) in
  st = Stats.memory_stats_init_over Stats.zeroed_stats
  /\ (st = st0
      <-> Forall (fun s => Stats.file s = EmptyString /\ Stats.line s = 0)
            (Stats.active_allocations storage)).
Proof.
  intros Hslots Hhist. cbv zeta.
  assert (Hreset :
            Stats.memory_stats_reset
              (fst (apply_updates us (Stats.memory_stats_init_over storage) sc))
            = Stats.memory_stats_init).
  { pose proof (apply_updates_thresholds us
                  (Stats.memory_stats_init_over storage) sc) as H.
    unfold Stats.memory_stats_reset, Stats.memory_stats_init.
    f_equal.
    assert (Hm : forall l : list Stats.size_bucket,
               map (fun b => Stats.mkBucket (Stats.size_threshold b) 0) l
               = map (fun t => Stats.mkBucket t 0)
                   (map Stats.size_threshold l)).
    { intros l. rewrite map_map. reflexivity. }
    rewrite Hm, H. reflexivity. }
  rewrite Hreset, memory_stats_init_over_zeroed.
  split; [reflexivity|].
  unfold Stats.memory_stats_init, Stats.memory_stats_init_over. split.
  - intros H. apply (f_equal Stats.active_allocations) in H.
    cbn [Stats.active_allocations] in H. rewrite <- Hslots in H.
    apply init_active_alloc_zeroed. symmetry. exact H.
  - intros H. apply init_active_alloc_zeroed in H.
    rewrite H, Hslots, init_pattern_history_replicate, Hhist. reflexivity.
Qed.

(** X5 at work on stale storage: the ledger is initialised, one allocation
    is recorded and removed again, and the ledger is reset. *)
Lemma memory_stats_reset_gives_zeroed_init_witness :
  let st0 := Stats.memory_stats_init_over stale_storage in
  let st :=
    Stats.memory_stats_reset
      (fst (apply_updates
              [UpdateAllocation 4104 100 "main.c" 7 5; UpdateDeallocation 4104]
              st0 [])) in
  st = Stats.memory_stats_init_over Stats.zeroed_stats
  /\ (st = st0
      <-> Forall (fun s => Stats.file s = EmptyString /\ Stats.line s = 0)
            (Stats.active_allocations stale_storage)).
Proof.
  apply (memory_stats_reset_gives_zeroed_init stale_storage
           [UpdateAllocation 4104 100 "main.c" 7 5; UpdateDeallocation 4104]
           []);
    reflexivity.
Defined.

Lemma update_size_distribution_at (buckets : list Stats.size_bucket) (sz : Z)
    (i : nat) (b : Stats.size_bucket) :
  buckets !! i = Some b ->
  sz <= Stats.size_threshold b ->
  (forall (j : nat) (b' : Stats.size_bucket),
      (j < i)%nat -> buckets !! j = Some b' -> Stats.size_threshold b' < sz) ->
  Stats.update_size_distribution buckets sz
  = <[i := Stats.mkBucket (Stats.size_threshold b) (wrap64 (Stats.count b + 1))]>
      buckets.
Proof.
  revert i. induction buckets as [|b0 rest IH]; intros i Hi Hle Hlow.
  - discriminate.
  - cbn [Stats.update_size_distribution]. destruct i as [|i].
    + cbn in Hi. inversion Hi; subst b0.
      destruct (Z.leb_spec sz (Stats.size_threshold b)); [reflexivity | lia].
    + cbn in Hi.
      pose proof (Hlow 0%nat b0 ltac:(lia) eq_refl) as H0.
      destruct (Z.leb_spec sz (Stats.size_threshold b0)); [lia|].
      cbn [insert list_insert]. f_equal.
      apply IH; [assumption.. |].
      intros j b' Hj Hjb. apply (Hlow (S j) b'); [lia | exact Hjb].
Qed.

Lemma least_admitting_bucket (buckets : list Stats.size_bucket) (sz : Z) :
  (exists b, b ∈ buckets /\ sz <= Stats.size_threshold b) ->
  exists (i : nat) (b : Stats.size_bucket),
    buckets !! i = Some b
    /\ sz <= Stats.size_threshold b
    /\ forall (j : nat) (b' : Stats.size_bucket),
        (j < i)%nat -> buckets !! j = Some b' -> Stats.size_threshold b' < sz.
Proof.
  induction buckets as [|b0 rest IH]; intros (b & Hin & Hle).
  - inversion Hin.
  - destruct (Z.le_gt_cases sz (Stats.size_threshold b0)) as [H0|H0].
    + exists 0%nat, b0. split; [reflexivity|]. split; [assumption|].
      intros j b' Hj. lia.
    + destruct IH as (i & bi & Hi & Hlei & Hlow).
      { exists b. split; [|assumption].
        apply elem_of_cons in Hin. destruct Hin as [->|Hin]; [lia | assumption]. }
      exists (S i), bi. split; [exact Hi|]. split; [assumption|].
      intros [|j] b' Hj Hjb.
      * cbn in Hjb. inversion Hjb; subst. lia.
      * apply (Hlow j b'); [lia | exact Hjb].
Qed.

(** X6. With the thresholds of [memory_stats_init], every [size_t] size is
    counted by [update_size_distribution] in exactly one bucket: the first
    whose threshold is not below the size (the last threshold, [SIZE_MAX],
    admits every size); the other buckets and all thresholds are left as
    they were. *)
Theorem update_size_distribution_least_bucket
    (buckets : list Stats.size_bucket) (sz : Z) :
  map Stats.size_threshold buckets = Stats.size_thresholds ->
  0 <= sz <= SIZE_MAX ->
  exists (i : nat) (b : Stats.size_bucket),
    (i < Stats.STATS_SIZE_BUCKET_COUNT)%nat
    /\ buckets !! i = Some b
    /\ sz <= Stats.size_threshold b
    /\ (forall (j : nat) (b' : Stats.size_bucket),
           (j < i)%nat -> buckets !! j = Some b' ->
           Stats.size_threshold b' < sz)
    /\ Stats.update_size_distribution buckets sz
       = <[i := Stats.mkBucket (Stats.size_threshold b)
                  (wrap64 (Stats.count b + 1))]> buckets.
Proof.
  intros Hth Hsz.
  destruct (least_admitting_bucket buckets sz) as (i & b & Hi & Hle & Hlow).
  { assert (Hlast : map Stats.size_threshold buckets !! 7%nat = Some SIZE_MAX).
    { rewrite Hth. reflexivity. }
    rewrite list_lookup_fmap in Hlast.
    destruct (buckets !! 7%nat) as [b7|] eqn:H7; [|discriminate].
    cbn in Hlast. inversion Hlast as [Hb7].
    exists b7. split; [|lia].
    apply (list_elem_of_lookup_2 _ 7%nat). exact H7. }
  exists i, b. split.
  { apply lookup_lt_Some in Hi.
    assert (Hlen : length buckets = 8%nat).
    { rewrite <- (length_map Stats.size_threshold), Hth. reflexivity. }
    unfold Stats.STATS_SIZE_BUCKET_COUNT. lia. }
  split; [assumption|]. split; [assumption|]. split; [assumption|].
  apply update_size_distribution_at; assumption.
Qed.

(** X6 at work on the initial buckets: 100 bytes are counted in the third
    bucket (threshold 128). *)
Lemma update_size_distribution_least_bucket_witness :
  exists (i : nat) (b : Stats.size_bucket),
    (i < Stats.STATS_SIZE_BUCKET_COUNT)%nat
    /\ Stats.size_distribution Stats.memory_stats_init !! i = Some b
    /\ 100 <= Stats.size_threshold b
    /\ (forall (j : nat) (b' : Stats.size_bucket),
           (j < i)%nat ->
           Stats.size_distribution Stats.memory_stats_init !! j = Some b' ->
           Stats.size_threshold b' < 100)
    /\ Stats.update_size_distribution
         (Stats.size_distribution Stats.memory_stats_init) 100
       = <[i := Stats.mkBucket (Stats.size_threshold b)
                  (wrap64 (Stats.count b + 1))]>
           (Stats.size_distribution Stats.memory_stats_init).
Proof.
  apply (update_size_distribution_least_bucket
           (Stats.size_distribution Stats.memory_stats_init) 100).
  - reflexivity.
  - vm_compute. split; congruence.
Defined.

Lemma slot_free_dec (s : Stats.allocation_slot) :
  slot_free s
  \/ (negb (Stats.valid s =? 0) = true
      \/ (negb (Stats.valid s =? 0) = false /\ (Stats.in_use s =? 0) = false)).
Proof.
  unfold slot_free.
  destruct (Z.eqb_spec (Stats.valid s) 0) as [Hv|Hv]; cbn [negb];
    [|right; left; reflexivity].
  destruct (Z.eqb_spec (Stats.in_use s) 0) as [Hu|Hu];
    [left; split; assumption | right; right; split; reflexivity].
Qed.

(** The slot search claims the first free slot. *)
Lemma find_free_slot_from_finds (fuel k : nat)
    (slots : list Stats.allocation_slot) :
  (exists (i : nat) (s : Stats.allocation_slot),
      (k <= i < k + fuel)%nat /\ slots !! i = Some s /\ slot_free s) ->
  exists (i : nat) (s : Stats.allocation_slot),
    (k <= i < k + fuel)%nat /\ slots !! i = Some s /\ slot_free s
    /\ (forall (j : nat) (s' : Stats.allocation_slot),
           (k <= j < i)%nat -> slots !! j = Some s' -> ~ slot_free s')
    /\ Stats.find_free_slot_from fuel k slots
       = (Some i,
          <[i := Stats.mkSlot (Stats.address s) (Stats.size s) (Stats.file s)
                   (Stats.line s) (Stats.timestamp s) (Stats.valid s) 1]>
            slots).
Proof.
  revert k. induction fuel as [|fuel IH]; intros k (i & s & Hi & His & Hfree).
  - lia.
  - cbn [Stats.find_free_slot_from].
    destruct (slots !! k) as [s0|] eqn:Hk.
    2:{ apply lookup_ge_None in Hk. apply lookup_lt_Some in His. lia. }
    assert (Hrec : ~ slot_free s0 ->
                   exists (i : nat) (s : Stats.allocation_slot),
                     (k <= i < k + S fuel)%nat /\ slots !! i = Some s
                     /\ slot_free s
                     /\ (forall (j : nat) (s' : Stats.allocation_slot),
                            (k <= j < i)%nat -> slots !! j = Some s' ->
                            ~ slot_free s')
                     /\ Stats.find_free_slot_from fuel (S k) slots
                        = (Some i,
                           <[i := Stats.mkSlot (Stats.address s) (Stats.size s)
                                    (Stats.file s) (Stats.line s)
                                    (Stats.timestamp s) (Stats.valid s) 1]>
                             slots)).
    { intros Hn0.
      assert (Hik : i <> k).
      { intros ->. rewrite Hk in His. inversion His; subst. contradiction. }
      destruct (IH (S k)) as (i' & s' & Hi' & His' & Hfree' & Hlow & Heq).
      { exists i, s. split; [lia|]. split; assumption. }
      exists i', s'. split; [lia|]. split; [assumption|].
      split; [assumption|]. split; [|exact Heq].
      intros j sj Hj Hjs.
      destruct (Nat.eq_dec j k) as [->|Hjk].
      - rewrite Hk in Hjs. inversion Hjs; subst. assumption.
      - apply (Hlow j sj); [lia | assumption]. }
    destruct (slot_free_dec s0) as [Hf0|[Hv|[Hv Hu]]].
    + destruct Hf0 as [Hv0 Hu0]. rewrite Hv0, Hu0. cbn [Z.eqb negb].
      exists k, s0. split; [lia|]. split; [assumption|].
      split; [split; assumption|]. split; [intros j s' Hj; lia|].
      rewrite Hv0. reflexivity.
    + rewrite Hv. apply Hrec. intros [Hv0 _]. rewrite Hv0 in Hv. discriminate.
    + rewrite Hv, Hu. apply Hrec. intros [_ Hu0]. rewrite Hu0 in Hu.
      discriminate.
Qed.

Lemma find_free_slot_from_full (fuel k : nat)
    (slots : list Stats.allocation_slot) :
  (forall (j : nat) (s : Stats.allocation_slot),
      slots !! j = Some s -> ~ slot_free s) ->
  Stats.find_free_slot_from fuel k slots = (None, slots).
Proof.
  intros Hfull. revert k. induction fuel as [|fuel IH]; intros k;
    cbn [Stats.find_free_slot_from]; [reflexivity|].
  destruct (slots !! k) as [s0|] eqn:Hk; [|reflexivity].
  destruct (slot_free_dec s0) as [Hf0|[Hv|[Hv Hu]]].
  - exfalso. exact (Hfull k s0 Hk Hf0).
  - rewrite Hv. apply IH.
  - rewrite Hv, Hu. apply IH.
Qed.

Lemma find_free_slot_retry_full (n : nat)
    (slots : list Stats.allocation_slot) :
  (forall (j : nat) (s : Stats.allocation_slot),
      slots !! j = Some s -> ~ slot_free s) ->
  Stats.find_free_slot_retry n slots = (None, slots).
Proof.
  intros Hfull. induction n as [|n IH]; cbn [Stats.find_free_slot_retry];
    [reflexivity|].
  unfold Stats.find_free_slot.
  rewrite (find_free_slot_from_full _ _ _ Hfull). exact IH.
Qed.

(** The removal takes the first valid slot that holds the pointer and is
    not claimed by another thread. *)
Lemma find_and_remove_from_finds (fuel k : nat) (st : Stats.memory_stats_t)
    (p : Z) (i : nat) (s : Stats.allocation_slot) :
  (k <= i < k + fuel)%nat ->
  Stats.active_allocations st !! i = Some s ->
  Stats.valid s <> 0 -> Stats.address s = p -> Stats.in_use s = 0 ->
  (forall (j : nat) (s' : Stats.allocation_slot),
      (k <= j < i)%nat -> Stats.active_allocations st !! j = Some s' ->
      Stats.valid s' = 0 \/ Stats.address s' <> p) ->
  Stats.find_and_remove_from fuel k st p
  = (Stats.size s,
     Stats.set_tracking st
       (<[i := Stats.mkSlot 0 0 (Stats.file s) (Stats.line s) 0 0 0]>
          (Stats.active_allocations st))
       (wrap32 (Stats.active_allocation_count st - 1))
       (wrap64 (Stats.total_leaked_bytes st - Stats.size s))).
Proof.
  revert k. induction fuel as [|fuel IH]; intros k Hi His Hv Ha Hu Hlow.
  - lia.
  - cbn [Stats.find_and_remove_from].
    destruct (Nat.eq_dec i k) as [->|Hik].
    + rewrite His.
      destruct (Z.eqb_spec (Stats.valid s) 0) as [|_]; [contradiction|].
      rewrite Ha, Z.eqb_refl, Hu. cbn [orb negb Z.eqb]. reflexivity.
    + destruct (Stats.active_allocations st !! k) as [s0|] eqn:Hk.
      2:{ apply lookup_ge_None in Hk. apply lookup_lt_Some in His. lia. }
      assert (Hskip : (Stats.valid s0 =? 0) || negb (Stats.address s0 =? p)
                      = true).
      { destruct (Hlow k s0 ltac:(lia) Hk) as [H0|H0].
        - rewrite H0. reflexivity.
        - apply orb_true_iff. right.
          destruct (Z.eqb_spec (Stats.address s0) p); [contradiction|].
          reflexivity. }
      rewrite Hskip.
      apply IH; try assumption; [lia|].
      intros j s' Hj. apply Hlow. lia.
Qed.

Lemma find_free_slot_retry_finds (n : nat)
    (slots : list Stats.allocation_slot) :
  (exists (i : nat) (s : Stats.allocation_slot),
      (i < Stats.STATS_MAX_TRACKED_ALLOCATIONS)%nat
      /\ slots !! i = Some s /\ slot_free s) ->
  exists (i : nat) (s : Stats.allocation_slot),
    (i < Stats.STATS_MAX_TRACKED_ALLOCATIONS)%nat
    /\ slots !! i = Some s /\ slot_free s
    /\ (forall (j : nat) (s' : Stats.allocation_slot),
           (j < i)%nat -> slots !! j = Some s' -> ~ slot_free s')
    /\ Stats.find_free_slot_retry (S n) slots
       = (Some i,
          <[i := Stats.mkSlot (Stats.address s) (Stats.size s) (Stats.file s)
                   (Stats.line s) (Stats.timestamp s) (Stats.valid s) 1]>
            slots).
Proof.
  intros (i0 & s0 & Hi0 & His0 & Hf0).
  destruct (find_free_slot_from_finds Stats.STATS_MAX_TRACKED_ALLOCATIONS 0
              slots) as (i & s & Hi & His & Hf & Hlow & Heq).
  { exists i0, s0. split; [lia|]. split; assumption. }
  exists i, s. split; [lia|]. split; [assumption|]. split; [assumption|].
  split.
  - intros j s' Hj. apply Hlow. lia.
  - cbn [Stats.find_free_slot_retry]. unfold Stats.find_free_slot.
    rewrite Heq. reflexivity.
Qed.

Lemma wrap64_add_sub (a b : Z) :
  0 <= a <= SIZE_MAX -> wrap64 (wrap64 (a + b) - b) = a.
Proof.
  intros Ha. unfold wrap64. rewrite Zminus_mod_idemp_l.
  replace (a + b - b) with a by lia.
  apply Z.mod_small. unfold SIZE_MAX in Ha. lia.
Qed.

Lemma wrap32_add_sub (a : Z) :
  0 <= a < 2 ^ 32 -> wrap32 (wrap32 (a + 1) - 1) = a.
Proof.
  intros Ha. unfold wrap32. rewrite Zminus_mod_idemp_l.
  replace (a + 1 - 1) with a by lia.
  apply Z.mod_small. lia.
Qed.

(** The ledger after a race-free allocation update that finds a free
    slot. *)
Lemma update_allocation_fields (st : Stats.memory_stats_t) (p sz : Z)
    (f : string) (l now : Z) (sc : schedule) :
  p <> 0 -> race_free sc ->
  (exists (i : nat) (s : Stats.allocation_slot),
      (i < Stats.STATS_MAX_TRACKED_ALLOCATIONS)%nat
      /\ Stats.active_allocations st !! i = Some s /\ slot_free s) ->
  exists (i : nat) (s : Stats.allocation_slot),
    (i < Stats.STATS_MAX_TRACKED_ALLOCATIONS)%nat
    /\ Stats.active_allocations st !! i = Some s /\ slot_free s
    /\ (forall (j : nat) (s' : Stats.allocation_slot),
           (j < i)%nat -> Stats.active_allocations st !! j = Some s' ->
           ~ slot_free s')
    /\ exists st1,
        Stats.memory_stats_update_allocation st p sz f l now sc
        = (st1, tl (tl sc))
        /\ Stats.active_allocations st1
           = <[i := Stats.mkSlot p sz f l (wrap64 now) 1 0]>
               (Stats.active_allocations st)
        /\ Stats.alloc_count st1 = wrap64 (Stats.alloc_count st + 1)
        /\ Stats.free_count st1 = Stats.free_count st
        /\ Stats.current_bytes st1 = wrap64 (Stats.current_bytes st + sz)
        /\ Stats.peak_bytes st1
           = (if wrap64 (Stats.current_bytes st + sz) >? Stats.peak_bytes st
              then wrap64 (Stats.current_bytes st + sz)
              else Stats.peak_bytes st)
        /\ Stats.active_allocation_count st1
           = wrap32 (Stats.active_allocation_count st + 1)
        /\ Stats.total_leaked_bytes st1
           = wrap64 (Stats.total_leaked_bytes st + sz).
Proof.
  intros Hp Hrf Hex.
  destruct (find_free_slot_retry_finds 9 (Stats.active_allocations st) Hex)
    as (i & s & Hi & His & Hf & Hlow & Heq).
  exists i, s. split; [assumption|]. split; [assumption|].
  split; [assumption|]. split; [assumption|].
  rewrite (update_allocation_race_free _ _ _ _ _ _ _ Hp Hrf). cbv zeta.
  change Stats.MAX_RETRY_ATTEMPTS with (S 9).
  match goal with
  | |- context [Stats.find_free_slot_retry _ ?x] =>
      change x with (Stats.active_allocations st)
  end.
  rewrite Heq. eexists. split; [reflexivity|].
  unfold Stats.record_allocation, Stats.set_history,
    Stats.set_size_distribution, Stats.set_tracking, Stats.set_bytes,
    Stats.set_alloc_count.
  cbn [Stats.active_allocations Stats.alloc_count Stats.free_count
       Stats.current_bytes Stats.peak_bytes Stats.active_allocation_count
       Stats.total_leaked_bytes].
  rewrite list_insert_insert_eq.
  repeat split; reflexivity.
Qed.

Lemma untracked_slot (st : Stats.memory_stats_t) (p : Z) (j : nat)
    (s' : Stats.allocation_slot) :
  ledger_wf st -> ~ tracked st p ->
  Stats.active_allocations st !! j = Some s' ->
  Stats.valid s' = 0 \/ Stats.address s' <> p.
Proof.
  intros [Hwf _] Hun Hj.
  rewrite Forall_lookup in Hwf. destruct (Hwf j s' Hj) as ([Hv|Hv] & _).
  - left. assumption.
  - right. intros Ha. apply Hun. exists j, s'. auto.
Qed.

Lemma tracked_insert_free (st st' : Stats.memory_stats_t) (i : nat)
    (s s0 : Stats.allocation_slot) (q : Z) :
  Stats.active_allocations st !! i = Some s -> Stats.valid s = 0 ->
  Stats.valid s0 = 0 ->
  Stats.active_allocations st' = <[i := s0]> (Stats.active_allocations st) ->
  tracked st' q <-> tracked st q.
Proof.
  intros His Hv Hv0 Heq. unfold tracked. rewrite Heq.
  split; intros (j & sj & Hj & Hvj & Haj).
  - destruct (Nat.eq_dec i j) as [->|Hij].
    + rewrite list_lookup_insert_eq in Hj by (eapply lookup_lt_Some; eassumption).
      inversion Hj; subst. lia.
    + rewrite list_lookup_insert_ne in Hj by assumption. exists j, sj. auto.
  - destruct (Nat.eq_dec i j) as [->|Hij].
    + rewrite His in Hj. inversion Hj; subst. lia.
    + exists j, sj. rewrite list_lookup_insert_ne by assumption. auto.
Qed.

(** X7. Without interference, an allocation update that finds a free slot
    and the deallocation update of the same pointer undo each other on
    [current_bytes], [active_allocation_count], [total_leaked_bytes] and
    the set of tracked pointers; in between the pointer is tracked and
    [current_bytes] is higher by the size. [alloc_count] has grown by one,
    and so has [free_count], except for an allocation of size 0, whose
    removal is not counted as a free. *)
Theorem ledger_track_untrack_round_trip (st : Stats.memory_stats_t)
    (p sz : Z) (f : string) (l now : Z) (sc : schedule) :
  ledger_wf st ->
  0 <= Stats.active_allocation_count st < 2 ^ 32 ->
  0 <= Stats.total_leaked_bytes st <= SIZE_MAX ->
  p <> 0 -> ~ tracked st p ->
  0 <= sz -> Stats.current_bytes st + sz <= SIZE_MAX ->
  (exists (i : nat) (s : Stats.allocation_slot),
      (i < Stats.STATS_MAX_TRACKED_ALLOCATIONS)%nat
      /\ Stats.active_allocations st !! i = Some s /\ slot_free s) ->
  race_free sc ->
  let r1 := Stats.memory_stats_update_allocation st p sz f l now sc in
  let r2 := Stats.memory_stats_update_deallocation (fst r1) p (snd r1) in
  tracked (fst r1) p
  /\ Stats.current_bytes (fst r1) = Stats.current_bytes st + sz
  /\ Stats.current_bytes (fst r2) = Stats.current_bytes st
  /\ Stats.active_allocation_count (fst r2) = Stats.active_allocation_count st
  /\ Stats.total_leaked_bytes (fst r2) = Stats.total_leaked_bytes st
  /\ (forall q, tracked (fst r2) q <-> tracked st q)
  /\ Stats.alloc_count (fst r2) = wrap64 (Stats.alloc_count st + 1)
  /\ Stats.free_count (fst r2)
     = (if sz =? 0 then Stats.free_count st
        else wrap64 (Stats.free_count st + 1)).
Proof.
  intros Hwf Hac Hlk Hp Hun Hsz Hcur Hex Hrf r1 r2. subst r2 r1.
  destruct (update_allocation_fields st p sz f l now sc Hp Hrf Hex)
    as (i & s & Hi & His & [Hv Hu] & Hlow & st1 & Heq & Hslots & Hal & Hfr
        & Hcb & Hpk & Hcnt & Hleak).
  rewrite Heq. cbn [fst snd].
  assert (Hc0 : 0 <= Stats.current_bytes st) by (destruct Hwf as [_ Hc]; lia).
  assert (Hcur1 : Stats.current_bytes st1 = Stats.current_bytes st + sz).
  { rewrite Hcb. apply wrap64_small. lia. }
  assert (Hilt : (i < length (Stats.active_allocations st))%nat).
  { eapply lookup_lt_Some; eassumption. }
  assert (Hrem : Stats.find_and_remove_allocation st1 p
                 = (sz,
                    Stats.set_tracking st1
                      (<[i := Stats.mkSlot 0 0 f l 0 0 0]>
                         (Stats.active_allocations st1))
                      (wrap32 (Stats.active_allocation_count st1 - 1))
                      (wrap64 (Stats.total_leaked_bytes st1 - sz)))).
  { unfold Stats.find_and_remove_allocation.
    destruct (Z.eqb_spec p 0) as [|_]; [contradiction|].
    apply (find_and_remove_from_finds _ 0 st1 p i
             (Stats.mkSlot p sz f l (wrap64 now) 1 0)).
    - lia.
    - rewrite Hslots. apply list_lookup_insert_eq. assumption.
    - cbn. lia.
    - reflexivity.
    - reflexivity.
    - intros j s' Hj Hjs. rewrite Hslots in Hjs.
      rewrite list_lookup_insert_ne in Hjs by lia.
      eapply untracked_slot; eassumption. }
  split.
  { exists i, (Stats.mkSlot p sz f l (wrap64 now) 1 0).
    rewrite Hslots. split; [apply list_lookup_insert_eq; assumption|].
    split; reflexivity. }
  split; [exact Hcur1|].
  rewrite (update_deallocation_race_free_eq _ _ _
             (race_free_tl _ (race_free_tl _ Hrf))).
  rewrite Hrem.
  assert (Htr : forall st2 : Stats.memory_stats_t,
             Stats.active_allocations st2
             = <[i := Stats.mkSlot 0 0 f l 0 0 0]>
                 (Stats.active_allocations st1) ->
             forall q, tracked st2 q <-> tracked st q).
  { intros st2 H2 q.
    apply (tracked_insert_free st st2 i s (Stats.mkSlot 0 0 f l 0 0 0) q);
      try assumption; [reflexivity|].
    rewrite H2, Hslots. apply list_insert_insert_eq. }
  destruct (Z.eqb_spec sz 0) as [Hz|Hz].
  - cbn [fst]. unfold Stats.set_tracking.
    cbn [Stats.current_bytes Stats.active_allocation_count
         Stats.total_leaked_bytes Stats.alloc_count Stats.free_count].
    rewrite Hcnt, Hleak, Hal, Hfr.
    split; [lia|]. split; [apply wrap32_add_sub; assumption|].
    split; [apply wrap64_add_sub; assumption|].
    split; [apply Htr; reflexivity|]. split; reflexivity.
  - match goal with
    | |- context [if ?c <? sz then _ else _] =>
        assert (Hge : (c <? sz) = false)
          by (apply Z.ltb_ge; unfold Stats.set_tracking;
              cbn [Stats.current_bytes]; lia);
        rewrite Hge
    end.
    cbn [fst]. unfold Stats.set_bytes, Stats.set_free_count, Stats.set_tracking.
    cbn [Stats.current_bytes Stats.active_allocation_count
         Stats.total_leaked_bytes Stats.alloc_count Stats.free_count].
    rewrite Hcnt, Hleak, Hal, Hfr, Hcur1.
    split.
    { replace (Stats.current_bytes st + sz - sz) with (Stats.current_bytes st)
        by lia.
      apply wrap64_small. lia. }
    split; [apply wrap32_add_sub; assumption|].
    split; [apply wrap64_add_sub; assumption|].
    split; [apply Htr; reflexivity|]. split; reflexivity.
Qed.

Lemma init_slots_free (i : nat) (s : Stats.allocation_slot) :
  Stats.active_allocations Stats.memory_stats_init !! i = Some s ->
  s = Stats.init_slot.
Proof.
  unfold Stats.memory_stats_init. cbn [Stats.active_allocations].
  intros H. apply lookup_replicate_1 in H. tauto.
Qed.

Lemma init_untracked (p : Z) : ~ tracked Stats.memory_stats_init p.
Proof.
  intros (i & s & Hi & Hv & _). apply init_slots_free in Hi. subst s.
  discriminate.
Qed.

Lemma init_has_free_slot :
  exists (i : nat) (s : Stats.allocation_slot),
    (i < Stats.STATS_MAX_TRACKED_ALLOCATIONS)%nat
    /\ Stats.active_allocations Stats.memory_stats_init !! i = Some s
    /\ slot_free s.
Proof.
  exists 0%nat, Stats.init_slot. split; [unfold Stats.STATS_MAX_TRACKED_ALLOCATIONS; lia|].
  split; [|split; reflexivity].
  unfold Stats.memory_stats_init. cbn [Stats.active_allocations].
  apply lookup_replicate_2. unfold Stats.STATS_MAX_TRACKED_ALLOCATIONS. lia.
Qed.

(** X7 at work on the initial ledger: 100 bytes at address 4104. *)
Lemma ledger_track_untrack_round_trip_witness :
  let r1 :=
    Stats.memory_stats_update_allocation Stats.memory_stats_init 4104 100
      "main.c" 7 0 [] in
  let r2 := Stats.memory_stats_update_deallocation (fst r1) 4104 (snd r1) in
  tracked (fst r1) 4104
  /\ Stats.current_bytes (fst r1)
     = Stats.current_bytes Stats.memory_stats_init + 100
  /\ Stats.current_bytes (fst r2) = Stats.current_bytes Stats.memory_stats_init
  /\ Stats.active_allocation_count (fst r2)
     = Stats.active_allocation_count Stats.memory_stats_init
  /\ Stats.total_leaked_bytes (fst r2)
     = Stats.total_leaked_bytes Stats.memory_stats_init
  /\ (forall q, tracked (fst r2) q <-> tracked Stats.memory_stats_init q)
  /\ Stats.alloc_count (fst r2)
     = wrap64 (Stats.alloc_count Stats.memory_stats_init + 1)
  /\ Stats.free_count (fst r2)
     = (if 100 =? 0 then Stats.free_count Stats.memory_stats_init
        else wrap64 (Stats.free_count Stats.memory_stats_init + 1)).
Proof.
  apply (ledger_track_untrack_round_trip Stats.memory_stats_init 4104 100
           "main.c" 7 0 []).
  - exact ledger_wf_init.
  - cbn. lia.
  - cbn. unfold SIZE_MAX. lia.
  - lia.
  - apply init_untracked.
  - lia.
  - cbn. unfold SIZE_MAX. lia.
  - exact init_has_free_slot.
  - constructor.
Defined.

(** The counters after a race-free allocation update, whether or not a
    slot was found. *)
Lemma update_allocation_counters (st : Stats.memory_stats_t) (p sz : Z)
    (f : string) (l now : Z) (sc : schedule) :
  p <> 0 -> race_free sc ->
  exists st1,
    Stats.memory_stats_update_allocation st p sz f l now sc
    = (st1, tl (tl sc))
    /\ Stats.alloc_count st1 = wrap64 (Stats.alloc_count st + 1)
    /\ Stats.free_count st1 = Stats.free_count st
    /\ Stats.current_bytes st1 = wrap64 (Stats.current_bytes st + sz)
    /\ Stats.peak_bytes st1
       = (if wrap64 (Stats.current_bytes st + sz) >? Stats.peak_bytes st
          then wrap64 (Stats.current_bytes st + sz)
          else Stats.peak_bytes st)
    /\ Stats.size_distribution st1
       = Stats.update_size_distribution (Stats.size_distribution st) sz.
Proof.
  intros Hp Hrf.
  rewrite (update_allocation_race_free _ _ _ _ _ _ _ Hp Hrf). cbv zeta.
  eexists. split; [reflexivity|].
  destruct (Stats.find_free_slot_retry _ _) as [[slot|] slots];
    unfold Stats.record_allocation, Stats.set_history,
      Stats.set_size_distribution, Stats.set_tracking, Stats.set_bytes,
      Stats.set_alloc_count;
    cbn [Stats.alloc_count Stats.free_count Stats.current_bytes
         Stats.peak_bytes Stats.size_distribution];
    repeat split; reflexivity.
Qed.

(** X8. When no slot of the table is free, an allocation update is still
    counted in [alloc_count] and [current_bytes] but is not tracked: the
    slot table, [active_allocation_count] and [total_leaked_bytes] stay as
    they were, and a later deallocation update of that pointer changes
    nothing, so the bytes are never subtracted again. *)
Theorem ledger_full_table_not_tracked (st : Stats.memory_stats_t) (p sz : Z)
    (f : string) (l now : Z) (sc : schedule) :
  ledger_wf st -> p <> 0 -> ~ tracked st p -> race_free sc ->
  (forall (j : nat) (s : Stats.allocation_slot),
      Stats.active_allocations st !! j = Some s -> ~ slot_free s) ->
  let r1 := Stats.memory_stats_update_allocation st p sz f l now sc in
  Stats.active_allocations (fst r1) = Stats.active_allocations st
  /\ Stats.active_allocation_count (fst r1) = Stats.active_allocation_count st
  /\ Stats.total_leaked_bytes (fst r1) = Stats.total_leaked_bytes st
  /\ Stats.alloc_count (fst r1) = wrap64 (Stats.alloc_count st + 1)
  /\ Stats.current_bytes (fst r1) = wrap64 (Stats.current_bytes st + sz)
  /\ forall sc',
      Stats.memory_stats_update_deallocation (fst r1) p sc' = (fst r1, sc').
Proof.
  intros Hwf Hp Hun Hrf Hfull r1. subst r1.
  rewrite (update_allocation_race_free _ _ _ _ _ _ _ Hp Hrf). cbv zeta.
  match goal with
  | |- context [Stats.find_free_slot_retry _ ?x] =>
      change x with (Stats.active_allocations st)
  end.
  rewrite (find_free_slot_retry_full _ _ Hfull). cbn [fst].
  match goal with
  | |- context [Stats.record_allocation ?s _ _] =>
      set (st1 := Stats.record_allocation s sz now)
  end.
  assert (Hslots : Stats.active_allocations st1 = Stats.active_allocations st)
    by reflexivity.
  assert (Hcb : Stats.current_bytes st1 = wrap64 (Stats.current_bytes st + sz))
    by reflexivity.
  split; [exact Hslots|]. split; [reflexivity|]. split; [reflexivity|].
  split; [reflexivity|]. split; [exact Hcb|].
  intros sc'.
  unfold Stats.memory_stats_update_deallocation,
    Stats.find_and_remove_allocation.
  destruct (p =? 0); [reflexivity|].
  rewrite (find_and_remove_from_untracked _ _ st1 p); [reflexivity | |].
  - split; [rewrite Hslots; apply Hwf|]. rewrite Hcb. apply wrap64_range.
  - intros (i & s & Hi & Hv & Ha). apply Hun. exists i, s.
    rewrite <- Hslots. auto.
Qed.

(** A ledger whose thousand slots are all taken. *)
Lemma ledger_full_table_not_tracked_witness :
  let full :=
    Stats.set_tracking Stats.memory_stats_init
      (replicate 1000 (Stats.mkSlot 8 16 "a.c" 1 0 1 0)) 1000 16000 in
  let r1 :=
    Stats.memory_stats_update_allocation full 4104 100 "main.c" 7 0 [] in
  Stats.active_allocations (fst r1) = Stats.active_allocations full
  /\ Stats.active_allocation_count (fst r1)
     = Stats.active_allocation_count full
  /\ Stats.total_leaked_bytes (fst r1) = Stats.total_leaked_bytes full
  /\ Stats.alloc_count (fst r1) = wrap64 (Stats.alloc_count full + 1)
  /\ Stats.current_bytes (fst r1) = wrap64 (Stats.current_bytes full + 100)
  /\ forall sc',
      Stats.memory_stats_update_deallocation (fst r1) 4104 sc'
      = (fst r1, sc').
Proof.
  apply (ledger_full_table_not_tracked
           (Stats.set_tracking Stats.memory_stats_init
              (replicate 1000 (Stats.mkSlot 8 16 "a.c" 1 0 1 0)) 1000 16000)
           4104 100 "main.c" 7 0 []).
  - split.
    + cbn [Stats.set_tracking Stats.active_allocations].
      apply Forall_replicate. unfold slot_ok. cbn. unfold SIZE_MAX. lia.
    + cbn. unfold SIZE_MAX. lia.
  - lia.
  - intros (i & s & Hi & _ & Ha).
    cbn [Stats.set_tracking Stats.active_allocations] in Hi.
    apply lookup_replicate_1 in Hi. destruct Hi as [-> _]. discriminate.
  - constructor.
  - intros j s Hj [Hv _].
    cbn [Stats.set_tracking Stats.active_allocations] in Hj.
    apply lookup_replicate_1 in Hj. destruct Hj as [-> _]. discriminate.
Defined.

Lemma apply_update_step (u : ledger_update) (st : Stats.memory_stats_t)
    (sc : schedule) :
  ledger_wf st -> update_typed u -> race_free sc ->
  0 <= Stats.peak_bytes st <= SIZE_MAX ->
  Stats.current_bytes st <= Stats.peak_bytes st ->
  let st' := fst (apply_update u st sc) in
  ledger_wf st'
  /\ race_free (snd (apply_update u st sc))
  /\ 0 <= Stats.current_bytes st' <= Stats.peak_bytes st'
  /\ Stats.peak_bytes st <= Stats.peak_bytes st' <= SIZE_MAX.
Proof.
  intros Hwf Hty Hrf Hpk Hle. cbv zeta.
  assert (Hc : 0 <= Stats.current_bytes st <= SIZE_MAX) by apply Hwf.
  destruct u as [p sz f l now|p]; cbn [apply_update update_typed] in *.
  - destruct (Stats.memory_stats_update_allocation st p sz f l now sc)
      as [st1 sc1] eqn:Hrun.
    pose proof (update_allocation_result _ _ _ _ _ _ _ _ _ Hwf Hty Hrun)
      as [Hwf1 _].
    cbn [fst snd]. split; [assumption|].
    destruct (Z.eq_dec p 0) as [->|Hp].
    + unfold Stats.memory_stats_update_allocation in Hrun.
      rewrite Z.eqb_refl in Hrun. inversion Hrun; subst.
      split; [assumption|]. lia.
    + destruct (update_allocation_counters st p sz f l now sc Hp Hrf)
        as (st1' & Heq & _ & _ & Hcb & Hp1 & _).
      rewrite Hrun in Heq. inversion Heq; subst st1' sc1.
      split; [apply race_free_tl, race_free_tl; assumption|].
      rewrite Hcb, Hp1.
      pose proof (wrap64_range (Stats.current_bytes st + sz)) as Hr.
      destruct (Z.gtb_spec (wrap64 (Stats.current_bytes st + sz))
                  (Stats.peak_bytes st)); lia.
  - pose proof (update_deallocation_race_free_eq st p sc Hrf) as Heq.
    pose proof (find_and_remove_allocation_frame st p) as Hfr.
    cbv zeta in Hfr.
    assert (Hsz : 0 <= fst (Stats.find_and_remove_allocation st p)
                  /\ ledger_wf (snd (Stats.find_and_remove_allocation st p))).
    { unfold Stats.find_and_remove_allocation.
      destruct (p =? 0); [cbn [fst snd]; split; [lia | assumption]|].
      pose proof (find_and_remove_from_wf
                    Stats.STATS_MAX_TRACKED_ALLOCATIONS 0 st p Hwf) as H.
      destruct (Stats.find_and_remove_from _ _ _ _) as [sz0 st0].
      cbn [fst snd]. split; [lia | tauto]. }
    destruct (Stats.find_and_remove_allocation st p) as [sz st0].
    cbn [fst snd] in Hfr, Hsz.
    destruct Hfr as (_ & _ & _ & Hcb & Hpb & _).
    destruct Hsz as [Hsz Hwf0].
    rewrite Heq.
    destruct (sz =? 0).
    { cbn [fst snd]. rewrite Hcb, Hpb. split; [assumption|].
      split; [assumption|]. lia. }
    rewrite Hcb, Hpb.
    destruct (Z.ltb_spec (Stats.current_bytes st) sz) as [Hlt|Hge];
      cbn [fst snd]; unfold Stats.set_bytes, Stats.set_free_count;
      cbn [Stats.current_bytes Stats.peak_bytes].
    + split.
      { split; [apply Hwf0|]. cbn [Stats.current_bytes]. lia. }
      split; [apply race_free_tl; assumption|]. lia.
    + rewrite (wrap64_small (Stats.current_bytes st - sz)) by lia.
      split.
      { split; [apply Hwf0|]. cbn [Stats.current_bytes]. lia. }
      split; [apply race_free_tl, race_free_tl; assumption|]. lia.
Qed.

(** X9. Along every race-free sequence of updates started in a well-formed
    ledger whose peak is not below its current total, [peak_bytes] never
    decreases and always dominates [current_bytes], which never becomes
    negative. *)
Theorem ledger_peak_dominates (us : list ledger_update)
    (st : Stats.memory_stats_t) (sc : schedule) :
  ledger_wf st -> Forall update_typed us -> race_free sc ->
  0 <= Stats.peak_bytes st <= SIZE_MAX ->
  Stats.current_bytes st <= Stats.peak_bytes st ->
  let st' := fst (apply_updates us st sc) in
  0 <= Stats.current_bytes st' <= Stats.peak_bytes st'
  /\ Stats.peak_bytes st <= Stats.peak_bytes st' <= SIZE_MAX.
Proof.
  revert st sc. induction us as [|u rest IH]; intros st sc Hwf Hty Hrf Hpk Hle.
  - cbn. destruct Hwf as [_ Hc]. lia.
  - cbv zeta. cbn [apply_updates]. unfold bind.
    inversion Hty as [|u' rest' Hu Hrest]; subst.
    pose proof (apply_update_step u st sc Hwf Hu Hrf Hpk Hle) as Hstep.
    cbv zeta in Hstep.
    destruct (apply_update u st sc) as [st1 sc1]. cbn [fst snd] in Hstep.
    destruct Hstep as (Hwf1 & Hrf1 & Hc1 & Hp1).
    specialize (IH st1 sc1 Hwf1 Hrest Hrf1 ltac:(lia) ltac:(lia)).
    cbv zeta in IH. lia.
Qed.

Lemma ledger_peak_dominates_witness :
  let st' :=
    fst (apply_updates
           [UpdateAllocation 4104 100 "main.c" 7 0; UpdateDeallocation 4104;
            UpdateAllocation 8200 40 "main.c" 9 1]
           Stats.memory_stats_init [CasSpurious]) in
  0 <= Stats.current_bytes st' <= Stats.peak_bytes st'
  /\ Stats.peak_bytes Stats.memory_stats_init <= Stats.peak_bytes st'
     <= SIZE_MAX.
Proof.
  apply (ledger_peak_dominates
           [UpdateAllocation 4104 100 "main.c" 7 0; UpdateDeallocation 4104;
            UpdateAllocation 8200 40 "main.c" 9 1]
           Stats.memory_stats_init [CasSpurious]).
  - exact ledger_wf_init.
  - repeat constructor; cbn; unfold SIZE_MAX; lia.
  - repeat constructor.
  - cbn. unfold SIZE_MAX. lia.
  - cbn. lia.
Defined.










(** X11. [backoff_delay] does not sleep for a non-positive attempt number;
    for the attempt numbers 1 to 10 it sleeps at least the capped
    exponential delay [min (50 * 2^(attempt-1), 1000)] microseconds and, with
    the jitter, never more than 1190. *)
Theorem backoff_delay_bounds (attempt rand_value : Z) :
  (attempt <= 0 -> Stats.backoff_delay attempt rand_value = None)
  /\ (1 <= attempt <= 10 -> 0 <= rand_value ->
      exists delay,
        Stats.backoff_delay attempt rand_value = Some delay
        /\ Z.min (Stats.BACKOFF_BASE_US * 2 ^ (attempt - 1))
             Stats.MAX_BACKOFF_US <= delay
        /\ delay <= 1190).
Proof.
  unfold Stats.backoff_delay. split.
  - intros H. destruct (Z.leb_spec attempt 0); [reflexivity | lia].
  - intros Ha Hr. destruct (Z.leb_spec attempt 0); [lia|].
    eexists. split; [reflexivity|].
    rewrite Z.shiftl_1_l.
    unfold Stats.BACKOFF_BASE_US, Stats.MAX_BACKOFF_US, Stats.BACKOFF_JITTER.
    assert (Hp : 1 <= 2 ^ (attempt - 1) <= 2 ^ 9).
    { split.
      - apply (Z.pow_le_mono_r 2 0 (attempt - 1)); lia.
      - apply Z.pow_le_mono_r; lia. }
    change (2 ^ 9) with 512 in Hp.
    set (e := 2 ^ (attempt - 1)) in *.
    assert (Hw : wrap32 (50 * e) = 50 * e).
    { unfold wrap32. apply Z.mod_small. lia. }
    rewrite Hw.
    set (d := if 50 * e >? 1000 then 1000 else 50 * e).
    assert (Hd : d = Z.min (50 * e) 1000 /\ 50 <= d <= 1000).
    { subst d. destruct (Z.gtb_spec (50 * e) 1000); lia. }
    destruct Hd as [Hd Hdr]. rewrite <- Hd.
    pose proof (Z.mod_pos_bound rand_value 20 ltac:(lia)) as Hj.
    set (j := rand_value mod 20) in *.
    assert (Hwj : wrap32 j = j) by (unfold wrap32; apply Z.mod_small; lia).
    rewrite Hwj.
    assert (Hwm : wrap32 (d * j) = d * j).
    { unfold wrap32. apply Z.mod_small. nia. }
    rewrite Hwm.
    assert (Hq : 0 <= d * j / 100 <= 190).
    { split.
      - apply Z.div_pos; nia.
      - apply Z.div_le_upper_bound; nia. }
    assert (Hws : wrap32 (d + d * j / 100) = d + d * j / 100).
    { unfold wrap32. apply Z.mod_small. lia. }
    rewrite Hws. lia.
Qed.

Lemma backoff_delay_bounds_witness :
  exists delay,
    Stats.backoff_delay 3 7 = Some delay
    /\ Z.min (Stats.BACKOFF_BASE_US * 2 ^ (3 - 1)) Stats.MAX_BACKOFF_US
       <= delay
    /\ delay <= 1190.
Proof. apply (proj2 (backoff_delay_bounds 3 7)); lia. Defined.

(** ** The generic strategy and the validators *)

Lemma validate_state_tracker {D : Type} (self : Strategy.MemoryStrategy D) :
  Strategy.validate_state self
  = match Strategy.status_tracker self with
    | Some t => Status.current_status t =? Status.STRATEGY_STATE_ACTIVE
    | None => false
    end.
Proof.
  unfold Strategy.validate_state.
  destruct (Strategy.status_tracker self); reflexivity.
Qed.

(** After [transition_status (tracker, ERROR)] without a racing store the
    tracker is not [ACTIVE]; it is [ERROR] when its state was in range. *)
Lemma transition_to_error_race_free (t : Status.StatusTracker)
    (sc : schedule) (r : Status.StrategyResult)
    (t' : option Status.StatusTracker) (sc' : schedule) :
  race_free sc ->
  Status.transition_status (Some t) Status.STRATEGY_STATE_ERROR sc
  = (r, t', sc') ->
  exists t1,
    t' = Some t1
    /\ Status.current_status t1 <> Status.STRATEGY_STATE_ACTIVE
    /\ (0 <= Status.current_status t <= Status.STRATEGY_MAX_STATE ->
        Status.current_status t1 = Status.STRATEGY_STATE_ERROR).
Proof.
  intros Hrf H. rewrite (transition_status_race_free _ _ _ Hrf) in H.
  change (Status.STRATEGY_STATE_ERROR >? Status.STRATEGY_MAX_STATE) with false
    in H.
  cbn [orb] in H.
  destruct (Status.is_valid_state_transition (Status.current_status t)
              Status.STRATEGY_STATE_ERROR) eqn:Hv; cbn [negb] in H.
  - destruct (Status.update_transition_counters _ _ _) as [[r2 t2] sc2] eqn:Hu.
    inversion H; subst. exists t2. split; [reflexivity|].
    assert (Hcs : Status.current_status t2 = Status.STRATEGY_STATE_ERROR).
    { unfold Status.update_transition_counters, bind in Hu.
      destruct (Status.atomic_increment_with_check _ _) as [[r1 tc] sc1].
      cbn [Status.current_status Status.transition_count Status.error_count]
        in Hu.
      destruct (negb (Status.is_success r1)).
      - unfold ret in Hu. inversion Hu; subst. reflexivity.
      - rewrite Z.eqb_refl in Hu.
        destruct (Status.atomic_increment_with_check _ _) as [[r3 ec] sc3].
        unfold ret in Hu. inversion Hu; subst. reflexivity. }
    rewrite Hcs. split; [discriminate | auto].
  - inversion H; subst. exists t. split; [reflexivity|]. split.
    + intros Ha. rewrite Ha in Hv. discriminate.
    + intros Hr.
      assert (Hc : Status.current_status t = 0 \/ Status.current_status t = 1
                   \/ Status.current_status t = 2
                   \/ Status.current_status t = 3)
        by (unfold Status.STRATEGY_MAX_STATE,
              Status.STRATEGY_STATE_TRANSITIONING in Hr; lia).
      destruct Hc as [Hc|[Hc|[Hc|Hc]]]; rewrite Hc in Hv |- *;
        try discriminate; reflexivity.
Qed.

Lemma set_error_status_latches {D : Type} (self : Strategy.MemoryStrategy D)
    (sc : schedule) :
  race_free sc ->
  Strategy.validate_state (fst (Strategy.set_error_status self sc)) = false
  /\ ((forall t, Strategy.status_tracker self = Some t ->
                 0 <= Status.current_status t <= Status.STRATEGY_MAX_STATE) ->
      Strategy.default_get_status (Some (fst (Strategy.set_error_status self sc)))
      = Status.STRATEGY_STATE_ERROR).
Proof.
  intros Hrf. unfold Strategy.set_error_status, bind.
  destruct (Strategy.status_tracker self) as [t|] eqn:Ht.
  - destruct (Status.transition_status (Some t) _ sc) as [[r t'] sc'] eqn:Hrun.
    destruct (transition_to_error_race_free _ _ _ _ _ Hrf Hrun)
      as (t1 & -> & Hna & Herr).
    unfold ret. cbn [fst].
    rewrite validate_state_tracker. unfold Strategy.default_get_status.
    cbn [Strategy.set_status_tracker Strategy.status_tracker
         Status.get_current_status].
    split.
    + apply Z.eqb_neq. assumption.
    + intros Hr. apply Herr. apply Hr. reflexivity.
  - cbn [Status.transition_status Status.validate_transition_input ret fst].
    rewrite validate_state_tracker. unfold Strategy.default_get_status.
    cbn [Strategy.set_status_tracker Strategy.status_tracker].
    split; [reflexivity | intros _; reflexivity].
Qed.

(** X12. In the generic strategy of memory_strategy.c a rejected request is
    not only refused: when no store races with the call, an allocation that
    fails validation (size 0, or a strategy that is not [ACTIVE]) or whose
    [malloc] fails, and a deallocation that fails validation (a null or
    misaligned pointer), leave the strategy in a state that is not
    [ACTIVE]; and a strategy that is not [ACTIVE] returns null for every
    allocation, whatever [malloc] would return. *)
Theorem generic_strategy_error_latch {D : Type}
    (self : Strategy.MemoryStrategy D) (sc : schedule) :
  race_free sc ->
  (forall size malloc_result,
      Strategy.validate_allocation (Some self) size = false
      \/ malloc_result = 0 ->
      fst (fst (Strategy.default_allocate self size malloc_result sc)) = 0
      /\ Strategy.validate_state
           (snd (fst (Strategy.default_allocate self size malloc_result sc)))
         = false)
  /\ (forall ptr,
         Strategy.validate_deallocation (Some self) ptr = false ->
         Strategy.validate_state (fst (Strategy.default_deallocate self ptr sc))
         = false)
  /\ (forall (self' : Strategy.MemoryStrategy D) size malloc_result sc',
         Strategy.validate_state self' = false ->
         fst (fst (Strategy.default_allocate self' size malloc_result sc'))
         = 0).
Proof.
  intros Hrf.
  pose proof (set_error_status_latches self sc Hrf) as [Hl _].
  split; [|split].
  - intros size m H. unfold Strategy.default_allocate.
    destruct (Strategy.validate_allocation (Some self) size) eqn:Hv;
      cbn [negb].
    + destruct H as [H | ->]; [discriminate|]. rewrite Z.eqb_refl.
      unfold bind. destruct (Strategy.set_error_status self sc) as [s1 sc1].
      unfold ret. cbn [fst snd] in *. auto.
    + unfold bind. destruct (Strategy.set_error_status self sc) as [s1 sc1].
      unfold ret. cbn [fst snd] in *. auto.
  - intros ptr Hv. unfold Strategy.default_deallocate. rewrite Hv.
    cbn [negb]. exact Hl.
  - intros self' size m sc' Hv. unfold Strategy.default_allocate.
    unfold Strategy.validate_allocation. rewrite Hv. cbn [andb negb].
    unfold bind. destruct (Strategy.set_error_status self' sc') as [s1 sc1].
    reflexivity.
Qed.

(** X12 at work: a request for 0 bytes on an active strategy. *)
Lemma generic_strategy_error_latch_witness :
  fst (fst (Strategy.default_allocate
              (Strategy.mkStrategy (D := unit) true true true true
                 (Some (Status.mkTracker 1 1 0)) None) 0 4096 [])) = 0
  /\ Strategy.validate_state
       (snd (fst (Strategy.default_allocate
                    (Strategy.mkStrategy (D := unit) true true true true
                       (Some (Status.mkTracker 1 1 0)) None) 0 4096 [])))
     = false.
Proof.
  apply (proj1 (generic_strategy_error_latch
                  (Strategy.mkStrategy (D := unit) true true true true
                     (Some (Status.mkTracker 1 1 0)) None) []
                  (List.Forall_nil _)) 0 4096).
  left. reflexivity.
Defined.

(** X13. [pool_get_status] reports [ACTIVE] exactly when [pool_validate]
    accepts the strategy and [ERROR] in every other case: a pool strategy
    that is [INITIALIZED] or [TRANSITIONING], or that lacks a function
    pointer or its tracker, is reported as [ERROR]. The generic
    [default_get_status] reports the stored state of any strategy that has
    a tracker. *)
Theorem pool_get_status_active_or_error :
  (forall self : option Pool.pool_strategy,
      Pool.pool_get_status self
      = if Pool.pool_validate self then Status.STRATEGY_STATE_ACTIVE
        else Status.STRATEGY_STATE_ERROR)
  /\ (forall (D : Type) (self : Strategy.MemoryStrategy D)
             (t : Status.StatusTracker),
         Strategy.status_tracker self = Some t ->
         Strategy.default_get_status (Some self) = Status.current_status t).
Proof.
  split.
  - intros [s|]; [|reflexivity].
    unfold Pool.pool_get_status, Pool.pool_validate, Strategy.validate_strategy.
    destruct (Strategy.validate_function_pointers s); cbn [andb];
      [|reflexivity].
    rewrite validate_state_tracker.
    destruct (Strategy.status_tracker s) as [t|]; [|reflexivity].
    cbn [Status.get_current_status].
    destruct (Z.eqb_spec (Status.current_status t)
                Status.STRATEGY_STATE_ACTIVE); [assumption | reflexivity].
  - intros D self t Ht. unfold Strategy.default_get_status. rewrite Ht.
    reflexivity.
Qed.

(** ** The pool allocator: invariant, failure, placement *)

Lemma secure_clear_memory_inside (m : Pool.memory) (mem size a : Z) :
  mem <> 0 -> 0 < size <= Pool.POOL_BLOCK_SIZE * Pool.POOL_BLOCK_COUNT ->
  mem <= a < mem + size ->
  Pool.secure_clear_memory m mem size a = 0.
Proof.
  intros Hm Hs Ha. unfold Pool.secure_clear_memory.
  destruct (Z.eqb_spec mem 0); [contradiction|].
  destruct (Z.eqb_spec size 0); [lia|].
  destruct (Z.gtb_spec size (Pool.POOL_BLOCK_SIZE * Pool.POOL_BLOCK_COUNT));
    [lia|].
  cbn [orb]. rewrite clear_bytes_spec.
  destruct (Z.leb_spec mem a), (Z.ltb_spec a (mem + Z.of_nat (Z.to_nat size)));
    simpl; try reflexivity; lia.
Qed.

Lemma mark_loop_ok (n : nat) (bitmap : list Z) (block : Z) (used : bool) :
  bitmap_ok bitmap ->
  length (Pool.mark_loop n bitmap block used) = length bitmap
  /\ bitmap_ok (Pool.mark_loop n bitmap block used).
Proof.
  revert bitmap block. induction n as [|n IH]; intros bitmap block Hok.
  - split; [reflexivity | assumption].
  - cbn [Pool.mark_loop]. cbv zeta.
    set (w' := if used then _ else _).
    assert (Hw : 0 <= w' < 2 ^ 64).
    { subst w'. pose proof (word_at_range bitmap (block / Pool.BLOCKS_PER_BITMAP) Hok).
      destruct used.
      - apply set_bit_range; [assumption|].
        apply Z.mod_pos_bound. unfold Pool.BLOCKS_PER_BITMAP. lia.
      - apply clear_bit_range. assumption. }
    destruct (IH (<[Z.to_nat (block / Pool.BLOCKS_PER_BITMAP) := w']> bitmap)
                (block + 1)) as [Hl Ho].
    { unfold bitmap_ok. apply Forall_insert; assumption. }
    split; [|assumption]. rewrite Hl. apply length_insert.
Qed.

Lemma mark_blocks_ok (bitmap : list Z) (start n : Z) (used : bool) :
  bitmap_ok bitmap ->
  length (Pool.mark_blocks bitmap start n used) = length bitmap
  /\ bitmap_ok (Pool.mark_blocks bitmap start n used).
Proof.
  intros Hok. unfold Pool.mark_blocks.
  destruct (_ || _); [split; [reflexivity | assumption]|].
  apply mark_loop_ok. assumption.
Qed.

Lemma mark_unmark_restores (bitmap : list Z) (start n : Z) :
  bitmap_ok bitmap -> 0 <= start -> 1 <= n ->
  start + n <= 64 * Z.of_nat (length bitmap) ->
  start + n <= Pool.POOL_BLOCK_COUNT ->
  free_run bitmap start n ->
  Pool.mark_blocks (Pool.mark_blocks bitmap start n true) start n false
  = bitmap.
Proof.
  intros Hok Hs Hn Hlen Hcnt Hrun.
  destruct (mark_blocks_spec bitmap start n true Hok Hs Hn Hlen Hcnt)
    as (Hlen1 & Hok1 & Hbits1).
  destruct (mark_blocks_spec (Pool.mark_blocks bitmap start n true) start n
              false Hok1 Hs Hn ltac:(rewrite Hlen1; lia) Hcnt)
    as (Hlen2 & Hok2 & Hbits2).
  apply bitmap_ext; [congruence | exact Hok2 | exact Hok |].
  intros k Hk. rewrite Hbits2, Hbits1 by lia.
  destruct ((start <=? k) && (k <? start + n)) eqn:Hin; [|reflexivity].
  apply andb_prop in Hin. destruct Hin as [H1 H2].
  apply Z.leb_le in H1. apply Z.ltb_lt in H2.
  specialize (Hrun k ltac:(lia)).
  rewrite block_free_testbit in Hrun by lia.
  apply negb_true_iff in Hrun. symmetry. exact Hrun.
Qed.

Ltac pool_failure_shape Hco :=
  f_equal; f_equal;
  unfold Pool.set_bitmap, Pool.set_metrics, Pool.count_failure, Pool.leave_op,
    Pool.enter_op;
  cbn [Pool.blocks_used Pool.total_allocations Pool.failed_allocations
       Pool.concurrent_ops Pool.metrics Pool.pool_memory Pool.heap
       Pool.block_bitmap Pool.bitmap_size Pool.thread_count
       Pool.initialization_flag];
  rewrite (metrics_roundtrip _ Hco).

(** The pool after a failed allocation: only the failure is counted. *)
Lemma pool_allocate_failure (self : Pool.pool_strategy) (size : Z)
    (sc : schedule) (self1 : Pool.pool_strategy) (sc1 : schedule)
    (pool : Pool.MemoryPool) :
  Strategy.strategy_data self = Some pool -> pool_wf pool ->
  Strategy.validate_allocation (Some self) size = true ->
  Pool.pool_allocate self size sc = (0, self1, sc1) ->
  sc1 = sc
  /\ self1
     = Strategy.set_strategy_data self
         (Some (Pool.set_metrics pool
                  (Pool.count_failure (Pool.metrics pool)))).
Proof.
  intros Hdata Hwf Hval H.
  destruct Hwf as (Hbase & Halign & Hend & (bitmap & Hbm & Hlen & Hok) & Hbu & Hco).
  unfold Pool.pool_allocate in H. rewrite Hval in H. cbn [negb] in H.
  apply validate_allocation_size in Hval. destruct Hval as [Hstate Hsize].
  rewrite Hdata, Hbm in H.
  destruct (Z.eqb_spec (Pool.pool_memory pool) 0) as [Hz|_]; [lia|].
  cbv beta zeta in H.
  destruct (_ >=? Pool.MAX_ALLOCATION_RETRIES).
  { unfold ret in H. inversion H; subst. split; [reflexivity|].
    pool_failure_shape Hco. reflexivity. }
  destruct (Z.eqb_spec (Pool.blocks_needed size) 0) as [Hnz|Hnz].
  { unfold ret in H. inversion H; subst. split; [reflexivity|].
    pool_failure_shape Hco. reflexivity. }
  pose proof (blocks_needed_range size ltac:(lia) Hnz) as Hneeded.
  cbn [Pool.bitmap_size Pool.set_metrics] in H.
  destruct (Pool.find_contiguous_blocks bitmap (Pool.bitmap_size pool)
              (Pool.blocks_needed size)) as [start|] eqn:Hfind.
  2:{ unfold ret in H. inversion H; subst. split; [reflexivity|].
      pool_failure_shape Hco. reflexivity. }
  destruct (find_contiguous_blocks_some bitmap (Pool.bitmap_size pool)
              (Pool.blocks_needed size) start Hfind ltac:(lia)
              ltac:(unfold SIZE_MAX; lia))
    as (Htotal & Hs0 & Hs1 & Hrun & _).
  unfold Pool.BLOCKS_PER_BITMAP, Pool.POOL_BLOCK_COUNT in Htotal, Hs1.
  destruct (_ >? wrap64 (UINT32_MAX - Pool.blocks_needed size)).
  - unfold ret in H. inversion H; subst. split; [reflexivity|].
    pool_failure_shape Hco.
    rewrite mark_unmark_restores;
      [rewrite Hbm; reflexivity | assumption | assumption | lia | lia
       | unfold Pool.POOL_BLOCK_COUNT; lia | assumption].
  - exfalso. unfold ret in H. inversion H as [[Hptr Hself Hsc]].
    unfold Pool.set_bitmap, Pool.set_metrics in Hptr.
    cbn [Pool.pool_memory] in Hptr.
    unfold Pool.POOL_BLOCK_SIZE, Pool.POOL_METADATA_SIZE,
      Pool.POOL_BLOCK_COUNT in *.
    rewrite (wrap64_small (start * 256)) in Hptr by (unfold SIZE_MAX; lia).
    rewrite (wrap64_small (Pool.pool_memory pool + start * 256)) in Hptr
      by (unfold SIZE_MAX in *; lia).
    rewrite wrap64_small in Hptr by (unfold SIZE_MAX in *; lia).
    lia.
Qed.

Lemma wrap_fast32_range (x : Z) : 0 <= wrap_fast32 x < 2 ^ 64.
Proof. unfold wrap_fast32. apply Z.mod_pos_bound. lia. Qed.

Lemma allocated_pool_wf (pool : Pool.MemoryPool) (bitmap : list Z)
    (start needed : Z) :
  pool_wf pool -> Pool.block_bitmap pool = Some bitmap ->
  1 <= needed <= 1024 ->
  wrap32 (Pool.blocks_used (Pool.metrics pool)) <= UINT32_MAX - needed ->
  pool_wf (allocated_pool pool bitmap start needed).
Proof.
  intros (Hbase & Halign & Hend & (bitmap' & Hbm' & Hlen & Hok) & Hbu & Hco)
    Hbm Hn Hfit.
  rewrite Hbm in Hbm'. inversion Hbm'; subst bitmap'.
  destruct (mark_blocks_ok bitmap start needed true Hok) as [Hl1 Hok1].
  unfold pool_wf, allocated_pool.
  cbn [Pool.pool_memory Pool.block_bitmap Pool.bitmap_size Pool.metrics
       Pool.blocks_used Pool.concurrent_ops].
  split; [assumption|]. split; [assumption|]. split; [assumption|].
  split.
  { eexists. split; [reflexivity|]. split; [|assumption].
    rewrite Hl1. assumption. }
  split; [|assumption].
  unfold wrap32, UINT32_MAX in Hfit.
  pose proof (Z.mod_pos_bound (Pool.blocks_used (Pool.metrics pool)) (2 ^ 32)
                ltac:(lia)) as Hm.
  pose proof (Z.div_mod (Pool.blocks_used (Pool.metrics pool)) (2 ^ 32)
                ltac:(lia)) as Hdm.
  assert (Hq : Pool.blocks_used (Pool.metrics pool) / 2 ^ 32 < 2 ^ 32).
  { apply Z.div_lt_upper_bound; lia. }
  change (2 ^ 64) with (2 ^ 32 * 2 ^ 32) in *. nia.
Qed.

Lemma create_pool_strategy_shape (arena : Z) (h : Pool.memory) (sc : schedule)
    (self : Pool.pool_strategy) (sc' : schedule) :
  Pool.create_pool_strategy arena h sc = (Some self, sc') ->
  exists t',
    Status.current_status t' = Status.STRATEGY_STATE_ACTIVE
    /\ self
       = Strategy.mkStrategy true true true true (Some t')
           (Some (Pool.mkPool arena
                    (Pool.secure_clear_memory h arena
                       (Pool.POOL_BLOCK_SIZE * Pool.POOL_BLOCK_COUNT))
                    (Some (replicate 16 0)) 16 0 0 (Pool.mkMetrics 0 0 0 0))).
Proof.
  unfold Pool.create_pool_strategy, bind, Strategy.initialize_strategy.
  cbn [Status.initialize_status]. unfold bind.
  destruct (Status.transition_status _ Status.STRATEGY_STATE_ACTIVE sc)
    as [[r tracker'] sc1] eqn:Htr.
  destruct r; cbn [Status.is_success]; unfold ret; try discriminate.
  apply transition_status_success in Htr. destruct Htr as (t' & -> & Hst).
  intros H. inversion H; subst. exists t'. split; [assumption|]. reflexivity.
Qed.

Lemma word_at_replicate (n : nat) (j : Z) : Pool.word_at (replicate n 0) j = 0.
Proof.
  unfold Pool.word_at.
  destruct (replicate n 0 !! Z.to_nat j) as [w|] eqn:Hw; [|reflexivity].
  apply lookup_replicate_1 in Hw. destruct Hw as [-> _]. reflexivity.
Qed.

Ltac pool_wf_leaf :=
  unfold pool_wf, Pool.set_metrics, Pool.set_bitmap, Pool.set_heap,
    Pool.leave_op, Pool.enter_op, Pool.count_failure;
  cbn [Pool.blocks_used Pool.total_allocations Pool.failed_allocations
       Pool.concurrent_ops Pool.metrics Pool.pool_memory Pool.heap
       Pool.block_bitmap Pool.bitmap_size Pool.thread_count
       Pool.initialization_flag].

Lemma pool_allocate_wf (self : Pool.pool_strategy) (size : Z) (sc : schedule)
    (pool : Pool.MemoryPool) :
  Strategy.strategy_data self = Some pool -> pool_wf pool ->
  exists pool',
    Strategy.strategy_data (snd (fst (Pool.pool_allocate self size sc)))
    = Some pool'
    /\ pool_wf pool'.
Proof.
  intros Hdata Hwf.
  destruct (Pool.pool_allocate self size sc) as [[p self1] sc1] eqn:H.
  cbn [fst snd].
  destruct (Strategy.validate_allocation (Some self) size) eqn:Hval.
  - destruct (Z.eq_dec p 0) as [->|Hp].
    + destruct (pool_allocate_failure _ _ _ _ _ _ Hdata Hwf Hval H)
        as [_ ->].
      eexists. split; [reflexivity|].
      destruct Hwf as (Hbase & Halign & Hend & Hbmx & Hbu & Hco).
      pool_wf_leaf. repeat split; try assumption; tauto.
    + destruct (pool_allocate_inv _ _ _ _ _ _ _ Hdata Hwf H Hp)
        as (bitmap & start & Hbm & _ & _ & _ & Hn & _ & Hfit & _ & _ & ->).
      eexists. split; [reflexivity|].
      apply allocated_pool_wf; assumption.
  - unfold Pool.pool_allocate in H. rewrite Hval in H. cbn [negb] in H.
    unfold ret in H. inversion H; subst. exists pool. auto.
Qed.

Lemma pool_deallocate_wf (self : Pool.pool_strategy) (ptr : Z) (sc : schedule)
    (pool : Pool.MemoryPool) :
  Strategy.strategy_data self = Some pool -> pool_wf pool ->
  exists pool',
    Strategy.strategy_data (fst (Pool.pool_deallocate self ptr sc))
    = Some pool'
    /\ pool_wf pool'.
Proof.
  intros Hdata Hwf.
  pose proof Hwf as (Hbase & Halign & Hend & (bitmap & Hbm & Hlen & Hok)
                     & Hbu & Hco).
  unfold Pool.pool_deallocate.
  destruct (Strategy.validate_deallocation (Some self) ptr); cbn [negb];
    [|exists pool; auto].
  rewrite Hdata, Hbm.
  destruct (Z.eqb_spec (Pool.pool_memory pool) 0) as [Hz|_]; [lia|].
  cbv beta zeta.
  assert (Hleave : pool_wf
                     (Pool.set_metrics
                        (Pool.set_metrics pool
                           (Pool.enter_op (Pool.metrics pool)))
                        (Pool.leave_op
                           (Pool.metrics
                              (Pool.set_metrics pool
                                 (Pool.enter_op (Pool.metrics pool))))))).
  { rewrite (leave_enter pool Hco). assumption. }
  destruct (_ >=? Pool.MAX_ALLOCATION_RETRIES);
    [eexists; split; [reflexivity | exact Hleave]|].
  destruct (negb (Pool.is_ptr_in_pool_range _ _ _));
    [eexists; split; [reflexivity | exact Hleave]|].
  destruct (negb (Pool.is_block_used _ _));
    [eexists; split; [reflexivity | exact Hleave]|].
  destruct (_ || _); [eexists; split; [reflexivity | exact Hleave]|].
  eexists. split; [reflexivity|].
  destruct (_ >=? _); pool_wf_leaf;
    match goal with
    | |- context [Pool.mark_blocks bitmap ?s ?n false] =>
        destruct (mark_blocks_ok bitmap s n false Hok) as [Hl1 Hok1]
    end;
    (split; [assumption|]); (split; [assumption|]); (split; [assumption|]);
    (split; [eexists; split; [reflexivity|]; split;
             [rewrite Hl1; assumption | assumption]|]);
    split; try assumption; apply wrap_fast32_range.
Qed.

(** X14. The representation invariant of the pool ([pool_wf]: an aligned
    arena inside the address space, a bitmap of [bitmap_size] 64-bit words,
    counters in range) is established by [create_pool_strategy], which also
    leaves every block free, the arena zeroed and the strategy accepted by
    [pool_validate]; and it is preserved by every [pool_allocate] and every
    [pool_deallocate], whatever their arguments and results. *)
Theorem pool_invariant :
  (forall (arena : Z) (h : Pool.memory) (sc : schedule)
          (self : Pool.pool_strategy) (sc' : schedule),
      0 < arena -> arena mod 8 = 0 ->
      arena + Pool.POOL_BLOCK_SIZE * Pool.POOL_BLOCK_COUNT <= SIZE_MAX ->
      Pool.create_pool_strategy arena h sc = (Some self, sc') ->
      exists pool,
        Strategy.strategy_data self = Some pool
        /\ pool_wf pool
        /\ Pool.pool_validate (Some self) = true
        /\ (forall k, Pool.is_block_used (Pool.block_bitmap pool) k = false)
        /\ Pool.blocks_used (Pool.metrics pool) = 0
        /\ (forall a,
               Pool.heap pool a
               = if (arena <=? a)
                    && (a <? arena + Pool.POOL_BLOCK_SIZE * Pool.POOL_BLOCK_COUNT)
                 then 0 else h a))
  /\ (forall (self : Pool.pool_strategy) (size : Z) (sc : schedule)
             (pool : Pool.MemoryPool),
         Strategy.strategy_data self = Some pool -> pool_wf pool ->
         exists pool',
           Strategy.strategy_data (snd (fst (Pool.pool_allocate self size sc)))
           = Some pool'
           /\ pool_wf pool')
  /\ (forall (self : Pool.pool_strategy) (ptr : Z) (sc : schedule)
             (pool : Pool.MemoryPool),
         Strategy.strategy_data self = Some pool -> pool_wf pool ->
         exists pool',
           Strategy.strategy_data (fst (Pool.pool_deallocate self ptr sc))
           = Some pool'
           /\ pool_wf pool').
Proof.
  split; [|split; [exact pool_allocate_wf | exact pool_deallocate_wf]].
  intros arena h sc self sc' Hpos Hal Hend H.
  apply create_pool_strategy_shape in H. destruct H as (t' & Hst & ->).
  eexists. split; [reflexivity|].
  split.
  { unfold pool_wf.
    cbn [Pool.pool_memory Pool.block_bitmap Pool.bitmap_size Pool.metrics
         Pool.blocks_used Pool.concurrent_ops].
    repeat split; try assumption; try lia.
    eexists. split; [reflexivity|]. split; [reflexivity|].
    apply bitmap_ok_replicate. }
  split.
  { unfold Pool.pool_validate, Strategy.validate_strategy,
      Strategy.validate_function_pointers.
    cbn [Strategy.allocate Strategy.deallocate Strategy.get_status
         Strategy.validate andb].
    rewrite validate_state_tracker. cbn [Strategy.status_tracker].
    rewrite Hst. reflexivity. }
  split.
  { intros k. cbn [Pool.block_bitmap]. unfold Pool.is_block_used.
    destruct (k >=? Pool.POOL_BLOCK_COUNT); [reflexivity|].
    cbv zeta. rewrite word_at_replicate, Z.land_0_l. reflexivity. }
  split; [reflexivity|].
  intros a. cbn [Pool.heap].
  unfold Pool.POOL_BLOCK_SIZE, Pool.POOL_BLOCK_COUNT in *.
  destruct (Z.leb_spec arena a), (Z.ltb_spec a (arena + 256 * 1024));
    cbn [andb].
  - apply secure_clear_memory_inside;
      unfold Pool.POOL_BLOCK_SIZE, Pool.POOL_BLOCK_COUNT; lia.
  - apply secure_clear_memory_outside. lia.
  - apply secure_clear_memory_outside. lia.
  - apply secure_clear_memory_outside. lia.
Qed.

(** X15. A [pool_allocate] that returns null on a well-formed pool has
    changed nothing but the failure counter: the pool memory, the bitmap
    (also when the blocks had already been marked and the [blocks_used]
    guard rolled them back), [blocks_used], [total_allocations] and
    [concurrent_ops] are as before, the tracker is untouched and no schedule
    entry is consumed; [failed_allocations] is incremented exactly when the
    request had passed [validate_allocation]. *)
Theorem pool_allocate_failure_atomic (self : Pool.pool_strategy) (size : Z)
    (sc : schedule) (self1 : Pool.pool_strategy) (sc1 : schedule)
    (pool : Pool.MemoryPool) :
  Strategy.strategy_data self = Some pool -> pool_wf pool ->
  Pool.pool_allocate self size sc = (0, self1, sc1) ->
  sc1 = sc
  /\ Strategy.status_tracker self1 = Strategy.status_tracker self
  /\ exists pool1,
      Strategy.strategy_data self1 = Some pool1
      /\ Pool.heap pool1 = Pool.heap pool
      /\ Pool.block_bitmap pool1 = Pool.block_bitmap pool
      /\ Pool.blocks_used (Pool.metrics pool1)
         = Pool.blocks_used (Pool.metrics pool)
      /\ Pool.total_allocations (Pool.metrics pool1)
         = Pool.total_allocations (Pool.metrics pool)
      /\ Pool.concurrent_ops (Pool.metrics pool1)
         = Pool.concurrent_ops (Pool.metrics pool)
      /\ Pool.failed_allocations (Pool.metrics pool1)
         = (if Strategy.validate_allocation (Some self) size
            then wrap_fast32 (Pool.failed_allocations (Pool.metrics pool) + 1)
            else Pool.failed_allocations (Pool.metrics pool)).
Proof.
  intros Hdata Hwf H.
  destruct (Strategy.validate_allocation (Some self) size) eqn:Hval.
  - destruct (pool_allocate_failure _ _ _ _ _ _ Hdata Hwf Hval H)
      as [-> ->].
    split; [reflexivity|]. split; [reflexivity|].
    eexists. split; [reflexivity|]. repeat split; reflexivity.
  - unfold Pool.pool_allocate in H. rewrite Hval in H. cbn [negb] in H.
    unfold ret in H. inversion H; subst.
    split; [reflexivity|]. split; [reflexivity|].
    exists pool. repeat split; try reflexivity. assumption.
Qed.

(** X15 at work: the whole pool is requested twice; the second request
    finds no free run. *)
Lemma pool_allocate_failure_atomic_witness :
  let self1 := snd (fst (Pool.pool_allocate fresh_strategy 262136 [])) in
  exists pool1 self2 pool2,
    Strategy.strategy_data self1 = Some pool1
    /\ Pool.pool_allocate self1 262136 [] = (0, self2, [])
    /\ Strategy.strategy_data self2 = Some pool2
    /\ Pool.block_bitmap pool2 = Pool.block_bitmap pool1
    /\ Pool.blocks_used (Pool.metrics pool2)
       = Pool.blocks_used (Pool.metrics pool1).
Proof.
  cbv zeta.
  destruct (pool_allocate_wf fresh_strategy 262136 [] fresh_pool eq_refl
              fresh_pool_wf) as (pool1 & Hd1 & Hwf1).
  destruct (Pool.pool_allocate
              (snd (fst (Pool.pool_allocate fresh_strategy 262136 [])))
              262136 []) as [[p2 self2] sc2] eqn:H2.
  assert (Hp2 : p2 = 0).
  { pose proof (f_equal (fun r => fst (fst r)) H2) as Hp. cbn [fst] in Hp.
    rewrite <- Hp. vm_compute. reflexivity. }
  subst p2.
  destruct (pool_allocate_failure_atomic _ _ _ _ _ _ Hd1 Hwf1 H2)
    as (-> & _ & pool2 & Hd2 & _ & Hb & Hu & _).
  exists pool1, self2, pool2. auto.
Defined.

(** X16. [blocks_needed] is the least number of 256-byte blocks that hold
    the request together with its 8-byte header: for a size of at most
    [POOL_BLOCK_COUNT * POOL_BLOCK_SIZE - POOL_METADATA_SIZE] it is the
    ceiling of [(size + 8) / 256], between 1 and 1024; for every larger
    [size_t] size it is 0, the value the allocator treats as failure. *)
Theorem blocks_needed_ceiling (size : Z) :
  0 <= size <= SIZE_MAX ->
  (size <= Pool.POOL_BLOCK_COUNT * Pool.POOL_BLOCK_SIZE - Pool.POOL_METADATA_SIZE ->
   1 <= Pool.blocks_needed size <= Pool.POOL_BLOCK_COUNT
   /\ (Pool.blocks_needed size - 1) * Pool.POOL_BLOCK_SIZE
      < size + Pool.POOL_METADATA_SIZE
      <= Pool.blocks_needed size * Pool.POOL_BLOCK_SIZE)
  /\ (Pool.POOL_BLOCK_COUNT * Pool.POOL_BLOCK_SIZE - Pool.POOL_METADATA_SIZE
      < size ->
      Pool.blocks_needed size = 0).
Proof.
  intros Hs. unfold Pool.blocks_needed, Pool.POOL_BLOCK_COUNT,
    Pool.POOL_BLOCK_SIZE, Pool.POOL_METADATA_SIZE, SIZE_MAX in *.
  pose proof (Z.div_mod (size + 8 + 256 - 1) 256 ltac:(lia)) as Hdm.
  pose proof (Z.mod_pos_bound (size + 8 + 256 - 1) 256 ltac:(lia)) as Hm.
  split; intros Hb.
  - destruct (Z.gtb_spec size (2 ^ 64 - 1 - 8)); [lia|].
    destruct (Z.gtb_spec (size + 8) (2 ^ 64 - 1 - (256 - 1))); [lia|].
    destruct (Z.eqb_spec ((size + 8 + 256 - 1) / 256) 0); [lia|].
    destruct (Z.gtb_spec ((size + 8 + 256 - 1) / 256) 1024); [lia|].
    cbn [orb]. lia.
  - destruct (Z.gtb_spec size (2 ^ 64 - 1 - 8)); [reflexivity|].
    destruct (Z.gtb_spec (size + 8) (2 ^ 64 - 1 - (256 - 1))); [reflexivity|].
    destruct (Z.eqb_spec ((size + 8 + 256 - 1) / 256) 0); [reflexivity|].
    destruct (Z.gtb_spec ((size + 8 + 256 - 1) / 256) 1024);
      [reflexivity | lia].
Qed.

Lemma blocks_needed_ceiling_witness :
  (1000 <= Pool.POOL_BLOCK_COUNT * Pool.POOL_BLOCK_SIZE - Pool.POOL_METADATA_SIZE ->
   1 <= Pool.blocks_needed 1000 <= Pool.POOL_BLOCK_COUNT
   /\ (Pool.blocks_needed 1000 - 1) * Pool.POOL_BLOCK_SIZE
      < 1000 + Pool.POOL_METADATA_SIZE
      <= Pool.blocks_needed 1000 * Pool.POOL_BLOCK_SIZE)
  /\ (Pool.POOL_BLOCK_COUNT * Pool.POOL_BLOCK_SIZE - Pool.POOL_METADATA_SIZE
      < 1000 ->
      Pool.blocks_needed 1000 = 0).
Proof. apply (blocks_needed_ceiling 1000). unfold SIZE_MAX. lia. Defined.

Lemma blocks_needed_holds (size : Z) :
  0 <= size -> Pool.blocks_needed size <> 0 ->
  size + 8 <= Pool.blocks_needed size * 256.
Proof.
  intros Hs Hnz. unfold Pool.blocks_needed, Pool.POOL_BLOCK_COUNT,
    Pool.POOL_BLOCK_SIZE, Pool.POOL_METADATA_SIZE in *.
  pose proof (Z.div_mod (size + 8 + 256 - 1) 256 ltac:(lia)) as Hdm.
  pose proof (Z.mod_pos_bound (size + 8 + 256 - 1) 256 ltac:(lia)) as Hm.
  destruct (size >? SIZE_MAX - 8); [contradiction|].
  destruct (size + 8 >? SIZE_MAX - (256 - 1)); [contradiction|].
  destruct (_ || _); [contradiction|]. lia.
Qed.

Lemma store_size_t_outside (m : Pool.memory) (a v x : Z) :
  x < a \/ a + 8 <= x -> Pool.store_size_t m a v x = m x.
Proof.
  intros Hx. unfold Pool.store_size_t. cbn [seq fold_left].
  unfold Pool.store_byte.
  repeat match goal with
         | |- context [x =? ?y] =>
             destruct (Z.eqb_spec x y) as [Heq|_]; [cbn in Heq; lia|]
         end.
  reflexivity.
Qed.

(** The blocks of a successful allocation, placed in the arena. *)
Lemma pool_allocate_placement (self : Pool.pool_strategy) (size : Z)
    (sc : schedule) (p : Z) (self1 : Pool.pool_strategy) (sc1 : schedule)
    (pool : Pool.MemoryPool) :
  Strategy.strategy_data self = Some pool -> pool_wf pool ->
  Pool.pool_allocate self size sc = (p, self1, sc1) -> p <> 0 ->
  exists bitmap start,
    Pool.block_bitmap pool = Some bitmap
    /\ bitmap_ok bitmap
    /\ Z.of_nat (length bitmap) = Pool.bitmap_size pool
    /\ 0 < size
    /\ 1 <= Pool.blocks_needed size <= 1024
    /\ size + 8 <= Pool.blocks_needed size * 256
    /\ 0 <= start
    /\ start + Pool.blocks_needed size <= 64 * Pool.bitmap_size pool
    /\ start + Pool.blocks_needed size <= 1024
    /\ free_run bitmap start (Pool.blocks_needed size)
    /\ p = Pool.pool_memory pool + start * 256 + 8
    /\ sc1 = sc
    /\ Strategy.validate_state self = true
    /\ wrap32 (Pool.concurrent_ops (Pool.metrics pool)) < 3
    /\ self1 = Strategy.set_strategy_data self
                 (Some (allocated_pool pool bitmap start
                          (Pool.blocks_needed size)))
    /\ pool_wf (allocated_pool pool bitmap start (Pool.blocks_needed size)).
Proof.
  intros Hdata Hwf H Hp.
  destruct (pool_allocate_inv self size sc p self1 sc1 pool Hdata Hwf H Hp)
    as (bitmap & start & Hbm & Hstate & Hsize & Hops & Hneeded & Hfind & Hfit
        & Hsc & Hptr & Hself1).
  pose proof (allocated_pool_wf pool bitmap start _ Hwf Hbm Hneeded Hfit)
    as Hwf1.
  destruct Hwf as (Hbase & Halign & Hend & (bitmap' & Hbm' & Hlen & Hok)
                   & Hbu & Hco).
  rewrite Hbm in Hbm'. inversion Hbm'; subst bitmap'. clear Hbm'.
  destruct (find_contiguous_blocks_some bitmap (Pool.bitmap_size pool)
              (Pool.blocks_needed size) start Hfind ltac:(lia)
              ltac:(unfold SIZE_MAX; lia))
    as (Htotal & Hs0 & Hs1 & Hrun & _).
  unfold Pool.BLOCKS_PER_BITMAP, Pool.POOL_BLOCK_COUNT, Pool.POOL_BLOCK_SIZE,
    Pool.POOL_METADATA_SIZE in *.
  exists bitmap, start.
  split; [assumption|]. split; [assumption|]. split; [assumption|].
  split; [lia|]. split; [assumption|].
  split; [apply blocks_needed_holds; lia|].
  split; [assumption|]. split; [lia|]. split; [lia|].
  split; [assumption|]. split; [assumption|]. split; [assumption|].
  split; [assumption|]. split; [assumption|]. split; assumption.
Qed.

(** X17. A successful [pool_allocate] on a well-formed pool returns an
    8-byte aligned pointer whose [size] bytes, together with the header in
    front of them, lie inside the arena and inside blocks that were free;
    after it the bytes from the pointer to the end of the reserved run read
    0, and no byte outside the reserved run has changed. *)
Theorem pool_allocate_memory_safety (self : Pool.pool_strategy) (size : Z)
    (sc : schedule) (p : Z) (self1 : Pool.pool_strategy) (sc1 : schedule)
    (pool : Pool.MemoryPool) :
  Strategy.strategy_data self = Some pool -> pool_wf pool ->
  Pool.pool_allocate self size sc = (p, self1, sc1) -> p <> 0 ->
  exists pool1 start,
    Strategy.strategy_data self1 = Some pool1
    /\ 0 <= start
    /\ start + Pool.blocks_needed size <= Pool.POOL_BLOCK_COUNT
    /\ p - Pool.POOL_METADATA_SIZE
       = Pool.pool_memory pool + start * Pool.POOL_BLOCK_SIZE
    /\ p mod 8 = 0
    /\ p + size
       <= Pool.pool_memory pool
          + (start + Pool.blocks_needed size) * Pool.POOL_BLOCK_SIZE
    /\ (forall k, start <= k < start + Pool.blocks_needed size ->
          Pool.is_block_used (Pool.block_bitmap pool) k = false)
    /\ (forall a,
           p <= a < Pool.pool_memory pool
                    + (start + Pool.blocks_needed size) * Pool.POOL_BLOCK_SIZE ->
           Pool.heap pool1 a = 0)
    /\ (forall a,
           a < p - Pool.POOL_METADATA_SIZE
           \/ Pool.pool_memory pool
              + (start + Pool.blocks_needed size) * Pool.POOL_BLOCK_SIZE <= a ->
           Pool.heap pool1 a = Pool.heap pool a).
Proof.
  intros Hdata Hwf H Hp.
  destruct (pool_allocate_placement _ _ _ _ _ _ _ Hdata Hwf H Hp)
    as (bitmap & start & Hbm & Hok & Hlen & Hsz & Hn & Hholds & Hs0 & Hs64
        & Hs1 & Hrun & Hptr & _ & _ & _ & -> & _).
  destruct Hwf as (Hbase & Halign & Hend & _).
  unfold Pool.POOL_BLOCK_COUNT, Pool.POOL_BLOCK_SIZE, Pool.POOL_METADATA_SIZE
    in *.
  set (needed := Pool.blocks_needed size) in *.
  eexists. exists start. split; [reflexivity|].
  split; [assumption|]. split; [assumption|]. split; [lia|].
  split.
  { rewrite Hptr.
    replace (Pool.pool_memory pool + start * 256 + 8)
      with (Pool.pool_memory pool + (32 * start + 1) * 8) by lia.
    rewrite Z.mod_add by lia. exact Halign. }
  split; [lia|].
  split.
  { intros k Hk. rewrite Hbm.
    rewrite is_block_used_testbit by (unfold Pool.POOL_BLOCK_COUNT; lia).
    specialize (Hrun k Hk). rewrite block_free_testbit in Hrun by lia.
    apply negb_true_iff in Hrun. exact Hrun. }
  unfold allocated_pool. cbn [Pool.heap].
  unfold Pool.POOL_BLOCK_SIZE, Pool.POOL_METADATA_SIZE.
  split.
  - intros a Ha. apply secure_clear_memory_inside;
      unfold Pool.POOL_BLOCK_SIZE, Pool.POOL_BLOCK_COUNT; lia.
  - intros a Ha. rewrite secure_clear_memory_outside by lia.
    apply store_size_t_outside. lia.
Qed.

Lemma pool_allocate_memory_safety_witness :
  exists pool1 start,
    Strategy.strategy_data
      (snd (fst (Pool.pool_allocate fresh_strategy 100 []))) = Some pool1
    /\ 0 <= start
    /\ start + Pool.blocks_needed 100 <= Pool.POOL_BLOCK_COUNT
    /\ 4104 - Pool.POOL_METADATA_SIZE
       = Pool.pool_memory fresh_pool + start * Pool.POOL_BLOCK_SIZE
    /\ 4104 mod 8 = 0
    /\ 4104 + 100
       <= Pool.pool_memory fresh_pool
          + (start + Pool.blocks_needed 100) * Pool.POOL_BLOCK_SIZE
    /\ (forall k, start <= k < start + Pool.blocks_needed 100 ->
          Pool.is_block_used (Pool.block_bitmap fresh_pool) k = false)
    /\ (forall a,
           4104 <= a < Pool.pool_memory fresh_pool
                       + (start + Pool.blocks_needed 100)
                         * Pool.POOL_BLOCK_SIZE ->
           Pool.heap pool1 a = 0)
    /\ (forall a,
           a < 4104 - Pool.POOL_METADATA_SIZE
           \/ Pool.pool_memory fresh_pool
              + (start + Pool.blocks_needed 100) * Pool.POOL_BLOCK_SIZE <= a ->
           Pool.heap pool1 a = Pool.heap fresh_pool a).
Proof.
  apply (pool_allocate_memory_safety fresh_strategy 100 [] 4104
           (snd (fst (Pool.pool_allocate fresh_strategy 100 []))) []
           fresh_pool).
  - reflexivity.
  - exact fresh_pool_wf.
  - destruct (Pool.pool_allocate fresh_strategy 100 []) as [[p s1] sc1] eqn:H.
    pose proof (f_equal (fun r => fst (fst r)) H) as Hp.
    pose proof (f_equal (fun r => length (snd r)) H) as Hs.
    cbn [fst snd] in Hp, Hs. vm_compute in Hp. vm_compute in Hs.
    destruct sc1; [|discriminate]. subst p. reflexivity.
  - lia.
Defined.

(** X18. Two allocations that are both live never overlap: when a
    successful [pool_allocate] is followed by another successful
    [pool_allocate] on the same pool, the [size] bytes of one end before
    the header of the other begins. *)
Theorem pool_allocations_disjoint (self : Pool.pool_strategy)
    (size1 size2 : Z) (sc : schedule) (pool : Pool.MemoryPool)
    (p1 : Z) (self1 : Pool.pool_strategy) (sc1 : schedule)
    (p2 : Z) (self2 : Pool.pool_strategy) (sc2 : schedule) :
  Strategy.strategy_data self = Some pool -> pool_wf pool ->
  Pool.pool_allocate self size1 sc = (p1, self1, sc1) -> p1 <> 0 ->
  Pool.pool_allocate self1 size2 sc1 = (p2, self2, sc2) -> p2 <> 0 ->
  p1 + size1 <= p2 - Pool.POOL_METADATA_SIZE
  \/ p2 + size2 <= p1 - Pool.POOL_METADATA_SIZE.
Proof.
  intros Hdata Hwf H1 Hp1 H2 Hp2.
  destruct (pool_allocate_placement _ _ _ _ _ _ _ Hdata Hwf H1 Hp1)
    as (bitmap & s1 & Hbm & Hok & Hlen & Hsz1 & Hn1 & Hh1 & Hs10 & Hs164
        & Hs11 & Hrun1 & Hptr1 & _ & _ & _ & Hself1 & Hwf1).
  assert (Hdata1 : Strategy.strategy_data self1
                   = Some (allocated_pool pool bitmap s1
                             (Pool.blocks_needed size1)))
    by (rewrite Hself1; reflexivity).
  destruct (pool_allocate_placement _ _ _ _ _ _ _ Hdata1 Hwf1 H2 Hp2)
    as (bitmap1 & s2 & Hbm1 & Hok1 & Hlen1 & Hsz2 & Hn2 & Hh2 & Hs20 & Hs264
        & Hs21 & Hrun2 & Hptr2 & _).
  unfold allocated_pool in Hbm1, Hptr2, Hlen1, Hs264.
  cbn [Pool.block_bitmap Pool.pool_memory Pool.bitmap_size] in *.
  inversion Hbm1 as [Hb1]. clear Hbm1.
  set (n1 := Pool.blocks_needed size1) in *.
  set (n2 := Pool.blocks_needed size2) in *.
  destruct (mark_blocks_spec bitmap s1 n1 true Hok Hs10 ltac:(lia)
              ltac:(lia) ltac:(unfold Pool.POOL_BLOCK_COUNT; lia))
    as (_ & _ & Hbits).
  assert (Hdis : s1 + n1 <= s2 \/ s2 + n2 <= s1).
  { destruct (Z.le_gt_cases (s1 + n1) s2) as [|Ha]; [left; assumption|].
    destruct (Z.le_gt_cases (s2 + n2) s1) as [|Hb]; [right; assumption|].
    exfalso.
    assert (Hk : s1 <= Z.max s1 s2 < s1 + n1 /\ s2 <= Z.max s1 s2 < s2 + n2)
      by lia.
    destruct Hk as [Hk1 Hk2].
    specialize (Hrun2 (Z.max s1 s2) Hk2). rewrite <- Hb1 in Hrun2.
    rewrite block_free_testbit in Hrun2 by lia.
    rewrite Hbits in Hrun2 by lia.
    destruct (Z.leb_spec s1 (Z.max s1 s2)); [|lia].
    destruct (Z.ltb_spec (Z.max s1 s2) (s1 + n1)); [|lia].
    discriminate. }
  unfold Pool.POOL_METADATA_SIZE. lia.
Qed.

Lemma pool_allocations_disjoint_witness :
  4104 + 100 <= 4360 - Pool.POOL_METADATA_SIZE
  \/ 4360 + 300 <= 4104 - Pool.POOL_METADATA_SIZE.
Proof.
  destruct (Pool.pool_allocate fresh_strategy 100 []) as [[p1 s1] sc1] eqn:H1.
  destruct (Pool.pool_allocate s1 300 sc1) as [[p2 s2] sc2] eqn:H2.
  assert (Hp1 : p1 = 4104).
  { pose proof (f_equal (fun r => fst (fst r)) H1) as Hp. cbn [fst] in Hp.
    rewrite <- Hp. vm_compute. reflexivity. }
  assert (Hp2 : p2 = 4360).
  { pose proof (f_equal (fun r => fst (fst r)) H2) as Hp. cbn [fst] in Hp.
    rewrite <- Hp.
    pose proof (f_equal (fun r => (snd (fst r), snd r)) H1) as Hs.
    cbn [fst snd] in Hs. inversion Hs as [[Hs1 Hsc1]].
    vm_compute. reflexivity. }
  subst p1 p2.
  apply (pool_allocations_disjoint fresh_strategy 100 300 [] fresh_pool
           4104 s1 sc1 4360 s2 sc2); try assumption; try lia.
  - reflexivity.
  - exact fresh_pool_wf.
Defined.

(** [pool_deallocate] of a pointer whose header lies in a block that is not
    marked used. *)
Lemma pool_deallocate_unused (self : Pool.pool_strategy) (ptr : Z)
    (sc : schedule) (pool : Pool.MemoryPool) :
  Strategy.strategy_data self = Some pool ->
  0 <= ptr <= SIZE_MAX ->
  0 <= Pool.concurrent_ops (Pool.metrics pool) < 2 ^ 64 ->
  Pool.is_block_used (Pool.block_bitmap pool)
    ((ptr - Pool.POOL_METADATA_SIZE - Pool.pool_memory pool)
     / Pool.POOL_BLOCK_SIZE) = false ->
  Strategy.strategy_data (fst (Pool.pool_deallocate self ptr sc)) = Some pool.
Proof.
  intros Hdata Hptr Hco Hfree.
  unfold Pool.pool_deallocate.
  destruct (Strategy.validate_deallocation (Some self) ptr) eqn:Hval;
    cbn [negb]; [|exact Hdata].
  apply validate_deallocation_ptr in Hval.
  destruct Hval as (Hstate & Hnz & Hal).
  rewrite Hdata.
  destruct (Pool.block_bitmap pool) as [bitmap|] eqn:Hbm;
    [|rewrite set_error_status_data; exact Hdata].
  destruct (Pool.pool_memory pool =? 0);
    [rewrite set_error_status_data; exact Hdata|].
  cbv zeta.
  rewrite (header_address_nowrap ptr Hptr Hnz Hal).
  rewrite (leave_enter pool Hco).
  destruct (_ >=? Pool.MAX_ALLOCATION_RETRIES); [reflexivity|].
  destruct (Pool.is_ptr_in_pool_range _ _ _); cbn [negb]; [|reflexivity].
  unfold Pool.set_metrics. cbn [Pool.pool_memory].
  rewrite Hfree. reflexivity.
Qed.

(** The pool after a successful allocation and the deallocation of the
    pointer it returned. *)
Lemma pool_round_trip_shape (self : Pool.pool_strategy) (size : Z)
    (sc : schedule) (p : Z) (self1 : Pool.pool_strategy) (sc1 : schedule)
    (pool : Pool.MemoryPool) (sc2 : schedule) :
  Strategy.strategy_data self = Some pool -> pool_wf pool ->
  Pool.pool_allocate self size sc = (p, self1, sc1) -> p <> 0 ->
  exists bitmap start heap1,
    Pool.block_bitmap pool = Some bitmap
    /\ p = Pool.pool_memory pool + start * 256 + 8
    /\ 0 <= start /\ start + Pool.blocks_needed size <= 1024
    /\ 1 <= Pool.blocks_needed size
    /\ free_run bitmap start (Pool.blocks_needed size)
    /\ (forall a,
           a < p - 8 \/ p - 8 + Pool.blocks_needed size * 256 <= a ->
           heap1 a = Pool.heap pool a)
    /\ Pool.pool_deallocate self1 p sc2
       = (Strategy.set_strategy_data self1
            (Some
               (Pool.mkPool (Pool.pool_memory pool)
                  (Pool.secure_clear_memory heap1 (p - 8)
                     (Pool.blocks_needed size * 256))
                  (Some bitmap) (Pool.bitmap_size pool)
                  (Pool.thread_count pool) (Pool.initialization_flag pool)
                  (Pool.mkMetrics (Pool.blocks_used (Pool.metrics pool))
                     (wrap_fast32
                        (Pool.total_allocations (Pool.metrics pool) + 1))
                     (Pool.failed_allocations (Pool.metrics pool))
                     (Pool.concurrent_ops (Pool.metrics pool))))),
          sc2).
Proof.
  intros Hdata Hwf H Hp.
  destruct (pool_allocate_placement _ _ _ _ _ _ _ Hdata Hwf H Hp)
    as (bitmap & start & Hbm & Hok & Hlen & Hsz & Hn & Hholds & Hs0 & Hs64
        & Hs1 & Hrun & Hptr & _ & Hstate & Hops & Hself1 & Hwf1).
  destruct Hwf as (Hbase & Halign & Hend & _ & Hbu & Hco).
  unfold Pool.POOL_BLOCK_COUNT, Pool.POOL_BLOCK_SIZE, Pool.POOL_METADATA_SIZE
    in *.
  set (needed := Pool.blocks_needed size) in *.
  destruct (mark_blocks_spec bitmap start needed true Hok Hs0 ltac:(lia)
              ltac:(lia) ltac:(unfold Pool.POOL_BLOCK_COUNT; lia))
    as (Hlen1 & Hok1 & Hbits1).
  assert (Hfit : wrap32 (Pool.blocks_used (Pool.metrics pool))
                 <= UINT32_MAX - needed).
  { destruct (pool_allocate_inv _ _ _ _ _ _ _ Hdata
                (conj Hbase (conj Halign (conj Hend
                   (conj (ex_intro _ bitmap (conj Hbm (conj Hlen Hok)))
                      (conj Hbu Hco))))) H Hp)
      as (b' & s' & _ & _ & _ & _ & _ & _ & Hf & _). exact Hf. }
  set (pool1 := allocated_pool pool bitmap start needed) in *.
  assert (Hhdr : Pool.load_size_t (Pool.heap pool1)
                   (Pool.pool_memory pool + start * 256) = needed).
  { subst pool1. unfold allocated_pool. cbn [Pool.heap].
    unfold Pool.POOL_BLOCK_SIZE, Pool.POOL_METADATA_SIZE.
    rewrite (load_size_t_ext _
               (Pool.store_size_t (Pool.heap pool)
                  (Pool.pool_memory pool + start * 256) needed)).
    - apply load_store_size_t. lia.
    - intros k Hk. apply secure_clear_memory_outside. lia. }
  assert (Hframe : forall a,
             a < p - 8 \/ p - 8 + needed * 256 <= a ->
             Pool.heap pool1 a = Pool.heap pool a).
  { intros a Ha. subst pool1. unfold allocated_pool. cbn [Pool.heap].
    unfold Pool.POOL_BLOCK_SIZE, Pool.POOL_METADATA_SIZE.
    rewrite secure_clear_memory_outside by lia.
    apply store_size_t_outside. lia. }
  assert (Hpm : Pool.pool_memory pool1 = Pool.pool_memory pool) by reflexivity.
  assert (Hbm1 : Pool.block_bitmap pool1
                 = Some (Pool.mark_blocks bitmap start needed true))
    by reflexivity.
  assert (Hbu1 : Pool.blocks_used (Pool.metrics pool1)
                 = Pool.blocks_used (Pool.metrics pool) + needed)
    by reflexivity.
  assert (Hco1 : Pool.concurrent_ops (Pool.metrics pool1)
                 = Pool.concurrent_ops (Pool.metrics pool)) by reflexivity.
  assert (Hta1 : Pool.total_allocations (Pool.metrics pool1)
                 = wrap_fast32 (Pool.total_allocations (Pool.metrics pool) + 1))
    by reflexivity.
  assert (Hfa1 : Pool.failed_allocations (Pool.metrics pool1)
                 = Pool.failed_allocations (Pool.metrics pool)) by reflexivity.
  assert (Hbs1 : Pool.bitmap_size pool1 = Pool.bitmap_size pool)
    by reflexivity.
  assert (Htc1 : Pool.thread_count pool1 = Pool.thread_count pool)
    by reflexivity.
  assert (Hif1 : Pool.initialization_flag pool1 = Pool.initialization_flag pool)
    by reflexivity.
  clearbody pool1.
  exists bitmap, start, (Pool.heap pool1).
  split; [assumption|]. split; [assumption|]. split; [assumption|].
  split; [assumption|]. split; [lia|]. split; [assumption|].
  split; [assumption|].
  assert (Hp8 : p - 8 = Pool.pool_memory pool + start * 256) by lia.
  assert (Hidx : (p - 8 - Pool.pool_memory pool) / 256 = start).
  { rewrite Hp8.
    replace (Pool.pool_memory pool + start * 256 - Pool.pool_memory pool)
      with (start * 256) by lia.
    apply Z.div_mul. lia. }
  assert (Hused : Pool.is_block_used
                    (Some (Pool.mark_blocks bitmap start needed true)) start
                  = true).
  { rewrite is_block_used_testbit by (unfold Pool.POOL_BLOCK_COUNT; lia).
    rewrite Hbits1 by lia.
    destruct (Z.leb_spec start start); [|lia].
    destruct (Z.ltb_spec start (start + needed)); [reflexivity | lia]. }
  rewrite Hself1.
  rewrite (pool_deallocate_proper _ p sc2 pool1
             (Pool.mark_blocks bitmap start needed true));
    rewrite ?Hpm, ?Hco1, ?Hidx, ?Hp8, ?Hhdr, ?Hbu1, ?Hta1, ?Hfa1, ?Hbs1,
      ?Htc1, ?Hif1.
  - f_equal. f_equal. f_equal.
    rewrite (mark_unmark_restores bitmap start needed Hok Hs0 ltac:(lia)
               ltac:(lia) ltac:(unfold Pool.POOL_BLOCK_COUNT; lia) Hrun).
    f_equal. f_equal.
    assert (Hsum : wrap32 (Pool.blocks_used (Pool.metrics pool) + needed)
                   = wrap32 (Pool.blocks_used (Pool.metrics pool)) + needed).
    { unfold wrap32, UINT32_MAX in *.
      pose proof (Z.mod_pos_bound (Pool.blocks_used (Pool.metrics pool))
                    (2 ^ 32) ltac:(lia)).
      rewrite <- Zplus_mod_idemp_l. apply Z.mod_small. lia. }
    rewrite Hsum.
    destruct (Z.geb_spec
                (wrap32 (Pool.blocks_used (Pool.metrics pool)) + needed)
                needed) as [_|Hlt].
    + replace (Pool.blocks_used (Pool.metrics pool) + needed - needed)
        with (Pool.blocks_used (Pool.metrics pool)) by lia.
      unfold wrap_fast32. apply Z.mod_small. lia.
    + unfold wrap32 in Hlt.
      pose proof (Z.mod_pos_bound (Pool.blocks_used (Pool.metrics pool))
                    (2 ^ 32) ltac:(lia)). lia.
  - reflexivity.
  - rewrite validate_state_set_data. exact Hstate.
  - exact Hbm1.
  - exact Hbase.
  - exact Hend.
  - exact Hco.
  - exact Hops.
  - unfold SIZE_MAX in *. lia.
  - rewrite Hptr.
    replace (Pool.pool_memory pool + start * 256 + 8)
      with (Pool.pool_memory pool + (32 * start + 1) * 8) by lia.
    rewrite Z.mod_add by lia. exact Halign.
  - unfold Pool.POOL_BLOCK_SIZE, Pool.POOL_BLOCK_COUNT. lia.
  - exact Hused.
  - lia.
  - lia.
Qed.

(** X19. Freeing what was allocated scrubs it, and freeing it twice is
    harmless: after a successful [pool_allocate] on a well-formed pool and
    the [pool_deallocate] of the returned pointer, every byte of the run
    that had been reserved (header included) reads 0 and no other byte
    differs from before the allocation; a second [pool_deallocate] of the
    same pointer leaves the pool exactly as the first one left it. *)
Theorem pool_free_scrubs_and_double_free (self : Pool.pool_strategy)
    (size : Z) (sc : schedule) (p : Z) (self1 : Pool.pool_strategy)
    (sc1 : schedule) (pool : Pool.MemoryPool) (sc2 sc3 : schedule) :
  Strategy.strategy_data self = Some pool -> pool_wf pool ->
  Pool.pool_allocate self size sc = (p, self1, sc1) -> p <> 0 ->
  let self2 := fst (Pool.pool_deallocate self1 p sc2) in
  let run_end :=
    p - Pool.POOL_METADATA_SIZE
    + Pool.blocks_needed size * Pool.POOL_BLOCK_SIZE in
  exists pool2,
    Strategy.strategy_data self2 = Some pool2
    /\ (forall a, p - Pool.POOL_METADATA_SIZE <= a < run_end ->
                  Pool.heap pool2 a = 0)
    /\ (forall a, a < p - Pool.POOL_METADATA_SIZE \/ run_end <= a ->
                  Pool.heap pool2 a = Pool.heap pool a)
    /\ Strategy.strategy_data (fst (Pool.pool_deallocate self2 p sc3))
       = Some pool2.
Proof.
  intros Hdata Hwf H Hp. cbv zeta.
  destruct (pool_round_trip_shape _ _ _ _ _ _ _ sc2 Hdata Hwf H Hp)
    as (bitmap & start & heap1 & Hbm & Hptr & Hs0 & Hs1 & Hn & Hrun & Hframe
        & Heq).
  destruct Hwf as (Hbase & Halign & Hend & _ & Hbu & Hco).
  unfold Pool.POOL_BLOCK_COUNT, Pool.POOL_BLOCK_SIZE, Pool.POOL_METADATA_SIZE
    in *.
  rewrite Heq. cbn [fst].
  eexists. split; [reflexivity|].
  cbn [Pool.heap].
  split.
  { intros a Ha. apply secure_clear_memory_inside;
      unfold Pool.POOL_BLOCK_SIZE, Pool.POOL_BLOCK_COUNT; lia. }
  split.
  { intros a Ha. rewrite secure_clear_memory_outside by lia.
    apply Hframe. lia. }
  apply pool_deallocate_unused.
  - reflexivity.
  - unfold SIZE_MAX in *. lia.
  - cbn [Pool.metrics Pool.concurrent_ops]. assumption.
  - cbn [Pool.block_bitmap Pool.pool_memory].
    unfold Pool.POOL_BLOCK_SIZE, Pool.POOL_METADATA_SIZE.
    replace ((p - 8 - Pool.pool_memory pool) / 256) with start.
    + rewrite is_block_used_testbit by (unfold Pool.POOL_BLOCK_COUNT; lia).
      specialize (Hrun start ltac:(lia)).
      rewrite block_free_testbit in Hrun by lia.
      apply negb_true_iff in Hrun. exact Hrun.
    + rewrite Hptr.
      replace (Pool.pool_memory pool + start * 256 + 8 - 8
               - Pool.pool_memory pool) with (start * 256) by lia.
      symmetry. apply Z.div_mul. lia.
Qed.

Lemma pool_free_scrubs_and_double_free_witness :
  let self1 := snd (fst (Pool.pool_allocate fresh_strategy 100 [])) in
  let self2 := fst (Pool.pool_deallocate self1 4104 []) in
  let run_end :=
    4104 - Pool.POOL_METADATA_SIZE
    + Pool.blocks_needed 100 * Pool.POOL_BLOCK_SIZE in
  exists pool2,
    Strategy.strategy_data self2 = Some pool2
    /\ (forall a, 4104 - Pool.POOL_METADATA_SIZE <= a < run_end ->
                  Pool.heap pool2 a = 0)
    /\ (forall a, a < 4104 - Pool.POOL_METADATA_SIZE \/ run_end <= a ->
                  Pool.heap pool2 a = Pool.heap fresh_pool a)
    /\ Strategy.strategy_data (fst (Pool.pool_deallocate self2 4104 []))
       = Some pool2.
Proof.
  apply (pool_free_scrubs_and_double_free fresh_strategy 100 [] 4104
           (snd (fst (Pool.pool_allocate fresh_strategy 100 []))) []
           fresh_pool [] []).
  - reflexivity.
  - exact fresh_pool_wf.
  - destruct (Pool.pool_allocate fresh_strategy 100 []) as [[p s1] sc1] eqn:H.
    pose proof (f_equal (fun r => fst (fst r)) H) as Hp.
    pose proof (f_equal (fun r => length (snd r)) H) as Hs.
    cbn [fst snd] in Hp, Hs. vm_compute in Hp. vm_compute in Hs.
    destruct sc1; [|discriminate]. subst p. reflexivity.
  - lia.
Defined.

Lemma prefix_used_free (bitmap : list Z) (k j : Z) :
  prefix_used bitmap k -> 0 <= j < 1024 ->
  block_free bitmap j = negb (j <? k).
Proof.
  intros Hpre Hj.
  specialize (Hpre j ltac:(unfold Pool.POOL_BLOCK_COUNT; lia)).
  rewrite is_block_used_testbit in Hpre by (unfold Pool.POOL_BLOCK_COUNT; lia).
  rewrite block_free_testbit by lia. rewrite Hpre. reflexivity.
Qed.

Lemma prefix_used_find (bitmap : list Z) (k n : Z) :
  prefix_used bitmap k -> 0 <= k <= 1024 -> 1 <= n <= 1024 ->
  Pool.find_contiguous_blocks bitmap 16 n
  = if 1024 <? k + n then None else Some k.
Proof.
  intros Hpre Hk Hn.
  pose proof (find_contiguous_blocks_spec bitmap 16 n ltac:(lia)
                ltac:(unfold Pool.BLOCKS_PER_BITMAP, Pool.POOL_BLOCK_COUNT; lia)
                ltac:(unfold SIZE_MAX; lia)) as Hspec.
  unfold Pool.BLOCKS_PER_BITMAP in Hspec.
  assert (Hrunk : k + n <= 1024 -> free_run bitmap k n).
  { intros Hfit j Hj. rewrite (prefix_used_free bitmap k j Hpre) by lia.
    destruct (Z.ltb_spec j k); [lia | reflexivity]. }
  destruct (Pool.find_contiguous_blocks bitmap 16 n) as [s|].
  - destruct Hspec as (Hs0 & Hs1 & Hrun & Hmin).
    assert (Hsk : k <= s).
    { specialize (Hrun s ltac:(lia)).
      rewrite (prefix_used_free bitmap k s Hpre) in Hrun by lia.
      destruct (Z.ltb_spec s k); [discriminate | assumption]. }
    destruct (Z.ltb_spec 1024 (k + n)) as [Hno|Hfit]; [lia|].
    f_equal. destruct (Z.eq_dec s k) as [|Hne]; [assumption|].
    exfalso. apply (Hmin k ltac:(lia)). apply Hrunk. lia.
  - destruct (Z.ltb_spec 1024 (k + n)) as [Hno|Hfit]; [reflexivity|].
    exfalso. apply (Hspec k ltac:(lia) ltac:(lia)). apply Hrunk. lia.
Qed.

(** X20. While nothing has been freed the pool is a bump allocator: on a
    pool whose used blocks are exactly the first [k], an admissible request
    is placed immediately after them, at
    [pool_memory + k * POOL_BLOCK_SIZE + POOL_METADATA_SIZE], and the used
    blocks become exactly the first [k + blocks_needed size]; the request
    returns null exactly when it does not fit into the blocks that are
    left. *)
Theorem pool_allocate_bump (self : Pool.pool_strategy) (size : Z)
    (sc : schedule) (pool : Pool.MemoryPool) (bitmap : list Z) (k : Z) :
  Strategy.strategy_data self = Some pool -> pool_wf pool ->
  Pool.block_bitmap pool = Some bitmap -> Pool.bitmap_size pool = 16 ->
  prefix_used bitmap k -> 0 <= k <= Pool.POOL_BLOCK_COUNT ->
  Strategy.validate_allocation (Some self) size = true ->
  wrap32 (Pool.concurrent_ops (Pool.metrics pool)) < Pool.MAX_ALLOCATION_RETRIES ->
  wrap32 (Pool.blocks_used (Pool.metrics pool))
  <= UINT32_MAX - Pool.POOL_BLOCK_COUNT ->
  let r := Pool.pool_allocate self size sc in
  if (Pool.blocks_needed size =? 0)
     || (Pool.POOL_BLOCK_COUNT <? k + Pool.blocks_needed size)
  then fst (fst r) = 0
  else
    fst (fst r)
    = Pool.pool_memory pool + k * Pool.POOL_BLOCK_SIZE + Pool.POOL_METADATA_SIZE
    /\ exists pool1 bitmap1,
        Strategy.strategy_data (snd (fst r)) = Some pool1
        /\ Pool.block_bitmap pool1 = Some bitmap1
        /\ prefix_used bitmap1 (k + Pool.blocks_needed size).
Proof.
  intros Hdata Hwf Hbm Hbs Hpre Hk Hval Hops Hbu32. cbv zeta.
  unfold Pool.POOL_BLOCK_COUNT, Pool.MAX_ALLOCATION_RETRIES in *.
  pose proof Hval as Hval'.
  apply validate_allocation_size in Hval'. destruct Hval' as [Hstate Hsize].
  destruct (Z.eqb_spec (Pool.blocks_needed size) 0) as [Hz|Hnz]; cbn [orb].
  { apply pool_allocate_null. right. assumption. }
  pose proof (blocks_needed_range size ltac:(lia) Hnz) as Hn.
  pose proof (prefix_used_find bitmap k _ Hpre Hk Hn) as Hfind.
  destruct (Z.ltb_spec 1024 (k + Pool.blocks_needed size)) as [Hno|Hfit].
  - destruct (Pool.pool_allocate self size sc) as [[p s1] sc1] eqn:H.
    cbn [fst]. destruct (Z.eq_dec p 0) as [|Hp]; [assumption|].
    exfalso.
    destruct (pool_allocate_inv _ _ _ _ _ _ _ Hdata Hwf H Hp)
      as (b' & start & Hbm' & _ & _ & _ & _ & Hf & _).
    rewrite Hbm in Hbm'. inversion Hbm'; subst b'.
    rewrite Hbs, Hfind in Hf. discriminate.
  - pose proof Hwf as (Hbase & Halign & Hend & (b' & Hbm' & Hlen & Hok)
                       & Hbu & Hco).
    rewrite Hbm in Hbm'. inversion Hbm'; subst b'. clear Hbm'.
    rewrite (pool_allocate_proper self size sc pool bitmap k); try assumption;
      try lia.
    2:{ rewrite Hbs, Hfind. reflexivity. }
    cbn [fst snd]. split; [reflexivity|].
    eexists. eexists. split; [reflexivity|]. split; [reflexivity|].
    destruct (mark_blocks_spec bitmap k (Pool.blocks_needed size) true Hok
                ltac:(lia) ltac:(lia) ltac:(lia)
                ltac:(unfold Pool.POOL_BLOCK_COUNT; lia))
      as (_ & _ & Hbits).
    intros j Hj. unfold Pool.POOL_BLOCK_COUNT in Hj.
    rewrite is_block_used_testbit by (unfold Pool.POOL_BLOCK_COUNT; lia).
    rewrite Hbits by lia.
    specialize (Hpre j ltac:(unfold Pool.POOL_BLOCK_COUNT; lia)).
    rewrite is_block_used_testbit in Hpre
      by (unfold Pool.POOL_BLOCK_COUNT; lia).
    rewrite Hpre.
    destruct (Z.leb_spec k j), (Z.ltb_spec j (k + Pool.blocks_needed size)),
      (Z.ltb_spec j k); cbn [andb]; try reflexivity; lia.
Qed.

Lemma fresh_prefix_used : prefix_used (replicate 16 0) 0.
Proof.
  intros j Hj. unfold Pool.is_block_used.
  destruct (j >=? Pool.POOL_BLOCK_COUNT); [destruct (Z.ltb_spec j 0); [lia | reflexivity]|].
  cbv zeta. rewrite word_at_replicate, Z.land_0_l.
  destruct (Z.ltb_spec j 0); [lia | reflexivity].
Qed.

(** X20 at work on a fresh pool: 100 bytes go to block 0. *)
Lemma pool_allocate_bump_witness :
  let r := Pool.pool_allocate fresh_strategy 100 [] in
  if (Pool.blocks_needed 100 =? 0)
     || (Pool.POOL_BLOCK_COUNT <? 0 + Pool.blocks_needed 100)
  then fst (fst r) = 0
  else
    fst (fst r)
    = Pool.pool_memory fresh_pool + 0 * Pool.POOL_BLOCK_SIZE
      + Pool.POOL_METADATA_SIZE
    /\ exists pool1 bitmap1,
        Strategy.strategy_data (snd (fst r)) = Some pool1
        /\ Pool.block_bitmap pool1 = Some bitmap1
        /\ prefix_used bitmap1 (0 + Pool.blocks_needed 100).
Proof.
  apply (pool_allocate_bump fresh_strategy 100 [] fresh_pool (replicate 16 0) 0).
  - reflexivity.
  - exact fresh_pool_wf.
  - reflexivity.
  - reflexivity.
  - exact fresh_prefix_used.
  - unfold Pool.POOL_BLOCK_COUNT. lia.
  - reflexivity.
  - vm_compute. reflexivity.
  - vm_compute. congruence.
Defined.

(** ** The default strategy: in-flight counter, quota, out-of-memory latch *)

Lemma leave_enter_usage (s : Default.DefaultStrategy) :
  0 <= Default.usage_count s < 2 ^ 32 ->
  Default.leave_usage (Default.enter_usage s) = s.
Proof.
  intros Hc. unfold Default.leave_usage, Default.enter_usage,
    Default.set_usage_count.
  cbn [Default.base Default.stats Default.status_tracker
       Default.total_allocated Default.total_freed Default.peak_usage
       Default.usage_count Default.operation_count].
  rewrite (wrap32_add_sub _ Hc). destruct s; reflexivity.
Qed.

Lemma perform_allocation_fields (s : Default.DefaultStrategy)
    (size malloc_result : Z) (enomem : bool) (now : Z) (sc : schedule)
    (ptr : Z) (s1 : Default.DefaultStrategy) (sc1 : schedule) :
  Default.perform_allocation s size malloc_result enomem now sc
  = (ptr, s1, sc1) ->
  Default.usage_count s1 = Default.usage_count s
  /\ Default.total_freed s1 = Default.total_freed s
  /\ Default.peak_usage s1 = Default.peak_usage s
  /\ Default.base s1 = Default.base s
  /\ Default.operation_count s1 = Default.operation_count s
  /\ (ptr = 0 ->
      malloc_result = 0
      /\ Default.total_allocated s1 = Default.total_allocated s
      /\ Default.stats s1 = Default.stats s
      /\ (enomem = false -> s1 = s /\ sc1 = sc))
  /\ (ptr <> 0 ->
      ptr = malloc_result
      /\ Default.total_allocated s1
         = wrap64 (Default.total_allocated s + size)
      /\ Default.status_tracker s1 = Default.status_tracker s).
Proof.
  unfold Default.perform_allocation.
  destruct (Z.eqb_spec malloc_result 0) as [Hz|Hnz].
  - destruct enomem.
    + unfold bind.
      destruct (Status.transition_status _ Status.STRATEGY_STATE_ERROR sc)
        as [[r tracker] sc2].
      unfold ret. intros H. inversion H; subst.
      destruct tracker; cbn; repeat split; try reflexivity; try congruence;
        try discriminate; intros; congruence.
    + unfold ret. intros H. inversion H; subst.
      repeat split; try reflexivity; try congruence.
  - unfold bind, Default.update_allocation_stats, bind.
    destruct (Default.stats s) as [st|].
    + destruct (Stats.memory_stats_update_allocation st malloc_result size
                  Default.source_file Default.source_line now sc)
        as [st' sc'].
      unfold ret. intros H. inversion H; subst.
      repeat split; try reflexivity; try congruence; intros; congruence.
    + unfold ret. intros H. inversion H; subst.
      repeat split; try reflexivity; try congruence; intros; congruence.
Qed.

Lemma update_peak_usage_fields (s : Default.DefaultStrategy)
    (current_usage : Z) (sc : schedule) :
  let s' := fst (Default.update_peak_usage s current_usage sc) in
  Default.usage_count s' = Default.usage_count s
  /\ Default.total_allocated s' = Default.total_allocated s
  /\ Default.total_freed s' = Default.total_freed s
  /\ Default.status_tracker s' = Default.status_tracker s
  /\ Default.stats s' = Default.stats s.
Proof.
  unfold Default.update_peak_usage.
  destruct (current_usage >? Default.peak_usage s); [|cbn; auto].
  unfold bind.
  destruct (atomic_compare_exchange_strong _ _ _ _ sc) as [[b pk] sc'].
  cbn. auto.
Qed.

(** What a call of [default_allocate] leaves behind. *)
Lemma default_allocate_outcome (s : Default.DefaultStrategy)
    (size malloc_result : Z) (enomem : bool) (now : Z) (sc : schedule)
    (p : Z) (b1 : option Default.DefaultStrategy) (sc1 : schedule) :
  0 <= Default.usage_count s < 2 ^ 32 ->
  Default.default_allocate (Some s) size malloc_result enomem now sc
  = (p, b1, sc1) ->
  exists s1,
    b1 = Some s1
    /\ Default.usage_count s1 = Default.usage_count s
    /\ Default.total_freed s1 = Default.total_freed s
    /\ (p = 0 ->
        Default.total_allocated s1 = Default.total_allocated s
        /\ Default.peak_usage s1 = Default.peak_usage s
        /\ Default.stats s1 = Default.stats s
        /\ (malloc_result <> 0 \/ enomem = false -> s1 = s /\ sc1 = sc))
    /\ (p <> 0 ->
        p = malloc_result
        /\ Default.is_valid_allocation_size
             (wrap64 (Default.total_allocated s - Default.total_freed s)) size
           = true
        /\ Status.current_status (Default.status_tracker s)
           = Status.STRATEGY_STATE_ACTIVE
        /\ Default.total_allocated s1
           = wrap64 (Default.total_allocated s + size)
        /\ Default.status_tracker s1 = Default.status_tracker s).
Proof.
  intros Hc H. unfold Default.default_allocate in H.
  assert (Hsame : exists s1 : Default.DefaultStrategy,
             Some s = Some s1
             /\ Default.usage_count s1 = Default.usage_count s
             /\ Default.total_freed s1 = Default.total_freed s
             /\ (0 = 0 ->
                 Default.total_allocated s1 = Default.total_allocated s
                 /\ Default.peak_usage s1 = Default.peak_usage s
                 /\ Default.stats s1 = Default.stats s
                 /\ (malloc_result <> 0 \/ enomem = false -> s1 = s /\ sc = sc))
             /\ (0 <> 0 ->
                 0 = malloc_result
                 /\ Default.is_valid_allocation_size
                      (wrap64 (Default.total_allocated s
                               - Default.total_freed s)) size = true
                 /\ Status.current_status (Default.status_tracker s)
                    = Status.STRATEGY_STATE_ACTIVE
                 /\ Default.total_allocated s1
                    = wrap64 (Default.total_allocated s + size)
                 /\ Default.status_tracker s1 = Default.status_tracker s)).
  { exists s. repeat split; try reflexivity; intros; congruence. }
  destruct (negb (Default.validate_strategy_base (Some s))).
  { unfold ret in H. inversion H; subst. exact Hsame. }
  destruct (Default.check_strategy_status (Default.enter_usage s)) eqn:Hst;
    cbn [negb] in H.
  2:{ unfold ret in H. rewrite (leave_enter_usage s Hc) in H.
      inversion H; subst. exact Hsame. }
  destruct (Default.is_valid_allocation_size _ size) eqn:Hvalid;
    cbn [negb] in H.
  2:{ unfold ret in H. rewrite (leave_enter_usage s Hc) in H.
      inversion H; subst. exact Hsame. }
  clear Hsame.
  unfold bind at 1 in H.
  destruct (Default.perform_allocation (Default.enter_usage s) size
              malloc_result enomem now sc) as [[ptr s1] sc2] eqn:Hperf.
  apply perform_allocation_fields in Hperf.
  destruct Hperf as (Hu & Hf & Hpk & Hb & Hoc & Hnull & Hok).
  cbn [Default.enter_usage Default.set_usage_count Default.usage_count
       Default.total_freed Default.peak_usage Default.base
       Default.total_allocated Default.stats Default.status_tracker
       Default.operation_count] in *.
  unfold bind in H.
  assert (Hact : Status.current_status (Default.status_tracker s)
                 = Status.STRATEGY_STATE_ACTIVE).
  { unfold Default.check_strategy_status in Hst.
    cbn [Status.get_current_status Default.enter_usage
         Default.set_usage_count Default.status_tracker] in Hst.
    apply Z.eqb_eq in Hst. exact Hst. }
  destruct (Z.eqb_spec ptr 0) as [Hz|Hnz]; cbn [negb] in H.
  - unfold ret in H. inversion H; subst p b1 sc1. subst ptr.
    destruct (Hnull eq_refl) as (Hm & Hta & Hstats & Hsame).
    eexists. split; [reflexivity|].
    unfold Default.leave_usage, Default.set_usage_count.
    cbn [Default.usage_count Default.total_freed Default.total_allocated
         Default.peak_usage Default.stats].
    rewrite Hu. split; [apply wrap32_add_sub; assumption|].
    split; [assumption|]. split; [|intros Hne; congruence].
    intros _. split; [assumption|]. split; [assumption|].
    split; [assumption|].
    intros [Hm'|He]; [contradiction|].
    destruct (Hsame He) as [-> ->].
    split; [|reflexivity].
    change (Default.leave_usage (Default.enter_usage s) = s).
    apply leave_enter_usage. assumption.
  - pose proof (update_peak_usage_fields s1
                  (wrap64 (wrap64 (Default.total_allocated s
                                   - Default.total_freed s) + size)) sc2)
      as Hpf.
    cbv zeta in Hpf.
    destruct (Default.update_peak_usage s1 _ sc2) as [s2 sc3].
    cbn [fst] in Hpf. destruct Hpf as (Hu2 & Hta2 & Htf2 & Htr2 & _).
    unfold ret in H. inversion H; subst p b1 sc1.
    destruct (Hok Hnz) as (Hpm & Hta & Htr).
    eexists. split; [reflexivity|].
    unfold Default.leave_usage, Default.set_usage_count.
    cbn [Default.usage_count Default.total_freed Default.total_allocated
         Default.peak_usage Default.stats Default.status_tracker].
    rewrite Hu2, Hu. split; [apply wrap32_add_sub; assumption|].
    split; [congruence|]. split; [intros; contradiction|].
    intros _. split; [assumption|]. split; [reflexivity|].
    split; [assumption|]. split; congruence.
Qed.

(** X21. [default_allocate] restores the in-flight counter [usage_count]
    on every path, and a call that returns null has left the accounts
    alone: [total_allocated], [total_freed], [peak_usage] and the
    statistics ledger are unchanged, and unless [malloc] itself failed with
    [ENOMEM] the whole strategy is unchanged and no compare-exchange was
    executed. A call that returns a pointer returns [malloc]'s, for a size
    that passed [is_valid_allocation_size] on an [ACTIVE] strategy, and
    has added the size to [total_allocated]. *)
Theorem default_allocate_accounts (s : Default.DefaultStrategy)
    (size malloc_result : Z) (enomem : bool) (now : Z) (sc : schedule)
    (p : Z) (b1 : option Default.DefaultStrategy) (sc1 : schedule) :
  0 <= Default.usage_count s < 2 ^ 32 ->
  Default.default_allocate (Some s) size malloc_result enomem now sc
  = (p, b1, sc1) ->
  exists s1,
    b1 = Some s1
    /\ Default.usage_count s1 = Default.usage_count s
    /\ Default.get_total_freed b1 = Default.total_freed s
    /\ (p = 0 ->
        Default.get_total_allocated b1 = Default.total_allocated s
        /\ Default.get_peak_usage b1 = Default.peak_usage s
        /\ Default.stats s1 = Default.stats s
        /\ (malloc_result <> 0 \/ enomem = false -> s1 = s /\ sc1 = sc))
    /\ (p <> 0 ->
        p = malloc_result
        /\ 0 < size <= SIZE_MAX / 4
        /\ Default.default_get_status (Some s) = Status.STRATEGY_STATE_ACTIVE
        /\ Default.get_total_allocated b1
           = wrap64 (Default.total_allocated s + size)).
Proof.
  intros Hc H.
  assert (Hbase : p <> 0 -> Default.validate_strategy_base (Some s) = true).
  { intros Hp. unfold Default.default_allocate in H.
    destruct (Default.validate_strategy_base (Some s)); [reflexivity|].
    cbn [negb] in H. unfold ret in H. inversion H; subst. contradiction. }
  destruct (default_allocate_outcome _ _ _ _ _ _ _ _ _ Hc H)
    as (s1 & -> & Hu & Hf & Hnull & Hok).
  exists s1. split; [reflexivity|]. split; [assumption|].
  cbn [Default.get_total_freed Default.get_total_allocated
       Default.get_peak_usage].
  split; [assumption|]. split; [exact Hnull|].
  intros Hp. destruct (Hok Hp) as (Hpm & Hvalid & Hact & Hta & _).
  split; [assumption|]. split.
  { unfold Default.is_valid_allocation_size, Default.validate_size in Hvalid.
    destruct (Z.gtb_spec size 0); [|discriminate].
    destruct (Z.leb_spec size (SIZE_MAX / 4)); [lia | discriminate]. }
  split; [|assumption].
  unfold Default.default_get_status. rewrite (Hbase Hp). cbn [negb].
  cbn [Status.get_current_status]. exact Hact.
Qed.

(** X21 at work: a request for 0 bytes on a fresh strategy is refused and
    changes nothing. *)
Lemma default_allocate_accounts_witness :
  let s :=
    Default.mkDefault (Strategy.mkStrategy true true true true None (Some tt))
      (Some Stats.memory_stats_init) (Status.mkTracker 1 1 0) 0 0 0 0 0 in
  exists s1,
    Some s = Some s1
    /\ Default.usage_count s1 = Default.usage_count s
    /\ Default.get_total_freed (Some s) = Default.total_freed s
    /\ (0 = 0 ->
        Default.get_total_allocated (Some s) = Default.total_allocated s
        /\ Default.get_peak_usage (Some s) = Default.peak_usage s
        /\ Default.stats s1 = Default.stats s
        /\ (4096 <> 0 \/ false = false -> s1 = s /\ @nil cas_event = []))
    /\ (0 <> 0 ->
        0 = 4096
        /\ 0 < 0 <= SIZE_MAX / 4
        /\ Default.default_get_status (Some s) = Status.STRATEGY_STATE_ACTIVE
        /\ Default.get_total_allocated (Some s)
           = wrap64 (Default.total_allocated s + 0)).
Proof.
  cbv zeta.
  apply (default_allocate_accounts
           (Default.mkDefault
              (Strategy.mkStrategy true true true true None (Some tt))
              (Some Stats.memory_stats_init) (Status.mkTracker 1 1 0)
              0 0 0 0 0)
           0 4096 false 0 [] 0).
  - cbn. lia.
  - reflexivity.
Defined.

(** X22. The quota of the default strategy: a successful [default_allocate]
    never leaves more than [SIZE_MAX / 4] bytes outstanding, as reported by
    [get_current_usage]; and while the totals have not wrapped around, the
    outstanding bytes have grown by exactly the size. *)
Theorem default_allocate_quota (s : Default.DefaultStrategy)
    (size malloc_result : Z) (enomem : bool) (now : Z) (sc : schedule)
    (p : Z) (b1 : option Default.DefaultStrategy) (sc1 : schedule) :
  0 <= Default.usage_count s < 2 ^ 32 ->
  0 <= Default.total_allocated s <= SIZE_MAX ->
  0 <= Default.total_freed s <= SIZE_MAX ->
  Default.default_allocate (Some s) size malloc_result enomem now sc
  = (p, b1, sc1) ->
  p <> 0 ->
  Default.get_current_usage b1 <= SIZE_MAX / 4
  /\ (Default.total_freed s <= Default.total_allocated s ->
      Default.total_allocated s + size <= SIZE_MAX ->
      Default.get_current_usage b1
      = Default.get_current_usage (Some s) + size).
Proof.
  intros Hc Hta Htf H Hp.
  destruct (default_allocate_outcome _ _ _ _ _ _ _ _ _ Hc H)
    as (s1 & -> & _ & Hf1 & _ & Hok).
  destruct (Hok Hp) as (_ & Hvalid & _ & Hta1 & _).
  unfold Default.is_valid_allocation_size, Default.validate_size in Hvalid.
  destruct (Z.gtb_spec size 0) as [Hs0|]; [|discriminate].
  destruct (Z.leb_spec size (SIZE_MAX / 4)) as [Hsq|]; [|discriminate].
  cbn [andb negb] in Hvalid.
  destruct (Z.gtb_spec (wrap64 (Default.total_allocated s
                                - Default.total_freed s))
              (SIZE_MAX - size)); [discriminate|].
  destruct (Z.gtb_spec (wrap64 (Default.total_allocated s
                                - Default.total_freed s) + size)
              (SIZE_MAX / 4)) as [|Hq]; [discriminate|].
  cbn [Default.get_current_usage]. rewrite Hta1, Hf1.
  unfold wrap64, SIZE_MAX in *.
  change (2 ^ 64) with 18446744073709551616 in *.
  change ((18446744073709551616 - 1) / 4) with 4611686018427387903 in *.
  set (ta := Default.total_allocated s) in *.
  set (tf := Default.total_freed s) in *.
  destruct (Z.le_gt_cases tf ta) as [Hle|Hgt].
  - rewrite (Z.mod_small (ta - tf)) in Hq by lia.
    destruct (Z.le_gt_cases (ta + size) 18446744073709551615) as [Hnw|Hw].
    + rewrite (Z.mod_small (ta + size)) by lia.
      split.
      * destruct (Z.gtb_spec (ta + size) tf); lia.
      * intros _ _. destruct (Z.gtb_spec (ta + size) tf); [|lia].
        destruct (Z.gtb_spec ta tf); lia.
    + assert (Hm : (ta + size) mod 18446744073709551616
                   = ta + size - 18446744073709551616).
      { symmetry. apply (Z.mod_unique _ _ 1); lia. }
      rewrite Hm. split; [|lia].
      destruct (Z.gtb_spec (ta + size - 18446744073709551616) tf); lia.
  - assert (Hm : (ta - tf) mod 18446744073709551616
                 = ta - tf + 18446744073709551616).
    { symmetry. apply (Z.mod_unique _ _ (-1)); lia. }
    rewrite Hm in Hq.
    rewrite (Z.mod_small (ta + size)) by lia.
    split; [|lia].
    destruct (Z.gtb_spec (ta + size) tf); lia.
Qed.

Lemma default_allocate_quota_witness :
  let s :=
    Default.mkDefault (Strategy.mkStrategy true true true true None (Some tt))
      (Some Stats.memory_stats_init) (Status.mkTracker 1 1 0) 0 0 0 0 0 in
  let b1 := snd (fst (Default.default_allocate (Some s) 1024 4096 false 0 [])) in
  Default.get_current_usage b1 <= SIZE_MAX / 4
  /\ (Default.total_freed s <= Default.total_allocated s ->
      Default.total_allocated s + 1024 <= SIZE_MAX ->
      Default.get_current_usage b1
      = Default.get_current_usage (Some s) + 1024).
Proof.
  cbv zeta.
  set (s := Default.mkDefault
              (Strategy.mkStrategy true true true true None (Some tt))
              (Some Stats.memory_stats_init) (Status.mkTracker 1 1 0)
              0 0 0 0 0).
  destruct (Default.default_allocate (Some s) 1024 4096 false 0 [])
    as [[p b1] sc1] eqn:H.
  assert (Hp : p = 4096).
  { pose proof (f_equal (fun r => fst (fst r)) H) as Hp. cbn [fst] in Hp.
    rewrite <- Hp. vm_compute. reflexivity. }
  cbn [fst snd].
  apply (default_allocate_quota s 1024 4096 false 0 [] p b1 sc1).
  - cbn. lia.
  - cbn. unfold SIZE_MAX. lia.
  - cbn. unfold SIZE_MAX. lia.
  - exact H.
  - lia.
Defined.

Lemma default_base_valid_tracker (s : Default.DefaultStrategy)
    (t : Status.StatusTracker) :
  Default.validate_strategy_base (Some (Default.set_tracker s t))
  = Default.validate_strategy_base (Some s).
Proof. reflexivity. Qed.

(** A strategy in the [ERROR] state refuses both operations. *)
Lemma default_error_refuses (s : Default.DefaultStrategy) :
  0 <= Default.usage_count s < 2 ^ 32 ->
  Status.current_status (Default.status_tracker s)
  = Status.STRATEGY_STATE_ERROR ->
  (forall size malloc_result enomem now sc,
      Default.default_allocate (Some s) size malloc_result enomem now sc
      = (0, Some s, sc))
  /\ (forall ptr sc, Default.default_deallocate (Some s) ptr sc = (Some s, sc)).
Proof.
  intros Hc Herr. split.
  - intros size m e now sc. unfold Default.default_allocate.
    destruct (negb (Default.validate_strategy_base (Some s))); [reflexivity|].
    unfold Default.check_strategy_status.
    cbn [Status.get_current_status Default.enter_usage
         Default.set_usage_count Default.status_tracker].
    rewrite Herr. cbn [Z.eqb negb Status.STRATEGY_STATE_ERROR
                         Status.STRATEGY_STATE_ACTIVE].
    change (Status.STRATEGY_STATE_ERROR =? Status.STRATEGY_STATE_ACTIVE)
      with false. cbn [negb].
    unfold ret. rewrite (leave_enter_usage s Hc). reflexivity.
  - intros ptr sc. unfold Default.default_deallocate.
    destruct (_ || _); [reflexivity|].
    cbn [Status.get_current_status Default.enter_usage
         Default.set_usage_count Default.status_tracker].
    rewrite Herr, Z.eqb_refl.
    unfold ret. rewrite (leave_enter_usage s Hc). reflexivity.
Qed.

Lemma default_allocate_enomem (s : Default.DefaultStrategy) (size now : Z)
    (sc : schedule) :
  Default.validate_strategy_base (Some s) = true ->
  Status.current_status (Default.status_tracker s)
  = Status.STRATEGY_STATE_ACTIVE ->
  Default.is_valid_allocation_size
    (wrap64 (Default.total_allocated s - Default.total_freed s)) size = true ->
  0 <= Default.usage_count s < 2 ^ 32 ->
  race_free sc ->
  exists t1 sc2,
    Status.current_status t1 = Status.STRATEGY_STATE_ERROR
    /\ Default.default_allocate (Some s) size 0 true now sc
       = (0, Some (Default.set_tracker s t1), sc2).
Proof.
  intros Hbase Hact Hvalid Hc Hrf.
  destruct (Status.transition_status (Some (Default.status_tracker s))
              Status.STRATEGY_STATE_ERROR sc) as [[r0 t'] sc2] eqn:Htr.
  destruct (transition_to_error_race_free _ _ _ _ _ Hrf Htr)
    as (t1 & -> & _ & Herr).
  assert (Ht1 : Status.current_status t1 = Status.STRATEGY_STATE_ERROR).
  { apply Herr. rewrite Hact. vm_compute. split; congruence. }
  exists t1, sc2. split; [assumption|].
  unfold Default.default_allocate. rewrite Hbase. cbn [negb].
  unfold Default.check_strategy_status.
  cbn [Status.get_current_status].
  change (Default.status_tracker (Default.enter_usage s))
    with (Default.status_tracker s).
  change (Default.total_allocated (Default.enter_usage s))
    with (Default.total_allocated s).
  change (Default.total_freed (Default.enter_usage s))
    with (Default.total_freed s).
  rewrite Hact, Z.eqb_refl. cbn [negb]. rewrite Hvalid. cbn [negb].
  unfold bind at 1. unfold Default.perform_allocation.
  cbn [Z.eqb]. unfold bind at 1.
  change (Default.status_tracker (Default.enter_usage s))
    with (Default.status_tracker s).
  rewrite Htr. unfold ret, bind. cbn [Z.eqb negb].
  f_equal. f_equal. f_equal.
  unfold Default.leave_usage, Default.enter_usage, Default.set_usage_count,
    Default.set_tracker.
  cbn [Default.base Default.stats Default.status_tracker
       Default.total_allocated Default.total_freed Default.peak_usage
       Default.usage_count Default.operation_count].
  rewrite (wrap32_add_sub _ Hc). reflexivity.
Qed.

(** X23. Out of memory latches the default strategy: when [malloc] fails
    with [ENOMEM] on an admissible request and no store races with the
    call, [default_allocate] returns null and leaves the strategy in the
    [ERROR] state, where [default_validate] rejects it; from then on every
    [default_allocate] returns null and every [default_deallocate] returns
    at once, both leaving the strategy exactly as it is, so the allocations
    still outstanding can no longer be released from its accounts. *)
Theorem default_strategy_enomem_latch (s : Default.DefaultStrategy)
    (size now : Z) (sc : schedule) :
  Default.validate_strategy_base (Some s) = true ->
  Status.current_status (Default.status_tracker s)
  = Status.STRATEGY_STATE_ACTIVE ->
  Default.is_valid_allocation_size
    (wrap64 (Default.total_allocated s - Default.total_freed s)) size = true ->
  0 <= Default.usage_count s < 2 ^ 32 ->
  race_free sc ->
  let r := Default.default_allocate (Some s) size 0 true now sc in
  fst (fst r) = 0
  /\ Default.default_get_status (snd (fst r)) = Status.STRATEGY_STATE_ERROR
  /\ Default.default_validate (snd (fst r)) = false
  /\ Default.get_current_usage (snd (fst r)) = Default.get_current_usage (Some s)
  /\ (forall size' malloc_result enomem now' sc',
         Default.default_allocate (snd (fst r)) size' malloc_result enomem
           now' sc'
         = (0, snd (fst r), sc'))
  /\ (forall ptr sc',
         Default.default_deallocate (snd (fst r)) ptr sc'
         = (snd (fst r), sc')).
Proof.
  intros Hbase Hact Hvalid Hc Hrf. cbv zeta.
  destruct (default_allocate_enomem s size now sc Hbase Hact Hvalid Hc Hrf)
    as (t1 & sc2 & Ht1 & ->).
  cbn [fst snd].
  assert (Hc1 : 0 <= Default.usage_count (Default.set_tracker s t1) < 2 ^ 32)
    by exact Hc.
  split; [reflexivity|].
  split.
  { unfold Default.default_get_status.
    rewrite default_base_valid_tracker, Hbase. cbn [negb].
    cbn [Status.get_current_status Default.set_tracker
         Default.status_tracker]. exact Ht1. }
  split.
  { unfold Default.default_validate.
    rewrite default_base_valid_tracker, Hbase. cbn [negb].
    cbn [Status.get_current_status Default.set_tracker
         Default.status_tracker]. rewrite Ht1. reflexivity. }
  split; [reflexivity|].
  apply default_error_refuses; assumption.
Qed.

(** X23 at work on a strategy that holds one allocation of 1024 bytes. *)
Lemma default_strategy_enomem_latch_witness :
  let s :=
    Default.mkDefault (Strategy.mkStrategy true true true true None (Some tt))
      (Some Stats.memory_stats_init) (Status.mkTracker 1 1 0)
      1024 0 1024 0 0 in
  let r := Default.default_allocate (Some s) 64 0 true 0 [] in
  fst (fst r) = 0
  /\ Default.default_get_status (snd (fst r)) = Status.STRATEGY_STATE_ERROR
  /\ Default.default_validate (snd (fst r)) = false
  /\ Default.get_current_usage (snd (fst r)) = Default.get_current_usage (Some s)
  /\ (forall size' malloc_result enomem now' sc',
         Default.default_allocate (snd (fst r)) size' malloc_result enomem
           now' sc'
         = (0, snd (fst r), sc'))
  /\ (forall ptr sc',
         Default.default_deallocate (snd (fst r)) ptr sc'
         = (snd (fst r), sc')).
Proof.
  apply (default_strategy_enomem_latch
           (Default.mkDefault
              (Strategy.mkStrategy true true true true None (Some tt))
              (Some Stats.memory_stats_init) (Status.mkTracker 1 1 0)
              1024 0 1024 0 0) 64 0 []).
  - reflexivity.
  - reflexivity.
  - vm_compute. reflexivity.
  - cbn. lia.
  - constructor.
Defined.
